(** * Message routing and reliable delivery

    A shallow embedding of the task-router service (resolvers.js,
    router.js) and of the delivery service (consumer.js,
    deliveryHandlers.js, and the routes of index.js), followed by the
    properties of the routing, deduplication, retry and
    status-persistence logic.

    Conventions of the embedding.
    - A JavaScript [async] function becomes a computation in the monad
      [M W]: it reads and updates a world [W] and completes normally or
      by throwing an [Error] (of which only [error.message] is kept).
    - Every call to an external client (Redis, RabbitMQ, Kafka, MongoDB,
      the console logger, timers) is appended to the world's trace, so
      that "the code never touched the queue" is a statement about the
      trace.
    - Whether an external call fails is decided by the environment part
      of the world, not by the code.
    - Strings are sequences of code units below 256; instants are
      milliseconds since the epoch, as [Date.now()] returns them. *)

From Stdlib Require Import ZArith String Ascii List Lia Bool DecimalString.
From stdpp Require Import base strings gmap list.

Local Open Scope string_scope.
Local Open Scope list_scope.
Local Open Scope Z_scope.

(** ** Computations with state and exceptions *)

(** How a call ends: it returns [a], it throws an [Error] whose message
    is [reason], or, for the one recursive function of the code, the
    model ran out of fuel before the call ended. *)
Inductive Completion (A : Type) : Type :=
| Normal (a : A)
| Thrown (reason : string)
| Starved.
Arguments Normal {A} a.
Arguments Thrown {A} reason.
Arguments Starved {A}.

Definition M (W A : Type) : Type := W -> Completion A * W.

Definition ret {W A} (a : A) : M W A := fun w => (Normal a, w).

Definition bind {W A B} (c : M W A) (k : A -> M W B) : M W B :=
  fun w =>
    match c w with
    | (Normal a, w') => k a w'
    | (Thrown e, w') => (Thrown e, w')
    | (Starved, w') => (Starved, w')
    end.

(** [throw new Error(reason)] *)
Definition throw {W A} (reason : string) : M W A := fun w => (Thrown reason, w).

(** [try { body } catch (error) { handler(error.message) }]; the world
    changes made by [body] before it threw are kept. *)
Definition try_catch {W A} (body : M W A) (handler : string -> M W A) : M W A :=
  fun w =>
    match body w with
    | (Thrown e, w') => handler e w'
    | other => other
    end.

Definition gets {W A} (f : W -> A) : M W A := fun w => (Normal (f w), w).
Definition modify {W} (f : W -> W) : M W unit := fun w => (Normal tt, f w).

Notation "'let!' x ':=' c 'in' k" := (bind c (fun x => k))
  (at level 10, x pattern, c at level 100, k at level 200).
Notation "'do!' c 'in' k" := (bind c (fun _ => k))
  (at level 10, c at level 100, k at level 200).

(** ** JavaScript values *)

(** [`${n}`] for an integer. *)
Definition str_of_Z (z : Z) : string := NilZero.string_of_int (Z.to_int z).

(** Truthiness of a string that may be [undefined] or [null]. *)
Definition truthy (s : option string) : bool :=
  match s with
  | Some v => negb (String.eqb v "")
  | None => false
  end.

(** ** Regular expressions

    The two literals of resolvers.js are anchored at both ends, so
    [regex.test(s)] is membership of the whole string in the language of
    the expression; it is decided by derivatives. *)

Inductive regex : Type :=
| Void
| Eps
| Class (p : ascii -> bool)
| Seq (r1 r2 : regex)
| Alt (r1 r2 : regex)
| Star (r : regex).

Fixpoint nullable (r : regex) : bool :=
  match r with
  | Void => false
  | Eps => true
  | Class _ => false
  | Seq r1 r2 => nullable r1 && nullable r2
  | Alt r1 r2 => nullable r1 || nullable r2
  | Star _ => true
  end.

Fixpoint deriv (c : ascii) (r : regex) : regex :=
  match r with
  | Void => Void
  | Eps => Void
  | Class p => if p c then Eps else Void
  | Seq r1 r2 =>
      if nullable r1 then Alt (Seq (deriv c r1) r2) (deriv c r2)
      else Seq (deriv c r1) r2
  | Alt r1 r2 => Alt (deriv c r1) (deriv c r2)
  | Star r1 => Seq (deriv c r1) (Star r1)
  end.

Fixpoint test (r : regex) (s : string) : bool :=
  match s with
  | EmptyString => nullable r
  | String c s' => test (deriv c r) s'
  end.

Definition code (c : ascii) : Z := Z.of_nat (nat_of_ascii c).

(** [x+], [x?] and [x{lo,lo+extra}] *)
Definition Plus (r : regex) : regex := Seq r (Star r).
Definition Opt (r : regex) : regex := Alt Eps r.
Fixpoint AtMost (n : nat) (r : regex) : regex :=
  match n with
  | O => Eps
  | S n' => Opt (Seq r (AtMost n' r))
  end.
Fixpoint Repeat (lo extra : nat) (r : regex) : regex :=
  match lo with
  | O => AtMost extra r
  | S lo' => Seq r (Repeat lo' extra r)
  end.

Definition Chr (c : ascii) : regex := Class (Ascii.eqb c).

(** [\s] on code units below 256: TAB, LF, VT, FF, CR, SPACE, NBSP. *)
Definition is_space (c : ascii) : bool :=
  let n := code c in ((9 <=? n) && (n <=? 13)) || (n =? 32) || (n =? 160).

(** [\d] *)
Definition is_digit (c : ascii) : bool :=
  let n := code c in (48 <=? n) && (n <=? 57).

(** [[^\s@]] *)
Definition not_space_at (c : ascii) : bool :=
  negb (is_space c || Ascii.eqb c "@").

(** [[1-9]] *)
Definition is_digit_1_9 (c : ascii) : bool :=
  let n := code c in (49 <=? n) && (n <=? 57).

(** [/^[^\s@]+@[^\s@]+\.[^\s@]+$/] *)
Definition emailRegex : regex :=
  Seq (Plus (Class not_space_at))
    (Seq (Chr "@")
       (Seq (Plus (Class not_space_at))
          (Seq (Chr ".") (Plus (Class not_space_at))))).

(** [/^\+?[1-9]\d{1,14}$/] *)
Definition phoneRegex : regex :=
  Seq (Opt (Chr "+")) (Seq (Class is_digit_1_9) (Repeat 1 13 (Class is_digit))).

Definition isValidEmail (email : string) : bool := test emailRegex email.
Definition isValidPhone (phone : string) : bool := test phoneRegex phone.

Arguments isValidEmail : simpl never.
Arguments isValidPhone : simpl never.
Arguments str_of_Z : simpl never.

(** ** The language of a regular expression

    The strings that an expression denotes, against which the matcher
    [test] is checked. *)

Inductive matches : regex -> string -> Prop :=
| matches_eps : matches Eps ""
| matches_class (p : ascii -> bool) (c : ascii) :
    p c = true -> matches (Class p) (String c "")
| matches_seq (r1 r2 : regex) (s1 s2 : string) :
    matches r1 s1 -> matches r2 s2 -> matches (Seq r1 r2) (s1 +:+ s2)
| matches_alt_l (r1 r2 : regex) (s : string) :
    matches r1 s -> matches (Alt r1 r2) s
| matches_alt_r (r1 r2 : regex) (s : string) :
    matches r2 s -> matches (Alt r1 r2) s
| matches_star_nil (r : regex) : matches (Star r) ""
| matches_star_more (r : regex) (s1 s2 : string) :
    matches r s1 -> matches (Star r) s2 -> matches (Star r) (s1 +:+ s2).

(** Every code unit of [s] is in the class [p]. *)
Fixpoint all_of (p : ascii -> bool) (s : string) : bool :=
  match s with
  | EmptyString => true
  | String c s' => p c && all_of p s'
  end.

(** ** Data shared by the two services *)

Inductive Level : Type := info | warn | error.

(** The GraphQL enum [Channel]. *)
Inductive Channel : Type := email | sms | whatsapp.

Definition channel_name (c : Channel) : string :=
  match c with
  | email => "email"
  | sms => "sms"
  | whatsapp => "whatsapp"
  end.

(** The [enum] of the [status] path of [messageSchema]. *)
Inductive Status : Type := queued | processing | delivered | failed.

Definition is_terminal (s : Status) : bool :=
  match s with
  | delivered | failed => true
  | queued | processing => false
  end.

(** The queue table, identical in router.js and consumer.js; other keys
    are [undefined]. *)
Definition QUEUES (key : string) : option string :=
  if String.eqb key "email" then Some "email_queue"
  else if String.eqb key "sms" then Some "sms_queue"
  else if String.eqb key "whatsapp" then Some "whatsapp_queue"
  else if String.eqb key "dlq" then Some "dead_letter_queue"
  else None.

(** The message envelope that travels through the queue.  A field that
    the code reads with a destructuring default is optional. *)
Record Message : Type := {
  msg_messageId : string;
  msg_traceId : string;
  msg_subtraceId : option string;
  msg_channel : Channel;
  msg_recipient : string;
  msg_subject : option string;
  msg_body : string;
  msg_metadata : option string;
  msg_retryCount : option Z;
  msg_maxRetries : option Z;
  msg_status : Status;
  msg_timestamp : Z
}.

(** The object handed to [sendLog], published on topic
    [communication-logs] with key [traceId]. *)
Record LogData : Type := {
  log_service : string;
  log_level : Level;
  log_message : string;
  log_traceId : option string;
  log_subtraceId : option string;
  log_messageId : option string;
  log_channel : string;
  log_queueName : option string;
  log_retryCount : option Z;
  log_error : option string;
  log_duration : option Z;
  log_timestamp : Z
}.

(** ** The task-router service (resolvers.js, router.js) *)

Module Router.

(** The GraphQL input [MessageInput]: [channel], [recipient] and [body]
    are non-null, [subject] and [metadata] may be absent. *)
Record MessageInput : Type := {
  in_channel : Channel;
  in_recipient : string;
  in_subject : option string;
  in_body : string;
  in_metadata : option string
}.

(** The GraphQL type [MessageResponse]. *)
Record MessageResponse : Type := {
  resp_success : bool;
  resp_messageId : option string;
  resp_traceId : string;
  resp_message : string
}.

(** What [rabbitChannel.sendToQueue] does: it returns [true], returns
    [false], or throws. *)
Inductive SendOutcome : Type :=
| SendTrue
| SendFalse
| SendThrows (reason : string).

(** The environment's decisions for one request: for each client call,
    [None] lets it succeed and [Some reason] makes it throw. *)
Record Faults : Type := {
  redis_get_fault : option string;
  redis_setEx_fault : option string;
  sendToQueue_outcome : SendOutcome;
  kafka_fault : option string
}.

Record Headers : Type := {
  x_retry_count : Z;
  x_trace_id : string;
  x_subtrace_id : string
}.

Inductive Event : Type :=
| Console (l : Level) (text : string)
| RedisGet (key : string)
| RedisSetEx (key : string) (seconds : Z) (value : string)
| SendToQueue (queue : string) (m : Message) (persistent : bool) (h : Headers)
| KafkaSend (topic : string) (key : option string) (value : LogData).

(** The cache maps a key to its value and the instant at which the key
    expires. *)
Record World : Type := {
  cache : gmap string (string * Z);
  clock : Z;
  uuids : nat -> string;
  uuid_next : nat;
  faults : Faults;
  trace : list Event
}.

Definition emit (e : Event) : M World unit :=
  modify (fun w =>
    {| cache := cache w; clock := clock w; uuids := uuids w;
       uuid_next := uuid_next w; faults := faults w;
       trace := trace w ++ [e] |}).

Definition set_cache (c : gmap string (string * Z)) : M World unit :=
  modify (fun w =>
    {| cache := c; clock := clock w; uuids := uuids w;
       uuid_next := uuid_next w; faults := faults w; trace := trace w |}).

(** [Date.now()] *)
Definition Date_now : M World Z := gets clock.

(** [uuidv4()] *)
Definition uuidv4 : M World string :=
  let! n := gets uuid_next in
  let! u := gets (fun w => uuids w n) in
  do! modify (fun w =>
    {| cache := cache w; clock := clock w; uuids := uuids w;
       uuid_next := S n; faults := faults w; trace := trace w |}) in
  ret u.

(** The logger of logger.js prints one line per call. *)
Definition logger (l : Level) (text : string) : M World unit :=
  emit (Console l text).

(** What a [GET] answers at instant [now]: the value of a key that has
    not expired. *)
Definition cache_read (c : gmap string (string * Z)) (now : Z) (key : string)
  : option string :=
  match c !! key with
  | Some (v, expiry) => if now <? expiry then Some v else None
  | None => None
  end.

(** [redisClient.get(key)] *)
Definition redis_get (key : string) : M World (option string) :=
  do! emit (RedisGet key) in
  let! f := gets (fun w => redis_get_fault (faults w)) in
  match f with
  | Some reason => throw reason
  | None =>
      let! c := gets cache in
      let! now := Date_now in
      ret (cache_read c now key)
  end.

(** [redisClient.setEx(key, seconds, value)] *)
Definition redis_setEx (key : string) (seconds : Z) (value : string)
  : M World unit :=
  do! emit (RedisSetEx key seconds value) in
  let! f := gets (fun w => redis_setEx_fault (faults w)) in
  match f with
  | Some reason => throw reason
  | None =>
      let! c := gets cache in
      let! now := Date_now in
      set_cache (<[key := (value, now + seconds * 1000)]> c)
  end.

(** [rabbitChannel.sendToQueue(queue, Buffer.from(JSON.stringify(m)),
    { persistent, headers })] *)
Definition sendToQueue (queue : string) (m : Message) (persistent : bool)
  (h : Headers) : M World bool :=
  do! emit (SendToQueue queue m persistent h) in
  let! o := gets (fun w => sendToQueue_outcome (faults w)) in
  match o with
  | SendTrue => ret true
  | SendFalse => ret false
  | SendThrows reason => throw reason
  end.

(** [kafkaProducer.send({ topic, messages: [{ key, value }] })] *)
Definition kafka_send (topic : string) (key : option string) (value : LogData)
  : M World unit :=
  let! f := gets (fun w => kafka_fault (faults w)) in
  match f with
  | Some reason => throw reason
  | None => emit (KafkaSend topic key value)
  end.

(** router.js, [sendLog] *)
Definition sendLog (logData : LogData) : M World unit :=
  try_catch
    (kafka_send "communication-logs" (log_traceId logData) logData)
    (fun _ => logger error "Failed to send log to Kafka").

(** router.js, [routeMessage].  The three assignments to [message]
    happen before it is serialised; the caller does not read the object
    again. *)
Definition routeMessage (message : Message) : M World unit :=
  let channel := channel_name (msg_channel message) in
  let traceId := msg_traceId message in
  let messageId := msg_messageId message in
  let! now := Date_now in
  let subtraceId := "subtrace_" +:+ str_of_Z now in
  try_catch
    ((* Determine target queue *)
     match QUEUES channel with
     | None => throw ("Unknown channel: " +:+ channel)
     | Some queueName =>
         (* Add retry metadata *)
         let message' :=
           {| msg_messageId := msg_messageId message;
              msg_traceId := msg_traceId message;
              msg_subtraceId := Some subtraceId;
              msg_channel := msg_channel message;
              msg_recipient := msg_recipient message;
              msg_subject := msg_subject message;
              msg_body := msg_body message;
              msg_metadata := msg_metadata message;
              msg_retryCount := Some 0;
              msg_maxRetries := Some 3;
              msg_status := msg_status message;
              msg_timestamp := msg_timestamp message |} in
         (* Send to RabbitMQ *)
         let! sent :=
           sendToQueue queueName message' true
             {| x_retry_count := 0; x_trace_id := traceId;
                x_subtrace_id := subtraceId |} in
         if negb sent then throw "Failed to send message to queue"
         else
           (* Log to Kafka *)
           let! stamp := Date_now in
           do! sendLog
             {| log_service := "router"; log_level := info;
                log_message := "Message routed to queue";
                log_traceId := Some traceId;
                log_subtraceId := Some subtraceId;
                log_messageId := Some messageId; log_channel := channel;
                log_queueName := Some queueName; log_retryCount := None;
                log_error := None; log_duration := None;
                log_timestamp := stamp |} in
           logger info "Message sent to queue"
     end)
    (fun reason =>
       (* Log error to Kafka *)
       let! stamp := Date_now in
       do! sendLog
         {| log_service := "router"; log_level := error;
            log_message := "Failed to route message";
            log_traceId := Some traceId; log_subtraceId := Some subtraceId;
            log_messageId := Some messageId; log_channel := channel;
            log_queueName := None; log_retryCount := None;
            log_error := Some reason; log_duration := None;
            log_timestamp := stamp |} in
       throw reason).

(** The four input checks at the head of [sendMessage], in order; the
    result is the message of the [Error] thrown by the first that
    fails. *)
Definition validation_error (input : MessageInput) : option string :=
  if String.eqb (in_recipient input) "" || String.eqb (in_body input) ""
  then Some "Recipient and body are required"
  else if match in_channel input with email => true | _ => false end
          && negb (truthy (in_subject input))
  then Some "Subject is required for email messages"
  else if match in_channel input with email => true | _ => false end
          && negb (isValidEmail (in_recipient input))
  then Some "Invalid email address"
  else if match in_channel input with sms | whatsapp => true | _ => false end
          && negb (isValidPhone (in_recipient input))
  then Some "Invalid phone number format"
  else None.

(** The inputs that the field validation is meant to stop: an empty
    recipient or body, an email without subject, a recipient that is not
    an email address on the email channel, or not a phone number on the
    sms and whatsapp channels. *)
Definition violates (input : MessageInput) : Prop :=
  in_recipient input = "" \/
  in_body input = "" \/
  (in_channel input = email /\ truthy (in_subject input) = false) \/
  (in_channel input = email /\ isValidEmail (in_recipient input) = false) \/
  ((in_channel input = sms \/ in_channel input = whatsapp) /\
   isValidPhone (in_recipient input) = false).

(** The reasons that the validation can give. *)
Definition validation_reasons : list string :=
  [ "Recipient and body are required";
    "Subject is required for email messages";
    "Invalid email address";
    "Invalid phone number format" ].

(** One day, the lifetime of a reservation, in milliseconds. *)
Definition day_ms : Z := 86400 * 1000.

(** The same world at a later (or earlier) instant. *)
Definition at_time (t : Z) (w : World) : World :=
  {| cache := cache w; clock := t; uuids := uuids w;
     uuid_next := uuid_next w; faults := faults w; trace := trace w |}.

(** The same world with other decisions of the environment. *)
Definition with_faults (f : Faults) (w : World) : World :=
  {| cache := cache w; clock := clock w; uuids := uuids w;
     uuid_next := uuid_next w; faults := f; trace := trace w |}.

(** The same world after further client calls. *)
Definition logged (evs : list Event) (w : World) : World :=
  {| cache := cache w; clock := clock w; uuids := uuids w;
     uuid_next := uuid_next w; faults := faults w;
     trace := trace w ++ evs |}.

(** What [sendLog] leaves in the trace. *)
Definition sendLog_events (w : World) (logData : LogData) : list Event :=
  match kafka_fault (faults w) with
  | Some _ => [Console error "Failed to send log to Kafka"]
  | None => [KafkaSend "communication-logs" (log_traceId logData) logData]
  end.

(** The same world after one more call of [uuidv4]. *)
Definition took_uuid (w : World) : World :=
  {| cache := cache w; clock := clock w; uuids := uuids w;
     uuid_next := S (uuid_next w); faults := faults w; trace := trace w |}.

(** The completion of [routeMessage], which depends on the broker
    alone. *)
Definition routing_completion (o : SendOutcome) : Completion unit :=
  match o with
  | SendTrue => Normal tt
  | SendFalse => Thrown "Failed to send message to queue"
  | SendThrows reason => Thrown reason
  end.

Definition touches_queue (e : Event) : bool :=
  match e with
  | SendToQueue _ _ _ _ => true
  | _ => false
  end.

Definition touches_cache (e : Event) : bool :=
  match e with
  | RedisGet _ | RedisSetEx _ _ _ => true
  | _ => false
  end.

Section WithHash.

(** [createHash("sha256").update(s).digest("hex")] of Node's crypto
    module; the embedding holds for whatever function it computes. *)
Variable sha256_hex : string -> string.

(** The string that [checkDuplicate] hashes. *)
Definition dedup_material (input : MessageInput) : string :=
  channel_name (in_channel input) +:+ ":" +:+ in_recipient input +:+ ":"
  +:+ in_body input.

Definition messageHash (input : MessageInput) : string :=
  sha256_hex (dedup_material input).

Definition dedup_key (input : MessageInput) : string :=
  "dedup:" +:+ messageHash input.

(** router.js, [checkDuplicate] *)
Definition checkDuplicate (input : MessageInput) : M World bool :=
  try_catch
    (let! exists_ := redis_get (dedup_key input) in
     if truthy exists_ then ret true
     else
       (* Store hash with 24-hour expiry *)
       do! redis_setEx (dedup_key input) 86400 "1" in
       ret false)
    (fun _ =>
       do! logger error "Error checking duplicate" in
       (* On error, allow message through (fail open) *)
       ret false).

(** resolvers.js, [Mutation.sendMessage] *)
Definition sendMessage (input : MessageInput) : M World MessageResponse :=
  let! u := uuidv4 in
  let traceId := "trace_" +:+ u in
  let! startTime := Date_now in
  do! logger info "Received message request" in
  try_catch
    ((* Validate input, recipient format *)
     do! match validation_error input with
         | Some reason => throw reason
         | None => ret tt
         end in
     (* Check for duplicates *)
     let! isDuplicate := checkDuplicate input in
     if isDuplicate then
       do! logger warn "Duplicate message detected" in
       ret {| resp_success := false; resp_messageId := None;
              resp_traceId := traceId;
              resp_message := "Duplicate message detected" |}
     else
       (* Route message *)
       let! u' := uuidv4 in
       let messageId := "msg_" +:+ u' in
       let! stamp := Date_now in
       let message :=
         {| msg_messageId := messageId; msg_traceId := traceId;
            msg_subtraceId := None;
            msg_channel := in_channel input;
            msg_recipient := in_recipient input;
            msg_subject := in_subject input;
            msg_body := in_body input;
            msg_metadata := in_metadata input;
            msg_retryCount := None; msg_maxRetries := None;
            msg_status := queued; msg_timestamp := stamp |} in
       do! routeMessage message in
       do! logger info "Message routed successfully" in
       ret {| resp_success := true; resp_messageId := Some messageId;
              resp_traceId := traceId;
              resp_message := "Message queued successfully" |})
    (fun reason =>
       do! logger error "Error processing message" in
       ret {| resp_success := false; resp_messageId := None;
              resp_traceId := traceId;
              resp_message := "Error: " +:+ reason |}).

(** The cache answers the duplicate check of [input] with a truthy
    value: its fingerprint is reserved and the reservation has not
    expired. *)
Definition reserved (input : MessageInput) (w : World) : Prop :=
  truthy (cache_read (cache w) (clock w) (dedup_key input)) = true.

(** Some cache call made by [checkDuplicate input] in [w] throws: the
    read, or the write that follows a read that found nothing. *)
Definition cache_errs (input : MessageInput) (w : World) : Prop :=
  is_Some (redis_get_fault (faults w)) \/
  (truthy (cache_read (cache w) (clock w) (dedup_key input)) = false /\
   is_Some (redis_setEx_fault (faults w))).

End WithHash.

(** *** Scenarios *)

(** A stand-in for the digest in the runs on concrete inputs; the
    properties below hold for every function. *)
Definition plain_digest (s : string) : string := s.

Definition all_well : Faults :=
  {| redis_get_fault := None; redis_setEx_fault := None;
     sendToQueue_outcome := SendTrue; kafka_fault := None |}.

Definition redis_down : Faults :=
  {| redis_get_fault := Some "ECONNREFUSED";
     redis_setEx_fault := Some "ECONNREFUSED";
     sendToQueue_outcome := SendTrue; kafka_fault := None |}.

Definition broker_down : Faults :=
  {| redis_get_fault := None; redis_setEx_fault := None;
     sendToQueue_outcome := SendThrows "Channel closed"; kafka_fault := None |}.

(** A router that has seen nothing yet, at instant 1000. *)
Definition fresh_world (f : Faults) : World :=
  {| cache := ∅; clock := 1000;
     uuids := fun n => "uuid" +:+ str_of_Z (Z.of_nat n);
     uuid_next := 0; faults := f; trace := [] |}.

Definition hello_email : MessageInput :=
  {| in_channel := email; in_recipient := "a@b.com";
     in_subject := Some "Hi"; in_body := "x"; in_metadata := None |}.

(** [hello_email] without its subject: same channel, recipient and
    body. *)
Definition hello_no_subject : MessageInput :=
  {| in_channel := email; in_recipient := "a@b.com";
     in_subject := None; in_body := "x"; in_metadata := None |}.

Definition sms_not_a_phone : MessageInput :=
  {| in_channel := sms; in_recipient := "not-a-phone";
     in_subject := None; in_body := "x"; in_metadata := None |}.

Definition colon_in_recipient (c : Channel) : MessageInput :=
  {| in_channel := c; in_recipient := "a:b";
     in_subject := Some "s"; in_body := "c"; in_metadata := None |}.

Definition colon_in_body (c : Channel) : MessageInput :=
  {| in_channel := c; in_recipient := "a";
     in_subject := Some "s"; in_body := "b:c"; in_metadata := None |}.

(** Two well-formed emails with the same hashed string. *)
Definition email_colon_in_recipient : MessageInput :=
  {| in_channel := email; in_recipient := "a@b.c:x";
     in_subject := Some "s"; in_body := "y"; in_metadata := None |}.

Definition email_colon_in_body : MessageInput :=
  {| in_channel := email; in_recipient := "a@b.c";
     in_subject := Some "s"; in_body := "x:y"; in_metadata := None |}.

End Router.

(** ** Further vocabulary of the router *)

Module RouterSpec.
Import Router.

(** The message that [sendMessage] builds, before [routeMessage] adds
    the retry metadata. *)
Definition drafted (input : MessageInput) (traceId messageId : string)
  (now : Z) : Message :=
  {| msg_messageId := messageId; msg_traceId := traceId;
     msg_subtraceId := None;
     msg_channel := in_channel input;
     msg_recipient := in_recipient input;
     msg_subject := in_subject input;
     msg_body := in_body input;
     msg_metadata := in_metadata input;
     msg_retryCount := None; msg_maxRetries := None;
     msg_status := queued; msg_timestamp := now |}.

(** The message as [routeMessage] serialises it. *)
Definition stamped (subtraceId : string) (message : Message) : Message :=
  {| msg_messageId := msg_messageId message;
     msg_traceId := msg_traceId message;
     msg_subtraceId := Some subtraceId;
     msg_channel := msg_channel message;
     msg_recipient := msg_recipient message;
     msg_subject := msg_subject message;
     msg_body := msg_body message;
     msg_metadata := msg_metadata message;
     msg_retryCount := Some 0;
     msg_maxRetries := Some 3;
     msg_status := msg_status message;
     msg_timestamp := msg_timestamp message |}.

(** The one call of [sendToQueue] that routing [message] at instant
    [now] makes. *)
Definition submission (message : Message) (now : Z) : Event :=
  let subtraceId := "subtrace_" +:+ str_of_Z now in
  SendToQueue (channel_name (msg_channel message) +:+ "_queue")
    (stamped subtraceId message) true
    {| x_retry_count := 0; x_trace_id := msg_traceId message;
       x_subtrace_id := subtraceId |}.

Definition is_kafka (e : Event) : bool :=
  match e with
  | KafkaSend _ _ _ => true
  | _ => false
  end.

(** A record on the log topic is keyed by the trace id that it
    carries, [traceId]. *)
Definition keyed_by (traceId : string) (e : Event) : Prop :=
  match e with
  | KafkaSend topic key value =>
      topic = "communication-logs" /\ key = Some traceId /\
      log_traceId value = Some traceId /\ log_service value = "router"
  | _ => True
  end.

(** The same decisions of the environment, except for Kafka. *)
Definition with_kafka (k : option string) (f : Faults) : Faults :=
  {| redis_get_fault := redis_get_fault f;
     redis_setEx_fault := redis_setEx_fault f;
     sendToQueue_outcome := sendToQueue_outcome f;
     kafka_fault := k |}.

Section WithHash.
Variable sha256_hex : string -> string.

(** What the duplicate check answers in [w]. *)
Definition is_duplicate (input : MessageInput) (w : World) : bool :=
  match redis_get_fault (faults w) with
  | Some _ => false
  | None => truthy (cache_read (cache w) (clock w) (dedup_key sha256_hex input))
  end.

(** Whether the duplicate check writes a reservation in [w]. *)
Definition reserves (input : MessageInput) (w : World) : bool :=
  match redis_get_fault (faults w), redis_setEx_fault (faults w) with
  | None, None =>
      negb (truthy (cache_read (cache w) (clock w) (dedup_key sha256_hex input)))
  | _, _ => false
  end.

(** The answer of [sendMessage] as a table: the validation first, then
    the duplicate check, then the broker. *)
Definition answer (input : MessageInput) (w : World) : MessageResponse :=
  let traceId := "trace_" +:+ uuids w (uuid_next w) in
  let refusal (text : string) :=
    {| resp_success := false; resp_messageId := None;
       resp_traceId := traceId; resp_message := text |} in
  match validation_error input with
  | Some reason => refusal ("Error: " +:+ reason)
  | None =>
      if is_duplicate input w then refusal "Duplicate message detected"
      else
        match sendToQueue_outcome (faults w) with
        | SendTrue =>
            {| resp_success := true;
               resp_messageId := Some ("msg_" +:+ uuids w (S (uuid_next w)));
               resp_traceId := traceId;
               resp_message := "Message queued successfully" |}
        | SendFalse => refusal "Error: Failed to send message to queue"
        | SendThrows reason => refusal ("Error: " +:+ reason)
        end
  end.

(** The cache that [sendMessage] leaves. *)
Definition cache_after (input : MessageInput) (w : World)
  : gmap string (string * Z) :=
  match validation_error input with
  | Some _ => cache w
  | None =>
      if reserves input w
      then <[dedup_key sha256_hex input := ("1", clock w + day_ms)]> (cache w)
      else cache w
  end.

(** The calls of [sendToQueue] that [sendMessage] makes. *)
Definition submissions (input : MessageInput) (w : World) : list Event :=
  match validation_error input with
  | Some _ => []
  | None =>
      if is_duplicate input w then []
      else [submission
              (drafted input ("trace_" +:+ uuids w (uuid_next w))
                 ("msg_" +:+ uuids w (S (uuid_next w))) (clock w))
              (clock w)]
  end.

End WithHash.

End RouterSpec.

(** ** The delivery service (consumer.js, deliveryHandlers.js) *)

Module Delivery.

(** A document of the [Message] collection ([messageSchema]). *)
Record Doc : Type := {
  doc_messageId : string;
  doc_traceId : string;
  doc_channel : Channel;
  doc_recipient : string;
  doc_subject : option string;
  doc_body : string;
  doc_metadata : option string;
  doc_status : Status;
  doc_deliveredAt : option Z;
  doc_failedAt : option Z;
  doc_errorMessage : option string;
  doc_retryCount : Z;
  doc_createdAt : Z;
  doc_updatedAt : Z
}.

(** The second argument of [Message.findOneAndUpdate]: an object without
    update operators, which Mongoose applies as a [$set] of the keys
    whose value is not [undefined] ([None] below). *)
Record Update : Type := {
  up_messageId : string;
  up_traceId : string;
  up_channel : Channel;
  up_recipient : string;
  up_subject : option string;
  up_body : string;
  up_metadata : option string;
  up_status : Status;
  up_deliveredAt : option Z;
  up_failedAt : option Z;
  up_errorMessage : option string;
  up_retryCount : option Z;
  up_updatedAt : Z
}.

Definition or_keep {A} (new old : option A) : option A :=
  match new with
  | Some v => Some v
  | None => old
  end.

(** [$set] on a document that matched the filter. *)
Definition apply_set (u : Update) (d : Doc) : Doc :=
  {| doc_messageId := up_messageId u;
     doc_traceId := up_traceId u;
     doc_channel := up_channel u;
     doc_recipient := up_recipient u;
     doc_subject := or_keep (up_subject u) (doc_subject d);
     doc_body := up_body u;
     doc_metadata := or_keep (up_metadata u) (doc_metadata d);
     doc_status := up_status u;
     doc_deliveredAt := or_keep (up_deliveredAt u) (doc_deliveredAt d);
     doc_failedAt := or_keep (up_failedAt u) (doc_failedAt d);
     doc_errorMessage := or_keep (up_errorMessage u) (doc_errorMessage d);
     doc_retryCount := default (doc_retryCount d) (up_retryCount u);
     doc_createdAt := doc_createdAt d;
     doc_updatedAt := up_updatedAt u |}.

(** The document inserted when nothing matched: the update's keys and
    the schema defaults ([retryCount: 0], [createdAt: Date.now]) of the
    paths it leaves out. *)
Definition insert_doc (u : Update) (now : Z) : Doc :=
  {| doc_messageId := up_messageId u;
     doc_traceId := up_traceId u;
     doc_channel := up_channel u;
     doc_recipient := up_recipient u;
     doc_subject := up_subject u;
     doc_body := up_body u;
     doc_metadata := up_metadata u;
     doc_status := up_status u;
     doc_deliveredAt := up_deliveredAt u;
     doc_failedAt := up_failedAt u;
     doc_errorMessage := up_errorMessage u;
     doc_retryCount := default 0 (up_retryCount u);
     doc_createdAt := now;
     doc_updatedAt := up_updatedAt u |}.

(** [{ upsert: true }] with filter [{ messageId }]: the first document
    with that id is updated in place; without one, a document is
    added. *)
Fixpoint upsert (messageId : string) (u : Update) (now : Z) (docs : list Doc)
  : list Doc :=
  match docs with
  | [] => [insert_doc u now]
  | d :: rest =>
      if String.eqb (doc_messageId d) messageId then apply_set u d :: rest
      else d :: upsert messageId u now rest
  end.

(** [Message.findOne({ messageId })] *)
Definition findOne (messageId : string) (docs : list Doc) : option Doc :=
  List.find (fun d => String.eqb (doc_messageId d) messageId) docs.

(** The number of documents with a given id. *)
Definition count_id (messageId : string) (docs : list Doc) : nat :=
  length (List.filter (fun d => String.eqb (doc_messageId d) messageId) docs).

(** [msg.content]: bytes that [JSON.parse] rejects, or the serialised
    envelope. *)
Inductive Payload : Type :=
| Garbled (raw : string)
| Json (m : Message).

(** A message as amqplib hands it to the consumer callback. *)
Record AmqpMessage : Type := {
  content : Payload
}.

(** What a delivery handler resolves to: [{ success: true, messageId,
    deliveredAt }] or [{ success: false, error }]. *)
Record Result : Type := {
  res_success : bool;
  res_error : option string
}.

(** The environment's decisions for one invocation of a delivery
    handler: whether [Math.random() < failureRate], and for each of the
    two [findOneAndUpdate] calls whether it throws. *)
Record Attempt : Type := {
  random_below_failureRate : bool;
  delivered_upsert_fault : option string;
  failed_upsert_fault : option string
}.

Inductive Event : Type :=
| Console (l : Level) (text : string)
| KafkaSend (topic : string) (key : option string) (value : LogData)
| Timeout (ms : Z)
| Upserted (messageId : string) (s : Status)
| Ack (m : AmqpMessage)
| Nack (m : AmqpMessage) (allUpTo requeue : bool).

(** [inflight] is the object that the variable [message] of
    [processMessage] refers to ([None] while it is [undefined]);
    [deliverWithRetry] writes to it and [handleDeliveryError] reads it.
    [origin_queue], [unacked] and [dead_letter_queue] are the broker's
    side of one channel queue consumed with prefetch 1. *)
Record World : Type := {
  store : list Doc;
  clock : Z;
  attempts : nat;
  oracle : nat -> Attempt;
  kafka_fault : option string;
  inflight : option Message;
  origin_queue : list AmqpMessage;
  unacked : option AmqpMessage;
  dead_letter_queue : list AmqpMessage;
  trace : list Event
}.

Definition with_store (f : list Doc -> list Doc) (w : World) : World :=
  {| store := f (store w); clock := clock w; attempts := attempts w;
     oracle := oracle w; kafka_fault := kafka_fault w;
     inflight := inflight w; origin_queue := origin_queue w;
     unacked := unacked w; dead_letter_queue := dead_letter_queue w;
     trace := trace w |}.

Definition with_clock (f : Z -> Z) (w : World) : World :=
  {| store := store w; clock := f (clock w); attempts := attempts w;
     oracle := oracle w; kafka_fault := kafka_fault w;
     inflight := inflight w; origin_queue := origin_queue w;
     unacked := unacked w; dead_letter_queue := dead_letter_queue w;
     trace := trace w |}.

Definition with_attempts (f : nat -> nat) (w : World) : World :=
  {| store := store w; clock := clock w; attempts := f (attempts w);
     oracle := oracle w; kafka_fault := kafka_fault w;
     inflight := inflight w; origin_queue := origin_queue w;
     unacked := unacked w; dead_letter_queue := dead_letter_queue w;
     trace := trace w |}.

Definition with_inflight (m : option Message) (w : World) : World :=
  {| store := store w; clock := clock w; attempts := attempts w;
     oracle := oracle w; kafka_fault := kafka_fault w;
     inflight := m; origin_queue := origin_queue w;
     unacked := unacked w; dead_letter_queue := dead_letter_queue w;
     trace := trace w |}.

Definition with_broker (q : list AmqpMessage) (u : option AmqpMessage)
  (d : list AmqpMessage) (w : World) : World :=
  {| store := store w; clock := clock w; attempts := attempts w;
     oracle := oracle w; kafka_fault := kafka_fault w;
     inflight := inflight w; origin_queue := q;
     unacked := u; dead_letter_queue := d;
     trace := trace w |}.

Definition with_trace (f : list Event -> list Event) (w : World) : World :=
  {| store := store w; clock := clock w; attempts := attempts w;
     oracle := oracle w; kafka_fault := kafka_fault w;
     inflight := inflight w; origin_queue := origin_queue w;
     unacked := unacked w; dead_letter_queue := dead_letter_queue w;
     trace := f (trace w) |}.

Definition emit (e : Event) : M World unit :=
  modify (with_trace (fun t => t ++ [e])).

(** [Date.now()], [new Date()] *)
Definition Date_now : M World Z := gets clock.

(** [await new Promise((resolve) => setTimeout(resolve, ms))] *)
Definition sleep (ms : Z) : M World unit :=
  do! emit (Timeout ms) in
  modify (with_clock (fun t => t + ms)).

Definition logger (l : Level) (text : string) : M World unit :=
  emit (Console l text).

(** [kafkaProducer.send] *)
Definition kafka_send (topic : string) (key : option string) (value : LogData)
  : M World unit :=
  let! f := gets kafka_fault in
  match f with
  | Some reason => throw reason
  | None => emit (KafkaSend topic key value)
  end.

(** consumer.js, [sendLog] *)
Definition sendLog (logData : LogData) : M World unit :=
  try_catch
    (kafka_send "communication-logs" (log_traceId logData) logData)
    (fun _ => logger error "Failed to send log to Kafka").

(** [Message.findOneAndUpdate({ messageId }, u, { upsert: true, new:
    true })]; [fault] is the environment's decision for this call. *)
Definition findOneAndUpdate (fault : option string) (messageId : string)
  (u : Update) : M World unit :=
  match fault with
  | Some reason => throw reason
  | None =>
      let! now := Date_now in
      do! modify (with_store (upsert messageId u now)) in
      emit (Upserted messageId (up_status u))
  end.

(** [channel.ack(msg)]: the broker drops the message. *)
Definition channel_ack (msg : AmqpMessage) : M World unit :=
  do! emit (Ack msg) in
  modify (fun w => with_broker (origin_queue w) None (dead_letter_queue w) w).

(** [channel.nack(msg, allUpTo, requeue)]: with [requeue] the broker
    puts the message back on the queue it came from; without, the
    queue's [x-dead-letter-routing-key] sends it to
    [dead_letter_queue]. *)
Definition channel_nack (msg : AmqpMessage) (allUpTo requeue : bool)
  : M World unit :=
  do! emit (Nack msg allUpTo requeue) in
  modify (fun w =>
    if requeue then with_broker (msg :: origin_queue w) None (dead_letter_queue w) w
    else with_broker (origin_queue w) None (dead_letter_queue w ++ [msg]) w).

(** [JSON.parse(msg.content.toString())] *)
Definition JSON_parse (p : Payload) : M World Message :=
  match p with
  | Garbled _ => throw "Unexpected token in JSON"
  | Json m => ret m
  end.

(** deliveryHandlers.js, [simulateDelivery]; [fails] is the outcome of
    [Math.random() < failureRate]. *)
Definition simulateDelivery (channel : string) (delay : Z) (fails : bool)
  : M World unit :=
  do! sleep delay in
  (* Simulate 5% failure rate for testing retry logic *)
  if fails then throw ("Simulated " +:+ channel +:+ " delivery failure")
  else logger info (channel +:+ " delivery simulated successfully").

(** The three handlers of deliveryHandlers.js differ in the channel they
    write, the simulated latency, the log lines, and in whether
    [subject] is part of the update. *)
Record Wording : Type := {
  says_start : string;
  says_done : string;
  says_failed : string
}.

(** The update written after a delivery that succeeded. *)
Definition delivered_update (channel : Channel) (with_subject : bool)
  (message : Message) (now : Z) : Update :=
  {| up_messageId := msg_messageId message;
     up_traceId := msg_traceId message;
     up_channel := channel;
     up_recipient := msg_recipient message;
     up_subject := if with_subject then msg_subject message else None;
     up_body := msg_body message;
     up_metadata := msg_metadata message;
     up_status := delivered;
     up_deliveredAt := Some now;
     up_failedAt := None;
     up_errorMessage := None;
     up_retryCount := None;
     up_updatedAt := now |}.

(** The update written in the handler's [catch] block. *)
Definition failed_update (channel : Channel) (with_subject : bool)
  (message : Message) (reason : string) (now : Z) : Update :=
  {| up_messageId := msg_messageId message;
     up_traceId := msg_traceId message;
     up_channel := channel;
     up_recipient := msg_recipient message;
     up_subject := if with_subject then msg_subject message else None;
     up_body := msg_body message;
     up_metadata := msg_metadata message;
     up_status := failed;
     up_deliveredAt := None;
     up_failedAt := Some now;
     up_errorMessage := Some reason;
     up_retryCount := Some (default 0 (msg_retryCount message));
     up_updatedAt := now |}.

(** The body shared by the three handlers.  The first three lines have
    no counterpart in the source: they count the invocation and look up
    what the environment has decided for it. *)
Definition handle (channel : Channel) (latency : Z) (says : Wording)
  (with_subject : bool) (message : Message) : M World Result :=
  let messageId := msg_messageId message in
  let! n := gets attempts in
  let! env := gets (fun w => oracle w n) in
  do! modify (with_attempts S) in
  try_catch
    (do! logger info (says_start says) in
     do! simulateDelivery (channel_name channel) latency
           (random_below_failureRate env) in
     (* Store in database *)
     let! now := Date_now in
     do! findOneAndUpdate (delivered_upsert_fault env) messageId
           (delivered_update channel with_subject message now) in
     do! logger info (says_done says) in
     ret {| res_success := true; res_error := None |})
    (fun reason =>
       (* Store failure in database *)
       let! now := Date_now in
       do! findOneAndUpdate (failed_upsert_fault env) messageId
             (failed_update channel with_subject message reason now) in
       do! logger error (says_failed says) in
       ret {| res_success := false; res_error := Some reason |}).

Definition handleEmailDelivery : Message -> M World Result :=
  handle email 500
    {| says_start := "Delivering email";
       says_done := "Email delivered successfully";
       says_failed := "Email delivery failed" |} true.

Definition handleSMSDelivery : Message -> M World Result :=
  handle sms 300
    {| says_start := "Delivering SMS";
       says_done := "SMS delivered successfully";
       says_failed := "SMS delivery failed" |} false.

Definition handleWhatsAppDelivery : Message -> M World Result :=
  handle whatsapp 400
    {| says_start := "Delivering WhatsApp message";
       says_done := "WhatsApp message delivered successfully";
       says_failed := "WhatsApp delivery failed" |} false.

(** consumer.js, [HANDLERS]; other keys are [undefined]. *)
Definition HANDLERS (key : string) : option (Message -> M World Result) :=
  if String.eqb key "email" then Some handleEmailDelivery
  else if String.eqb key "sms" then Some handleSMSDelivery
  else if String.eqb key "whatsapp" then Some handleWhatsAppDelivery
  else None.

Definition delays : list Z := [1000; 2000; 4000]. (* Exponential backoff *)

(** [delays[retryCount] || delays[delays.length - 1]] *)
Definition backoff (retryCount : Z) : Z :=
  let last := default 0 (delays !! (length delays - 1)%nat) in
  match (if 0 <=? retryCount then delays !! Z.to_nat retryCount else None) with
  | Some d => if d =? 0 then last else d
  | None => last
  end.

(** [message.retryCount = n] *)
Definition set_retryCount (n : Z) (message : Message) : Message :=
  {| msg_messageId := msg_messageId message;
     msg_traceId := msg_traceId message;
     msg_subtraceId := msg_subtraceId message;
     msg_channel := msg_channel message;
     msg_recipient := msg_recipient message;
     msg_subject := msg_subject message;
     msg_body := msg_body message;
     msg_metadata := msg_metadata message;
     msg_retryCount := Some n;
     msg_maxRetries := msg_maxRetries message;
     msg_status := msg_status message;
     msg_timestamp := msg_timestamp message |}.

(** consumer.js, [deliverWithRetry].  [message] is the current content
    of the object; the assignment to [message.retryCount] is written
    through to [inflight].  The recursion is driven by [fuel]; a call
    that runs out of it is [Starved]. *)
Fixpoint deliverWithRetry_fuel (fuel : nat)
  (handler : Message -> M World Result) (message : Message)
  (retryCount maxRetries : Z) : M World Result :=
  match fuel with
  | O => fun w => (Starved, w)
  | S fuel' =>
      try_catch (handler message)
        (fun reason =>
           if retryCount <? maxRetries then
             let delay := backoff retryCount in
             do! logger warn "Delivery failed, retrying..." in
             do! sleep delay in
             (* Increment retry count *)
             let message' := set_retryCount (retryCount + 1) message in
             do! modify (with_inflight (Some message')) in
             (* Retry *)
             deliverWithRetry_fuel fuel' handler message' (retryCount + 1)
               maxRetries
           else throw reason)
  end.

(** The number of calls that [deliverWithRetry] can make is bounded by
    the distance from [retryCount] to [maxRetries]. *)
Definition deliverWithRetry (handler : Message -> M World Result)
  (message : Message) (retryCount maxRetries : Z) : M World Result :=
  deliverWithRetry_fuel (S (Z.to_nat (maxRetries - retryCount))) handler
    message retryCount maxRetries.

(** consumer.js, [handleDeliveryError]; [message] is [None] when the
    variable is still [undefined]. *)
Definition handleDeliveryError (msg : AmqpMessage) (message : option Message)
  (channelType : string) (reason : string) : M World unit :=
  let messageId := msg_messageId <$> message in
  let traceId := msg_traceId <$> message in
  let retryCount := default 0 (message ≫= msg_retryCount) in
  let maxRetries := default 3 (message ≫= msg_maxRetries) in
  do! logger error "Delivery error" in
  (* Log error *)
  let! stamp := Date_now in
  do! sendLog
    {| log_service := "delivery"; log_level := error;
       log_message := "Message delivery failed";
       log_traceId := traceId; log_subtraceId := None;
       log_messageId := messageId; log_channel := channelType;
       log_queueName := None; log_retryCount := Some retryCount;
       log_error := Some reason; log_duration := None;
       log_timestamp := stamp |} in
  if retryCount >=? maxRetries then
    (* Move to dead letter queue *)
    do! logger error "Max retries exceeded, moving to DLQ" in
    let! stamp' := Date_now in
    do! sendLog
      {| log_service := "delivery"; log_level := error;
         log_message := "Max retries exceeded, moved to DLQ";
         log_traceId := traceId; log_subtraceId := None;
         log_messageId := messageId; log_channel := channelType;
         log_queueName := None; log_retryCount := None;
         log_error := None; log_duration := None;
         log_timestamp := stamp' |} in
    (* Reject and don't requeue (goes to DLQ) *)
    channel_nack msg false false
  else
    (* Requeue for retry *)
    channel_nack msg false true.

(** consumer.js, [processMessage] *)
Definition processMessage (msg : AmqpMessage) (channelType : string)
  : M World unit :=
  let! startTime := Date_now in
  do! modify (with_inflight None) in
  try_catch
    (let! message := JSON_parse (content msg) in
     do! modify (with_inflight (Some message)) in
     let messageId := msg_messageId message in
     let traceId := msg_traceId message in
     let retryCount := default 0 (msg_retryCount message) in
     let maxRetries := default 3 (msg_maxRetries message) in
     let! now := Date_now in
     let subtraceId := "subtrace_" +:+ str_of_Z now in
     do! logger info "Processing message" in
     (* Log start of processing *)
     let! stamp := Date_now in
     do! sendLog
       {| log_service := "delivery"; log_level := info;
          log_message := "Started message delivery";
          log_traceId := Some traceId; log_subtraceId := Some subtraceId;
          log_messageId := Some messageId; log_channel := channelType;
          log_queueName := None; log_retryCount := Some retryCount;
          log_error := None; log_duration := None;
          log_timestamp := stamp |} in
     (* Get appropriate handler *)
     match HANDLERS channelType with
     | None => throw ("No handler found for channel: " +:+ channelType)
     | Some handler =>
         (* Attempt delivery with retry logic *)
         let! result := deliverWithRetry handler message retryCount maxRetries in
         if res_success result then
           (* Acknowledge message *)
           do! channel_ack msg in
           let! finish := Date_now in
           let duration := finish - startTime in
           (* Log success *)
           do! sendLog
             {| log_service := "delivery"; log_level := info;
                log_message := "Message delivered successfully";
                log_traceId := Some traceId;
                log_subtraceId := Some subtraceId;
                log_messageId := Some messageId; log_channel := channelType;
                log_queueName := None; log_retryCount := None;
                log_error := None; log_duration := Some duration;
                log_timestamp := finish |} in
           logger info "Message delivered successfully"
         else
           throw (if truthy (res_error result)
                  then default "" (res_error result)
                  else "Delivery failed")
     end)
    (fun reason =>
       let! message := gets inflight in
       handleDeliveryError msg message channelType reason).

(** The callback registered by [channel.consume(queueName, ..., { noAck:
    false })]: the broker hands over the message at the head of the
    queue, which stays unacknowledged while it is processed. *)
Definition consume (channelType : string) : M World unit :=
  let! q := gets origin_queue in
  match q with
  | [] => ret tt
  | msg :: rest =>
      do! modify (fun w => with_broker rest (Some msg) (dead_letter_queue w) w) in
      processMessage msg channelType
  end.

(** [n] deliveries in a row from the same queue. *)
Fixpoint consume_times (n : nat) (channelType : string) : M World unit :=
  match n with
  | O => ret tt
  | S n' => do! consume channelType in consume_times n' channelType
  end.

(** *** Vocabulary of the properties *)

(** The same world after further client calls. *)
Definition logged (evs : list Event) (w : World) : World :=
  with_trace (fun t => t ++ evs) w.

(** What [sendLog] leaves in the trace. *)
Definition sendLog_events (w : World) (logData : LogData) : list Event :=
  match kafka_fault w with
  | Some _ => [Console error "Failed to send log to Kafka"]
  | None => [KafkaSend "communication-logs" (log_traceId logData) logData]
  end.

Definition is_timeout (e : Event) : bool :=
  match e with
  | Timeout _ => true
  | _ => false
  end.

Definition is_broker_call (e : Event) : bool :=
  match e with
  | Ack _ | Nack _ _ _ => true
  | _ => false
  end.

Definition is_upsert (e : Event) : bool :=
  match e with
  | Upserted _ _ => true
  | _ => false
  end.

(** The timer, store and broker calls of a trace, without the log
    lines. *)
Definition is_action (e : Event) : bool :=
  is_timeout e || is_upsert e || is_broker_call e.

(** The status that the status query of index.js would show. *)
Definition status_of (messageId : string) (w : World) : option Status :=
  doc_status <$> findOne messageId (store w).

(** The retry counters that the consumer reads from a payload. *)
Definition retryCount_of (p : Payload) : Z :=
  match p with
  | Garbled _ => 0
  | Json m => default 0 (msg_retryCount m)
  end.

Definition maxRetries_of (p : Payload) : Z :=
  match p with
  | Garbled _ => 3
  | Json m => default 3 (msg_maxRetries m)
  end.

(** A document whose delivery, or failure, is stamped again at [t]. *)
Definition delivered_again (t : Z) (d : Doc) : Doc :=
  {| doc_messageId := doc_messageId d; doc_traceId := doc_traceId d;
     doc_channel := doc_channel d; doc_recipient := doc_recipient d;
     doc_subject := doc_subject d; doc_body := doc_body d;
     doc_metadata := doc_metadata d; doc_status := doc_status d;
     doc_deliveredAt := Some t; doc_failedAt := doc_failedAt d;
     doc_errorMessage := doc_errorMessage d;
     doc_retryCount := doc_retryCount d;
     doc_createdAt := doc_createdAt d; doc_updatedAt := t |}.

Definition failed_again (t : Z) (d : Doc) : Doc :=
  {| doc_messageId := doc_messageId d; doc_traceId := doc_traceId d;
     doc_channel := doc_channel d; doc_recipient := doc_recipient d;
     doc_subject := doc_subject d; doc_body := doc_body d;
     doc_metadata := doc_metadata d; doc_status := doc_status d;
     doc_deliveredAt := doc_deliveredAt d; doc_failedAt := Some t;
     doc_errorMessage := doc_errorMessage d;
     doc_retryCount := doc_retryCount d;
     doc_createdAt := doc_createdAt d; doc_updatedAt := t |}.

(** The world in which [deliverWithRetry] makes its next call after a
    handler threw in [w]: a warning was printed, the backoff delay has
    passed, and the object carries the incremented counter. *)
Definition backed_off (retryCount : Z) (message : Message) (w : World) : World :=
  with_inflight (Some (set_retryCount (retryCount + 1) message))
    (with_clock (fun t => t + backoff retryCount)
       (logged [Console warn "Delivery failed, retrying...";
                Timeout (backoff retryCount)] w)).

(** The broker's side after [channel.nack(msg, false, requeue)]. *)
Definition nacked (msg : AmqpMessage) (requeue : bool) (w : World) : World :=
  if requeue
  then with_broker (msg :: origin_queue w) None (dead_letter_queue w) w
  else with_broker (origin_queue w) None (dead_letter_queue w ++ [msg]) w.

(** The object that [message] refers to once the payload went through
    [JSON.parse]. *)
Definition parsed (p : Payload) : option Message :=
  match p with
  | Garbled _ => None
  | Json m => Some m
  end.

(** *** Scenarios *)

(** The envelope that the router produced for [Router.hello_email]. *)
Definition hello : Message :=
  {| msg_messageId := "msg_uuid1"; msg_traceId := "trace_uuid0";
     msg_subtraceId := Some "subtrace_1000"; msg_channel := email;
     msg_recipient := "a@b.com"; msg_subject := Some "Hi";
     msg_body := "x"; msg_metadata := None;
     msg_retryCount := Some 0; msg_maxRetries := Some 3;
     msg_status := queued; msg_timestamp := 1000 |}.

Definition hello_msg : AmqpMessage := {| content := Json hello |}.

Definition garbled_msg : AmqpMessage := {| content := Garbled "{ not json" |}.

(** [hello] with a payload whose counter has reached [maxRetries]. *)
Definition spent_msg : AmqpMessage :=
  {| content := Json (set_retryCount 3 hello) |}.

(** The delivery succeeds and the store answers. *)
Definition goes_well : Attempt :=
  {| random_below_failureRate := false;
     delivered_upsert_fault := None; failed_upsert_fault := None |}.

(** The delivery fails and the store answers. *)
Definition delivery_fails : Attempt :=
  {| random_below_failureRate := true;
     delivered_upsert_fault := None; failed_upsert_fault := None |}.

(** The delivery fails and the store is down. *)
Definition store_down : Attempt :=
  {| random_below_failureRate := true;
     delivered_upsert_fault := Some "store down";
     failed_upsert_fault := Some "store down" |}.

(** The first delivery fails, the later ones succeed. *)
Definition fails_once (n : nat) : Attempt :=
  match n with
  | O => delivery_fails
  | S _ => goes_well
  end.

(** A consumer that has done nothing yet, at instant 5000, with [q] on
    its queue. *)
Definition idle_world (o : nat -> Attempt) (q : list AmqpMessage) : World :=
  {| store := []; clock := 5000; attempts := 0; oracle := o;
     kafka_fault := None; inflight := None; origin_queue := q;
     unacked := None; dead_letter_queue := []; trace := [] |}.

End Delivery.

(** ** Further vocabulary of the delivery service *)

Module DeliverySpec.
Import Delivery.

(** consumer.js, [Object.entries(QUEUES)], in the order of the object
    literal. *)
Definition QUEUES_entries : list (string * string) :=
  [("email", "email_queue"); ("sms", "sms_queue");
   ("whatsapp", "whatsapp_queue"); ("dlq", "dead_letter_queue")].

(** consumer.js, [initializeConsumers]: the pairs [(channelType,
    queueName)] for which [channel.consume] is called; the loop skips
    the key [dlq]. *)
Definition consumers : list (string * string) :=
  List.filter (fun entry => negb (String.eqb (fst entry) "dlq")) QUEUES_entries.

(** router.js, [initRabbitMQ]: the queues that are asserted, each with
    its [x-dead-letter-routing-key]. *)
Definition asserted_queues : list (string * option string) :=
  List.map (fun entry => (snd entry, QUEUES "dlq")) QUEUES_entries.

(** The timers of a call of [deliverWithRetry] that starts with counter
    [retryCount] and retries [k] times: the latency of each attempt,
    and between two attempts the backoff delay of the counter. *)
Fixpoint retry_timers (latency retryCount : Z) (k : nat) : list Event :=
  match k with
  | O => [Timeout latency]
  | S k' =>
      Timeout latency :: Timeout (backoff retryCount)
        :: retry_timers latency (retryCount + 1) k'
  end.

(** The time that the timers of a trace take. *)
Fixpoint elapsed (evs : list Event) : Z :=
  match evs with
  | [] => 0
  | Timeout ms :: rest => ms + elapsed rest
  | _ :: rest => elapsed rest
  end.

(** The object that [message] refers to after [k] retries. *)
Definition retried (retryCount : Z) (k : nat) (message : Message) : Message :=
  match k with
  | O => message
  | S _ => set_retryCount (retryCount + Z.of_nat k) message
  end.

(** The log record that [processMessage] publishes before it calls the
    handler. *)
Definition start_record (channelType : string) (m : Message) (now : Z)
  : LogData :=
  {| log_service := "delivery"; log_level := info;
     log_message := "Started message delivery";
     log_traceId := Some (msg_traceId m);
     log_subtraceId := Some ("subtrace_" +:+ str_of_Z now);
     log_messageId := Some (msg_messageId m);
     log_channel := channelType;
     log_queueName := None;
     log_retryCount := Some (default 0 (msg_retryCount m));
     log_error := None; log_duration := None;
     log_timestamp := now |}.

(** The world in which [processMessage] looks up the handler. *)
Definition started (channelType : string) (m : Message) (w : World) : World :=
  logged ([Console info "Processing message"] ++
          sendLog_events w (start_record channelType m (clock w)))
    (with_inflight (Some m) w).

(** The log record that [processMessage] publishes after a delivery
    that succeeded. *)
Definition success_record (channelType : string) (m : Message)
  (start finish : Z) : LogData :=
  {| log_service := "delivery"; log_level := info;
     log_message := "Message delivered successfully";
     log_traceId := Some (msg_traceId m);
     log_subtraceId := Some ("subtrace_" +:+ str_of_Z start);
     log_messageId := Some (msg_messageId m);
     log_channel := channelType;
     log_queueName := None; log_retryCount := None;
     log_error := None; log_duration := Some (finish - start);
     log_timestamp := finish |}.

(** The world that [processMessage] leaves after a delivery that
    succeeded in [w2], for a call that began at instant [start]. *)
Definition acknowledged (msg : AmqpMessage) (channelType : string)
  (m : Message) (start : Z) (w2 : World) : World :=
  with_broker (origin_queue w2) None (dead_letter_queue w2)
    (logged ([Ack msg] ++
             sendLog_events w2 (success_record channelType m start (clock w2)) ++
             [Console info "Message delivered successfully"]) w2).

(** The text of the error that [processMessage] throws for a result
    without success. *)
Definition failure_text (r : Result) : string :=
  if truthy (res_error r) then default "" (res_error r) else "Delivery failed".

Definition is_kafka (e : Event) : bool :=
  match e with
  | KafkaSend _ _ _ => true
  | _ => false
  end.

(** A record on the log topic comes from the delivery service and is
    keyed by the trace id that it carries, [traceId]; this is
    [undefined] for a payload that did not parse. *)
Definition keyed_by (traceId : option string) (e : Event) : Prop :=
  match e with
  | KafkaSend topic key value =>
      topic = "communication-logs" /\ key = traceId /\
      log_traceId value = traceId /\ log_service value = "delivery"
  | _ => True
  end.

(** The simulated latency and the use of [subject] of the handler of a
    channel. *)
Definition latency_of (c : Channel) : Z :=
  match c with
  | email => 500
  | sms => 300
  | whatsapp => 400
  end.

Definition records_subject (c : Channel) : bool :=
  match c with
  | email => true
  | sms | whatsapp => false
  end.

(** How the broker was told to settle [msg] in a trace. *)
Inductive Settled : Type := acked | requeued | dead_lettered.

Definition settles (msg : AmqpMessage) (how : Settled) (evs : list Event)
  (before after : World) : Prop :=
  unacked after = None /\
  match how with
  | acked =>
      List.filter is_broker_call evs = [Ack msg] /\
      origin_queue after = origin_queue before /\
      dead_letter_queue after = dead_letter_queue before
  | requeued =>
      List.filter is_broker_call evs = [Nack msg false true] /\
      origin_queue after = msg :: origin_queue before /\
      dead_letter_queue after = dead_letter_queue before
  | dead_lettered =>
      List.filter is_broker_call evs = [Nack msg false false] /\
      origin_queue after = origin_queue before /\
      dead_letter_queue after = dead_letter_queue before ++ [msg]
  end.

(** The environment refuses every delivery and every record of a
    failure. *)
Definition always_throws (o : nat -> Attempt) : Prop :=
  forall n,
    is_Some (failed_upsert_fault (o n)) /\
    (random_below_failureRate (o n) = true \/
     is_Some (delivered_upsert_fault (o n))).

End DeliverySpec.

(** ** The REST interface of the delivery service (index.js) *)

Module Rest.
Import Delivery.

(** What a route answers: [res.json(body)], [res.status(404)] or
    [res.status(500)]. *)
Inductive Response (A : Type) : Type :=
| Ok (body : A)
| NotFound
| InternalError.
Arguments Ok {A} body.
Arguments NotFound {A}.
Arguments InternalError {A}.

(** [GET /messages/:messageId]; [fault] is the environment's decision
    for the query. *)
Definition get_message (fault : option string) (messageId : string)
  (docs : list Doc) : Response Doc :=
  match fault with
  | Some _ => InternalError
  | None =>
      match findOne messageId docs with
      | Some message => Ok message
      | None => NotFound
      end
  end.

(** [parseInt(text) || fallback]; [parsed] is the integer that
    [parseInt] read, [None] for [NaN]. *)
Definition or_fallback (parsed : option Z) (fallback : Z) : Z :=
  match parsed with
  | Some n => if n =? 0 then fallback else n
  | None => fallback
  end.

(** [Math.ceil(a / b)] for integers [a] and [b], [b] not 0. *)
Definition ceil_div (a b : Z) : Z := - ((- a) / b).

(** [sort({ createdAt: -1 })]; documents with the same instant stay in
    the order of the collection. *)
Fixpoint insert_newest (d : Doc) (sorted : list Doc) : list Doc :=
  match sorted with
  | [] => [d]
  | d' :: rest =>
      if doc_createdAt d' <? doc_createdAt d then d :: d' :: rest
      else d' :: insert_newest d rest
  end.

Definition newest_first (docs : list Doc) : list Doc :=
  foldr insert_newest [] docs.

(** [Message.find().sort({ createdAt: -1 }).skip(skip).limit(limit)];
    the server refuses a negative [skip], and reads a negative [limit]
    as its absolute value. *)
Definition find_page (skip limit : Z) (docs : list Doc) : option (list Doc) :=
  if skip <? 0 then None
  else Some (take (Z.to_nat (Z.abs limit))
               (drop (Z.to_nat skip) (newest_first docs))).

Record Pagination : Type := {
  page : Z;
  limit : Z;
  total : Z;
  pages : Z
}.

Record Listing : Type := {
  messages : list Doc;
  pagination : Pagination
}.

(** [GET /messages]; [query_page] and [query_limit] are what [parseInt]
    reads in [req.query]. *)
Definition get_messages (fault : option string)
  (query_page query_limit : option Z) (docs : list Doc) : Response Listing :=
  let page := or_fallback query_page 1 in
  let limit := or_fallback query_limit 10 in
  let skip := (page - 1) * limit in
  match fault with
  | Some _ => InternalError
  | None =>
      match find_page skip limit docs with
      | None => InternalError
      | Some found =>
          let total := Z.of_nat (length docs) in
          Ok {| messages := found;
                pagination :=
                  {| page := page; limit := limit; total := total;
                     pages := ceil_div total limit |} |}
      end
  end.

(** The messages of an answer. *)
Definition messages_of (r : Response Listing) : list Doc :=
  match r with
  | Ok listing => messages listing
  | _ => []
  end.

End Rest.

(** * Properties *)

(** ** Running a computation step by step *)

Section Steps.
Context {W A B : Type}.

Lemma bind_normal (c : M W A) (k : A -> M W B) (w w' : W) (a : A) :
  c w = (Normal a, w') -> bind c k w = k a w'.
Proof. intros H. unfold bind. rewrite H. reflexivity. Qed.

Lemma bind_thrown (c : M W A) (k : A -> M W B) (w w' : W) (e : string) :
  c w = (Thrown e, w') -> bind c k w = (Thrown e, w').
Proof. intros H. unfold bind. rewrite H. reflexivity. Qed.

Lemma try_normal (c : M W A) (h : string -> M W A) (w w' : W) (a : A) :
  c w = (Normal a, w') -> try_catch c h w = (Normal a, w').
Proof. intros H. unfold try_catch. rewrite H. reflexivity. Qed.

Lemma try_thrown (c : M W A) (h : string -> M W A) (w w' : W) (e : string) :
  c w = (Thrown e, w') -> try_catch c h w = h e w'.
Proof. intros H. unfold try_catch. rewrite H. reflexivity. Qed.

End Steps.

Ltac in_list := apply list_elem_of_In; cbn; tauto.

(** ** The task-router service *)

Section RouterFacts.
Import Router.
Variable sha256_hex : string -> string.

Lemma logged_logged (a b : list Event) (w : World) :
  logged b (logged a w) = logged (a ++ b) w.
Proof. unfold logged. cbn. rewrite app_assoc. reflexivity. Qed.

(** The validation rejects exactly the inputs that violate a field
    rule, and gives one of its four reasons. *)
Lemma validation_error_violates (input : MessageInput) :
  violates input ->
  exists reason, validation_error input = Some reason /\
                 reason ∈ validation_reasons.
Proof.
  unfold violates, validation_error, validation_reasons.
  destruct input as [c r s b m]; cbn.
  intros H.
  destruct (String.eqb_spec r "") as [->|Hr]; cbn;
    [eexists; split; [reflexivity | in_list]|].
  destruct (String.eqb_spec b "") as [->|Hb]; cbn;
    [eexists; split; [reflexivity | in_list]|].
  destruct H as [H | [H | [[-> H] | [[-> H] | [[-> | ->] H]]]]];
    try contradiction; cbn.
  - rewrite H; cbn. eexists; split; [reflexivity | in_list].
  - destruct (truthy s); cbn; rewrite ?H; cbn;
      eexists; (split; [reflexivity | in_list]).
  - rewrite H; cbn. eexists; split; [reflexivity | in_list].
  - rewrite H; cbn. eexists; split; [reflexivity | in_list].
Qed.

Lemma validation_error_only_violations (input : MessageInput) (reason : string) :
  validation_error input = Some reason -> violates input.
Proof.
  unfold violates, validation_error.
  destruct input as [c r s b m]; cbn.
  destruct (String.eqb_spec r "") as [->|Hr]; cbn; [auto|].
  destruct (String.eqb_spec b "") as [->|Hb]; cbn; [auto|].
  destruct c; cbn.
  - destruct (truthy s) eqn:Hs; cbn; [|intros _; auto 6].
    destruct (isValidEmail r) eqn:He; cbn; [discriminate|].
    intros _. right; right; right; left. auto.
  - destruct (isValidPhone r) eqn:Hp; cbn; [discriminate|].
    intros _. do 4 right. auto.
  - destruct (isValidPhone r) eqn:Hp; cbn; [discriminate|].
    intros _. do 4 right. auto.
Qed.

Example isValidEmail_accepts : isValidEmail "a@b.com" = true.
Proof. reflexivity. Qed.

Example isValidEmail_wants_a_dot : isValidEmail "a@b" = false.
Proof. reflexivity. Qed.

Example isValidEmail_allows_colon : isValidEmail "a@b.c:x" = true.
Proof. reflexivity. Qed.

Example isValidPhone_accepts : isValidPhone "+14155552671" = true.
Proof. reflexivity. Qed.

Example isValidPhone_rejects_words : isValidPhone "not-a-phone" = false.
Proof. reflexivity. Qed.

Example isValidPhone_at_most_15_digits :
  isValidPhone "123456789012345" = true /\
  isValidPhone "1234567890123456" = false.
Proof. split; reflexivity. Qed.

Lemma cache_read_insert (c : gmap string (string * Z)) (k v : string) (e t : Z) :
  cache_read (<[k := (v, e)]> c) t k = if t <? e then Some v else None.
Proof. unfold cache_read. rewrite lookup_insert_eq. reflexivity. Qed.

Lemma QUEUES_channel (c : Channel) :
  QUEUES (channel_name c) = Some (channel_name c +:+ "_queue").
Proof. destruct c; reflexivity. Qed.

(** *** What each function of router.js does to the world *)

Lemma sendLog_run (logData : LogData) (w : World) :
  sendLog logData w = (Normal tt, logged (sendLog_events w logData) w).
Proof.
  unfold sendLog, sendLog_events, kafka_send, try_catch, bind, gets, logger,
    emit, modify, throw, logged.
  destruct (kafka_fault (faults w)); reflexivity.
Qed.

(** The four ways in which the duplicate check can go. *)
Lemma checkDuplicate_run (input : MessageInput) (w : World) :
  let key := dedup_key sha256_hex input in
  checkDuplicate sha256_hex input w =
    match redis_get_fault (faults w) with
    | Some _ =>
        (Normal false,
         logged [RedisGet key; Console error "Error checking duplicate"] w)
    | None =>
        if truthy (cache_read (cache w) (clock w) key)
        then (Normal true, logged [RedisGet key] w)
        else
          match redis_setEx_fault (faults w) with
          | Some _ =>
              (Normal false,
               logged [RedisGet key; RedisSetEx key 86400 "1";
                       Console error "Error checking duplicate"] w)
          | None =>
              (Normal false,
               {| cache := <[key := ("1", clock w + day_ms)]> (cache w);
                  clock := clock w; uuids := uuids w;
                  uuid_next := uuid_next w; faults := faults w;
                  trace := trace w ++ [RedisGet key; RedisSetEx key 86400 "1"] |})
          end
    end.
Proof.
  unfold checkDuplicate, redis_get, redis_setEx, set_cache, Date_now, logger,
    emit, try_catch, bind, gets, modify, throw, ret, logged, day_ms.
  cbn.
  destruct (redis_get_fault (faults w)); cbn.
  - rewrite <- app_assoc. reflexivity.
  - destruct (truthy _); cbn; [reflexivity|].
    destruct (redis_setEx_fault (faults w)); cbn;
      rewrite <- !app_assoc; reflexivity.
Qed.

(** [routeMessage] makes one submission to the broker and no cache
    call, and completes as the broker decides. *)
Lemma routeMessage_run (message : Message) (w : World) :
  exists evs,
    routeMessage message w =
      (routing_completion (sendToQueue_outcome (faults w)), logged evs w) /\
    length (List.filter touches_queue evs) = 1%nat /\
    List.filter touches_cache evs = [].
Proof.
  unfold routeMessage, sendToQueue, emit, Date_now, logger, emit.
  unfold try_catch, bind, gets, modify, ret, throw.
  rewrite QUEUES_channel.
  destruct (sendToQueue_outcome (faults w)) eqn:Ho; cbn; rewrite Ho; cbn;
    rewrite sendLog_run; unfold logged, sendLog_events; cbn;
    destruct (kafka_fault (faults w)); cbn;
    rewrite <- ?app_assoc;
    (eexists; split; [reflexivity | split; reflexivity]).
Qed.

(** A reservation made at instant [clock w] answers every read before
    [clock w + day_ms] and none from then on. *)
Lemma reservation_lasts_one_day (input : MessageInput) (w : World) :
  redis_get_fault (faults w) = None ->
  redis_setEx_fault (faults w) = None ->
  ~ reserved sha256_hex input w ->
  let w' := snd (checkDuplicate sha256_hex input w) in
  fst (checkDuplicate sha256_hex input w) = Normal false /\
  forall t,
    (t < clock w + day_ms -> reserved sha256_hex input (at_time t w')) /\
    (clock w + day_ms <= t -> ~ reserved sha256_hex input (at_time t w')).
Proof.
  intros Hget Hset Hfree. unfold reserved in Hfree.
  apply not_true_is_false in Hfree.
  rewrite checkDuplicate_run. cbv zeta. rewrite Hget, Hfree, Hset.
  split; [reflexivity|].
  intros t. unfold reserved. cbn [snd cache clock at_time].
  rewrite cache_read_insert.
  split; intros Ht.
  - destruct (Z.ltb_spec t (clock w + day_ms)); [reflexivity | lia].
  - destruct (Z.ltb_spec t (clock w + day_ms)); [lia | cbn; discriminate].
Qed.

(** *** What [sendMessage] does, case by case *)

Lemma sendMessage_invalid_run (input : MessageInput) (w : World) (reason : string) :
  validation_error input = Some reason ->
  sendMessage sha256_hex input w =
    (Normal {| resp_success := false; resp_messageId := None;
               resp_traceId := "trace_" +:+ uuids w (uuid_next w);
               resp_message := "Error: " +:+ reason |},
     logged [Console info "Received message request";
             Console error "Error processing message"] (took_uuid w)).
Proof.
  intros Hv. unfold sendMessage.
  cbv beta iota; erewrite bind_normal by reflexivity.
  cbv beta iota; erewrite bind_normal by reflexivity.
  cbv beta iota; erewrite bind_normal by reflexivity.
  rewrite Hv.
  erewrite try_thrown by reflexivity.
  cbv beta iota; erewrite bind_normal by reflexivity.
  unfold ret, logged, took_uuid. cbn. rewrite <- app_assoc. reflexivity.
Qed.

(** The world in which [checkDuplicate] runs: the trace id was drawn
    and the request was logged. *)
Lemma sendMessage_valid_run (input : MessageInput) (w : World) :
  validation_error input = None ->
  let w1 := logged [Console info "Received message request"] (took_uuid w) in
  forall (dup : bool) (w2 : World),
    checkDuplicate sha256_hex input w1 = (Normal dup, w2) ->
    if dup then
      sendMessage sha256_hex input w =
        (Normal {| resp_success := false; resp_messageId := None;
                   resp_traceId := "trace_" +:+ uuids w (uuid_next w);
                   resp_message := "Duplicate message detected" |},
         logged [Console warn "Duplicate message detected"] w2)
    else
      exists evs,
        sendMessage sha256_hex input w =
          (Normal
             match sendToQueue_outcome (faults w2) with
             | SendTrue =>
                 {| resp_success := true;
                    resp_messageId := Some ("msg_" +:+ uuids w2 (uuid_next w2));
                    resp_traceId := "trace_" +:+ uuids w (uuid_next w);
                    resp_message := "Message queued successfully" |}
             | SendFalse =>
                 {| resp_success := false; resp_messageId := None;
                    resp_traceId := "trace_" +:+ uuids w (uuid_next w);
                    resp_message := "Error: Failed to send message to queue" |}
             | SendThrows reason =>
                 {| resp_success := false; resp_messageId := None;
                    resp_traceId := "trace_" +:+ uuids w (uuid_next w);
                    resp_message := "Error: " +:+ reason |}
             end,
           logged evs (took_uuid w2)) /\
        length (List.filter touches_queue evs) = 1%nat /\
        List.filter touches_cache evs = [].
Proof.
  intros Hv w1 dup w2 Hdup. unfold sendMessage.
  cbv beta iota; erewrite bind_normal by reflexivity.
  cbv beta iota; erewrite bind_normal by reflexivity.
  cbv beta iota; erewrite bind_normal by reflexivity.
  rewrite Hv. fold w1. unfold try_catch.
  cbv beta iota; erewrite bind_normal by reflexivity.
  cbv beta iota; erewrite bind_normal by exact Hdup.
  destruct dup; cbv beta iota.
  - erewrite bind_normal by reflexivity. reflexivity.
  - erewrite bind_normal by reflexivity.
    cbv beta iota; erewrite bind_normal by reflexivity.
    match goal with
    | |- context [bind (routeMessage ?m) ?k ?w3] =>
        destruct (routeMessage_run m w3) as (evs & Hr & Hq & Hc)
    end.
    cbn [faults took_uuid] in Hr.
    destruct (sendToQueue_outcome (faults w2)) eqn:Ho; cbn in Hr.
    + cbv beta iota; erewrite bind_normal by exact Hr.
      cbv beta iota; erewrite bind_normal by reflexivity.
      exists (evs ++ [Console info "Message routed successfully"]).
      split; [|rewrite !List.filter_app, !length_app, Hq, Hc; split; reflexivity].
      unfold ret, logged, took_uuid. cbn. rewrite <- app_assoc. reflexivity.
    + cbv beta iota; erewrite bind_thrown by exact Hr.
      cbv beta iota; erewrite bind_normal by reflexivity.
      exists (evs ++ [Console error "Error processing message"]).
      split; [|rewrite !List.filter_app, !length_app, Hq, Hc; split; reflexivity].
      unfold ret, logged, took_uuid. cbn. rewrite <- app_assoc. reflexivity.
    + cbv beta iota; erewrite bind_thrown by exact Hr.
      cbv beta iota; erewrite bind_normal by reflexivity.
      exists (evs ++ [Console error "Error processing message"]).
      split; [|rewrite !List.filter_app, !length_app, Hq, Hc; split; reflexivity].
      unfold ret, logged, took_uuid. cbn. rewrite <- app_assoc. reflexivity.
Qed.

Lemma one_more_queue_call (evs : list Event) (w : World) :
  length (List.filter touches_queue evs) = 1%nat ->
  length (List.filter touches_queue (trace (logged evs w)))
    = S (length (List.filter touches_queue (trace w))).
Proof.
  intros H. unfold logged; cbn [trace].
  rewrite List.filter_app, length_app, H. lia.
Qed.

(** C8.  The deduplication gate fails open: when a cache call of the
    duplicate check throws, [checkDuplicate] answers [false] and leaves
    the cache as it was; a valid request then goes on as a
    non-duplicate: it is submitted to the queue and, if the broker
    accepts it, answered with success. *)
Theorem dedup_gate_fails_open (input : MessageInput) (w : World) :
  cache_errs sha256_hex input w ->
  fst (checkDuplicate sha256_hex input w) = Normal false /\
  cache (snd (checkDuplicate sha256_hex input w)) = cache w /\
  (validation_error input = None ->
   sendToQueue_outcome (faults w) = SendTrue ->
   let out := sendMessage sha256_hex input w in
   fst out =
     Normal {| resp_success := true;
               resp_messageId := Some ("msg_" +:+ uuids w (S (uuid_next w)));
               resp_traceId := "trace_" +:+ uuids w (uuid_next w);
               resp_message := "Message queued successfully" |} /\
   length (List.filter touches_queue (trace (snd out)))
     = S (length (List.filter touches_queue (trace w)))).
Proof.
  intros Herr.
  assert (Hrun : forall w0 : World,
            faults w0 = faults w -> cache w0 = cache w -> clock w0 = clock w ->
            exists evs,
              checkDuplicate sha256_hex input w0 = (Normal false, logged evs w0) /\
              List.filter touches_queue evs = []).
  { intros w0 Hf Hc Ht. rewrite checkDuplicate_run. cbv zeta.
    rewrite Hf, Hc, Ht.
    destruct Herr as [[reason Hget] | [Hmiss [reason Hset]]].
    - rewrite Hget. eexists; split; reflexivity.
    - destruct (redis_get_fault (faults w)); [eexists; split; reflexivity|].
      rewrite Hmiss, Hset. eexists; split; reflexivity. }
  destruct (Hrun w eq_refl eq_refl eq_refl) as (evs & Hcd & _).
  rewrite Hcd. split; [reflexivity|]. split; [reflexivity|].
  intros Hvalid Hsend out.
  destruct (Hrun (logged [Console info "Received message request"] (took_uuid w))
              eq_refl eq_refl eq_refl) as (evs' & Hcd' & Hq').
  destruct (sendMessage_valid_run input w Hvalid false _ Hcd')
    as (evs'' & Hout & Hq'' & _).
  cbn [faults logged took_uuid] in Hout. rewrite Hsend in Hout.
  subst out. rewrite Hout. split; [reflexivity|].
  cbn [snd]. rewrite one_more_queue_call by exact Hq''.
  unfold took_uuid, logged; cbn [trace].
  rewrite !List.filter_app, !length_app, Hq'. cbn. lia.
Qed.

(** C7.  An input that violates a field rule is answered with
    [success: false], no message id and "Error: " followed by one of the
    four validation reasons.  The call draws one uuid for the trace id
    and prints two log lines; it makes no cache call and no queue call,
    and the cache is as before. *)
Theorem invalid_input_is_rejected_without_effects
  (input : MessageInput) (w : World) :
  violates input ->
  exists reason,
    reason ∈ validation_reasons /\
    sendMessage sha256_hex input w =
      (Normal {| resp_success := false; resp_messageId := None;
                 resp_traceId := "trace_" +:+ uuids w (uuid_next w);
                 resp_message := "Error: " +:+ reason |},
       logged [Console info "Received message request";
               Console error "Error processing message"] (took_uuid w)).
Proof.
  intros Hbad.
  destruct (validation_error_violates input Hbad) as (reason & Hv & Hin).
  exists reason. split; [exact Hin|].
  apply sendMessage_invalid_run. exact Hv.
Qed.

(** C6, as amended.  An input that passes the validation and whose
    fingerprint the cache reports as reserved is answered with
    [success: false], no message id, a new trace id and the text
    "Duplicate message detected"; the only client call is the cache
    read, so nothing is enqueued. *)
Theorem valid_duplicate_is_reported (input : MessageInput) (w : World) :
  validation_error input = None ->
  redis_get_fault (faults w) = None ->
  reserved sha256_hex input w ->
  sendMessage sha256_hex input w =
    (Normal {| resp_success := false; resp_messageId := None;
               resp_traceId := "trace_" +:+ uuids w (uuid_next w);
               resp_message := "Duplicate message detected" |},
     logged [Console info "Received message request";
             RedisGet (dedup_key sha256_hex input);
             Console warn "Duplicate message detected"] (took_uuid w)).
Proof.
  intros Hvalid Hget Hres. unfold reserved in Hres.
  pose proof (sendMessage_valid_run input w Hvalid true) as Hrun.
  cbv zeta iota in Hrun.
  assert (Hcd : checkDuplicate sha256_hex input
                  (logged [Console info "Received message request"] (took_uuid w))
                = (Normal true,
                   logged [Console info "Received message request";
                           RedisGet (dedup_key sha256_hex input)] (took_uuid w))).
  { rewrite checkDuplicate_run. cbv zeta.
    cbn [faults cache clock logged took_uuid].
    rewrite Hget, Hres. unfold logged; cbn. rewrite <- app_assoc. reflexivity. }
  rewrite (Hrun _ Hcd), logged_logged. reflexivity.
Qed.

(** C4, as amended.  When the submission to the broker fails for a valid
    input that was not reserved, the caller gets [success: false], no
    message id and the text "Error: " followed by the reason; one
    submission was attempted; the reservation written by the duplicate
    check is not undone: it is in the cache afterwards and answers every
    read of the following 24 hours. *)
Theorem failed_routing_keeps_the_reservation (input : MessageInput) (w : World) :
  validation_error input = None ->
  redis_get_fault (faults w) = None ->
  redis_setEx_fault (faults w) = None ->
  ~ reserved sha256_hex input w ->
  sendToQueue_outcome (faults w) <> SendTrue ->
  let out := sendMessage sha256_hex input w in
  let reason :=
    match sendToQueue_outcome (faults w) with
    | SendThrows r => r
    | _ => "Failed to send message to queue"
    end in
  fst out =
    Normal {| resp_success := false; resp_messageId := None;
              resp_traceId := "trace_" +:+ uuids w (uuid_next w);
              resp_message := "Error: " +:+ reason |} /\
  length (List.filter touches_queue (trace (snd out)))
    = S (length (List.filter touches_queue (trace w))) /\
  cache (snd out) =
    <[dedup_key sha256_hex input := ("1", clock w + day_ms)]> (cache w) /\
  forall t, t < clock w + day_ms ->
            reserved sha256_hex input (at_time t (snd out)).
Proof.
  intros Hvalid Hget Hset Hfree Hsend out reason. unfold reserved in Hfree.
  apply not_true_is_false in Hfree.
  pose proof (sendMessage_valid_run input w Hvalid false) as Hrun.
  cbv zeta iota in Hrun.
  edestruct Hrun as (evs & Hout & Hq & _).
  { rewrite checkDuplicate_run. cbv zeta.
    cbn [faults cache clock logged took_uuid].
    rewrite Hget, Hfree, Hset. reflexivity. }
  cbn [faults uuids uuid_next] in Hout.
  subst out reason. rewrite Hout. cbn [fst snd].
  split; [|split; [|split]].
  - destruct (sendToQueue_outcome (faults w)); [contradiction | reflexivity | reflexivity].
  - rewrite one_more_queue_call by exact Hq. unfold took_uuid, logged. cbn.
    rewrite !List.filter_app, !length_app. cbn. lia.
  - reflexivity.
  - intros t Ht. unfold reserved. cbn [cache clock at_time logged took_uuid].
    rewrite cache_read_insert.
    destruct (Z.ltb_spec t (clock w + day_ms)); [reflexivity | lia].
Qed.

(** C10.  The fingerprint is not injective on (channel, recipient,
    body): on every channel, recipient "a:b" with body "c" and recipient
    "a" with body "b:c" are different inputs with the same fingerprint,
    whatever the hash function, so the duplicate check of the second
    answers [true] once the first is reserved; and there are two
    well-formed emails of this kind, the second of which is answered
    "Duplicate message detected" although it was never sent. *)
Theorem fingerprint_is_not_injective :
  (forall c : Channel,
     (in_recipient (colon_in_recipient c), in_body (colon_in_recipient c))
       <> (in_recipient (colon_in_body c), in_body (colon_in_body c)) /\
     in_channel (colon_in_recipient c) = in_channel (colon_in_body c) /\
     messageHash sha256_hex (colon_in_recipient c)
       = messageHash sha256_hex (colon_in_body c) /\
     let first := checkDuplicate sha256_hex (colon_in_recipient c)
                    (fresh_world all_well) in
     fst first = Normal false /\
     fst (checkDuplicate sha256_hex (colon_in_body c) (snd first))
       = Normal true) /\
  email_colon_in_recipient <> email_colon_in_body /\
  validation_error email_colon_in_recipient = None /\
  validation_error email_colon_in_body = None /\
  let first := sendMessage sha256_hex email_colon_in_recipient
                 (fresh_world all_well) in
  fst first =
    Normal {| resp_success := true; resp_messageId := Some "msg_uuid1";
              resp_traceId := "trace_uuid0";
              resp_message := "Message queued successfully" |} /\
  fst (sendMessage sha256_hex email_colon_in_body (snd first)) =
    Normal {| resp_success := false; resp_messageId := None;
              resp_traceId := "trace_uuid2";
              resp_message := "Duplicate message detected" |}.
Proof.
  assert (Hkey : forall c, dedup_key sha256_hex (colon_in_recipient c)
                           = dedup_key sha256_hex (colon_in_body c)).
  { intros c. unfold dedup_key, messageHash, dedup_material.
    destruct c; reflexivity. }
  assert (Hkey' : dedup_key sha256_hex email_colon_in_recipient
                  = dedup_key sha256_hex email_colon_in_body) by reflexivity.
  split; [intros c; split; [|split; [|split; [|split]]] | split; [|split; [|split]]].
  - discriminate.
  - reflexivity.
  - unfold messageHash, dedup_material. destruct c; reflexivity.
  - rewrite checkDuplicate_run. reflexivity.
  - rewrite (checkDuplicate_run (colon_in_recipient c)). cbv zeta.
    cbn [faults fresh_world all_well redis_get_fault redis_setEx_fault
         cache clock].
    unfold cache_read at 1. rewrite lookup_empty. cbn [truthy snd].
    rewrite checkDuplicate_run. cbv zeta.
    cbn [faults redis_get_fault all_well cache clock].
    rewrite <- Hkey, cache_read_insert. reflexivity.
  - discriminate.
  - reflexivity.
  - reflexivity.
  - pose proof (sendMessage_valid_run email_colon_in_recipient
                  (fresh_world all_well) eq_refl false) as Hrun.
    cbv zeta iota in Hrun.
    edestruct Hrun as (evs & Hout & _).
    { rewrite checkDuplicate_run. reflexivity. }
    cbv zeta. rewrite Hout. split; [reflexivity|]. cbn [snd].
    pose proof (sendMessage_valid_run email_colon_in_body) as Hrun'.
    cbv zeta in Hrun'.
    erewrite (Hrun' _ eq_refl true); [reflexivity|].
    rewrite checkDuplicate_run. cbv zeta.
    cbn [faults fresh_world all_well redis_get_fault cache clock logged
         took_uuid].
    rewrite <- Hkey', cache_read_insert. reflexivity.
Qed.

End RouterFacts.

(** *** Runs of the router on concrete inputs *)

(** Witness of [dedup_gate_fails_open]: Redis is down. *)
Lemma dedup_gate_fails_open_witness :
  Router.cache_errs Router.plain_digest Router.hello_email
    (Router.fresh_world Router.redis_down) /\
  fst (Router.checkDuplicate Router.plain_digest Router.hello_email
         (Router.fresh_world Router.redis_down)) = Normal false.
Proof.
  assert (H : Router.cache_errs Router.plain_digest Router.hello_email
                (Router.fresh_world Router.redis_down)).
  { left. eexists. reflexivity. }
  split; [exact H|].
  exact (proj1 (dedup_gate_fails_open Router.plain_digest Router.hello_email
                  (Router.fresh_world Router.redis_down) H)).
Defined.

(** Witness of [invalid_input_is_rejected_without_effects]: an sms to
    "not-a-phone". *)
Lemma invalid_input_is_rejected_witness :
  Router.violates Router.sms_not_a_phone /\
  exists reason,
    reason ∈ Router.validation_reasons /\
    Router.sendMessage Router.plain_digest Router.sms_not_a_phone
      (Router.fresh_world Router.all_well) =
      (Normal {| Router.resp_success := false; Router.resp_messageId := None;
                 Router.resp_traceId := "trace_uuid0";
                 Router.resp_message := "Error: " +:+ reason |},
       Router.logged [Router.Console info "Received message request";
                      Router.Console error "Error processing message"]
         (Router.took_uuid (Router.fresh_world Router.all_well))).
Proof.
  assert (H : Router.violates Router.sms_not_a_phone).
  { do 4 right. split; [left; reflexivity | reflexivity]. }
  split; [exact H|].
  exact (invalid_input_is_rejected_without_effects Router.plain_digest
           Router.sms_not_a_phone (Router.fresh_world Router.all_well) H).
Defined.

(** Witness of [valid_duplicate_is_reported]: the same email sent
    twice. *)
Lemma valid_duplicate_is_reported_witness :
  let w1 := snd (Router.sendMessage Router.plain_digest Router.hello_email
                   (Router.fresh_world Router.all_well)) in
  Router.reserved Router.plain_digest Router.hello_email w1 /\
  fst (Router.sendMessage Router.plain_digest Router.hello_email w1) =
    Normal {| Router.resp_success := false; Router.resp_messageId := None;
              Router.resp_traceId := "trace_uuid2";
              Router.resp_message := "Duplicate message detected" |}.
Proof.
  cbv zeta.
  assert (H : Router.reserved Router.plain_digest Router.hello_email
                (snd (Router.sendMessage Router.plain_digest Router.hello_email
                        (Router.fresh_world Router.all_well)))).
  { vm_compute. reflexivity. }
  split; [exact H|].
  assert (Hget : Router.redis_get_fault
                   (Router.faults
                      (snd (Router.sendMessage Router.plain_digest
                              Router.hello_email
                              (Router.fresh_world Router.all_well)))) = None).
  { vm_compute. reflexivity. }
  rewrite (valid_duplicate_is_reported Router.plain_digest Router.hello_email
             _ eq_refl Hget H).
  vm_compute. reflexivity.
Defined.

(** Witness of [failed_routing_keeps_the_reservation]: the broker's
    channel is closed. *)
Lemma failed_routing_keeps_the_reservation_witness :
  let out := Router.sendMessage Router.plain_digest Router.hello_email
               (Router.fresh_world Router.broker_down) in
  ~ Router.reserved Router.plain_digest Router.hello_email
      (Router.fresh_world Router.broker_down) /\
  fst out =
    Normal {| Router.resp_success := false; Router.resp_messageId := None;
              Router.resp_traceId := "trace_uuid0";
              Router.resp_message := "Error: Channel closed" |} /\
  Router.reserved Router.plain_digest Router.hello_email
    (Router.at_time (1000 + 86399999) (snd out)).
Proof.
  cbv zeta.
  assert (H : ~ Router.reserved Router.plain_digest Router.hello_email
                  (Router.fresh_world Router.broker_down)).
  { vm_compute. discriminate. }
  assert (Hb : Router.sendToQueue_outcome
                 (Router.faults (Router.fresh_world Router.broker_down))
               <> Router.SendTrue) by discriminate.
  destruct (failed_routing_keeps_the_reservation Router.plain_digest
              Router.hello_email (Router.fresh_world Router.broker_down)
              eq_refl eq_refl eq_refl H Hb) as (Hresp & _ & _ & Hlast).
  split; [exact H|]. split; [exact Hresp|].
  apply Hlast. reflexivity.
Defined.

(** C6, counterexample.  After [hello_email] was routed, its
    fingerprint is reserved; the same channel, recipient and body
    without a subject have that fingerprint, and the answer is the
    validation error, not "Duplicate message detected". *)
Lemma reserved_input_without_subject_is_not_called_duplicate :
  let w1 := snd (Router.sendMessage Router.plain_digest Router.hello_email
                   (Router.fresh_world Router.all_well)) in
  Router.reserved Router.plain_digest Router.hello_no_subject w1 /\
  fst (Router.sendMessage Router.plain_digest Router.hello_no_subject w1) =
    Normal {| Router.resp_success := false; Router.resp_messageId := None;
              Router.resp_traceId := "trace_uuid2";
              Router.resp_message :=
                "Error: Subject is required for email messages" |} /\
  ~ (exists r,
       fst (Router.sendMessage Router.plain_digest Router.hello_no_subject w1)
         = Normal r /\
       Router.resp_message r = "Duplicate message detected").
Proof.
  cbv zeta. split; [vm_compute; reflexivity|].
  split; [vm_compute; reflexivity|].
  intros (r & Hr & Hm). vm_compute in Hr. inversion Hr; subst r.
  discriminate Hm.
Qed.

(** C4, counterexample.  The broker rejects the submission of a valid,
    never seen email: the caller is told of the error, yet the cache has
    changed: the fingerprint is reserved, and the same request, repeated
    when the broker is back, is turned away as a duplicate. *)
Lemma failed_routing_leaves_partial_state :
  let w0 := Router.fresh_world Router.broker_down in
  let out := Router.sendMessage Router.plain_digest Router.hello_email w0 in
  ~ Router.reserved Router.plain_digest Router.hello_email w0 /\
  fst out =
    Normal {| Router.resp_success := false; Router.resp_messageId := None;
              Router.resp_traceId := "trace_uuid0";
              Router.resp_message := "Error: Channel closed" |} /\
  Router.cache (snd out) <> Router.cache w0 /\
  Router.reserved Router.plain_digest Router.hello_email (snd out) /\
  fst (Router.sendMessage Router.plain_digest Router.hello_email
         (Router.with_faults Router.all_well (snd out))) =
    Normal {| Router.resp_success := false; Router.resp_messageId := None;
              Router.resp_traceId := "trace_uuid2";
              Router.resp_message := "Duplicate message detected" |}.
Proof.
  cbv zeta. split; [vm_compute; discriminate|].
  split; [vm_compute; reflexivity|].
  split; [|split; vm_compute; reflexivity].
  intros Heq.
  apply (f_equal (fun c => c !! "dedup:email:a@b.com:x")) in Heq.
  vm_compute in Heq. discriminate Heq.
Qed.

(** ** The delivery service *)

Section DeliveryFacts.
Import Delivery.

(** Projections of a world that was built by the [with_] functions. *)
Tactic Notation "world_simpl" :=
  cbn [store clock attempts oracle kafka_fault inflight origin_queue unacked
       dead_letter_queue trace logged with_trace with_store with_clock
       with_attempts with_inflight with_broker nacked mbind option_bind].
Tactic Notation "world_simpl" "in" hyp(H) :=
  cbn [store clock attempts oracle kafka_fault inflight origin_queue unacked
       dead_letter_queue trace logged with_trace with_store with_clock
       with_attempts with_inflight with_broker nacked mbind option_bind] in H.

(** Two worlds are equal when their components are. *)
Lemma world_ext (a b : World) :
  store a = store b -> clock a = clock b -> attempts a = attempts b ->
  oracle a = oracle b -> kafka_fault a = kafka_fault b ->
  inflight a = inflight b -> origin_queue a = origin_queue b ->
  unacked a = unacked b -> dead_letter_queue a = dead_letter_queue b ->
  trace a = trace b ->
  a = b.
Proof. destruct a, b. cbn. intros; subst; reflexivity. Qed.

Ltac same_world :=
  apply world_ext; world_simpl; rewrite <- ?app_assoc; reflexivity.

Ltac unfold_delivery :=
  unfold sendLog, kafka_send, findOneAndUpdate, simulateDelivery, sleep,
    channel_ack, channel_nack, JSON_parse, Date_now, logger, emit;
  unfold try_catch, bind, gets, modify, ret, throw.

Lemma consumer_sendLog_run (logData : LogData) (w : World) :
  sendLog logData w = (Normal tt, logged (sendLog_events w logData) w).
Proof.
  unfold_delivery. unfold sendLog_events, logged.
  destruct (kafka_fault w); reflexivity.
Qed.

(** *** The store *)

Lemma findOne_upsert (id : string) (u : Update) (now : Z) (docs : list Doc) :
  up_messageId u = id ->
  exists d, findOne id (upsert id u now docs) = Some d /\
            doc_status d = up_status u /\
            (d = insert_doc u now \/ exists d0, d0 ∈ docs /\ d = apply_set u d0).
Proof.
  intros Hid. induction docs as [|d0 rest IH]; cbn.
  - unfold findOne. cbn. rewrite Hid, String.eqb_refl.
    eexists. split; [reflexivity|]. split; [reflexivity|]. left. reflexivity.
  - destruct (String.eqb (doc_messageId d0) id) eqn:E.
    + unfold findOne. cbn. rewrite Hid, String.eqb_refl.
      eexists. split; [reflexivity|]. split; [reflexivity|].
      right. exists d0. split; [left|reflexivity].
    + unfold findOne. cbn. rewrite E.
      destruct IH as (d & Hf & Hs & Hd). exists d.
      split; [exact Hf|]. split; [exact Hs|].
      destruct Hd as [Hd | (d1 & Hin & Hd)]; [left; exact Hd|].
      right. exists d1. split; [right; exact Hin | exact Hd].
Qed.

Lemma upsert_elements (id : string) (u : Update) (now : Z) (docs : list Doc) (d : Doc) :
  d ∈ upsert id u now docs ->
  d ∈ docs \/ doc_status d = up_status u.
Proof.
  induction docs as [|d0 rest IH]; cbn.
  - intros H. apply list_elem_of_singleton in H. subst d. right. reflexivity.
  - destruct (String.eqb (doc_messageId d0) id).
    + intros H. apply elem_of_cons in H. destruct H as [-> | H].
      * right. reflexivity.
      * left. right. exact H.
    + intros H. apply elem_of_cons in H. destruct H as [-> | H].
      * left. left.
      * destruct (IH H) as [Hin | Hs]; [left; right; exact Hin | right; exact Hs].
Qed.

Lemma count_id_upsert (id : string) (u : Update) (now : Z) (docs : list Doc) :
  up_messageId u = id ->
  count_id id (upsert id u now docs) = Nat.max 1 (count_id id docs).
Proof.
  intros Hid. unfold count_id.
  induction docs as [|d0 rest IH]; cbn.
  - rewrite Hid, String.eqb_refl. reflexivity.
  - destruct (String.eqb (doc_messageId d0) id) eqn:E; cbn.
    + rewrite ?Hid, ?String.eqb_refl, ?E. cbn. lia.
    + rewrite ?E. exact IH.
Qed.

Lemma upsert_upsert (id : string) (u : Update) (now : Z) (docs : list Doc) :
  up_messageId u = id ->
  upsert id u now (upsert id u now docs) = upsert id u now docs.
Proof.
  intros Hid. induction docs as [|d0 rest IH]; cbn.
  - rewrite Hid, String.eqb_refl. f_equal.
    unfold apply_set, insert_doc. cbn.
    destruct u as [? ? ? ? [?|] ? [?|] ? [?|] [?|] [?|] [?|] ?]; reflexivity.
  - destruct (String.eqb (doc_messageId d0) id) eqn:E; cbn.
    + rewrite Hid, String.eqb_refl. f_equal.
      unfold apply_set. cbn.
      destruct u as [? ? ? ? [?|] ? [?|] ? [?|] [?|] [?|] [?|] ?]; reflexivity.
    + rewrite E, IH. reflexivity.
Qed.

(** *** The delivery handlers *)

Section Handler.
Variables (channel : Channel) (latency : Z) (says : Wording)
  (with_subject : bool).

(** The delivery succeeds and is recorded. *)
Lemma handle_delivers (m : Message) (w : World) :
  random_below_failureRate (oracle w (attempts w)) = false ->
  delivered_upsert_fault (oracle w (attempts w)) = None ->
  let now := clock w + latency in
  handle channel latency says with_subject m w =
    (Normal {| res_success := true; res_error := None |},
     logged [Console info (says_start says); Timeout latency;
             Console info
               (channel_name channel +:+ " delivery simulated successfully");
             Upserted (msg_messageId m) delivered;
             Console info (says_done says)]
       (with_store
          (upsert (msg_messageId m)
             (delivered_update channel with_subject m now) now)
          (with_clock (fun t => t + latency) (with_attempts S w)))).
Proof.
  intros Hsim Hup. unfold handle. unfold_delivery. cbn.
  rewrite Hsim. cbn. rewrite Hup. cbn.
  unfold logged, with_trace. cbn. rewrite <- !app_assoc. reflexivity.
Qed.

(** The delivery fails; the handler records the failure and reports it
    in its result instead of throwing. *)
Lemma handle_reports_failure (m : Message) (w : World) :
  random_below_failureRate (oracle w (attempts w)) = true ->
  failed_upsert_fault (oracle w (attempts w)) = None ->
  let now := clock w + latency in
  let reason := "Simulated " +:+ channel_name channel +:+ " delivery failure" in
  handle channel latency says with_subject m w =
    (Normal {| res_success := false; res_error := Some reason |},
     logged [Console info (says_start says); Timeout latency;
             Upserted (msg_messageId m) failed;
             Console error (says_failed says)]
       (with_store
          (upsert (msg_messageId m)
             (failed_update channel with_subject m reason now) now)
          (with_clock (fun t => t + latency) (with_attempts S w)))).
Proof.
  intros Hsim Hup. unfold handle. unfold_delivery. cbn.
  rewrite Hsim. cbn. rewrite Hup. cbn.
  unfold logged, with_trace. cbn. rewrite <- !app_assoc. reflexivity.
Qed.

(** Whatever happens, the handler leaves the store alone or upserts the
    message's document with status delivered or failed; it throws only
    if the store refused the record of the failure. *)
Lemma handle_store (m : Message) (w : World) :
  exists c w',
    handle channel latency says with_subject m w = (c, w') /\
    c <> Starved /\
    attempts w' = S (attempts w) /\
    oracle w' = oracle w /\
    kafka_fault w' = kafka_fault w /\
    origin_queue w' = origin_queue w /\
    dead_letter_queue w' = dead_letter_queue w /\
    inflight w' = inflight w /\
    (store w' = store w \/
     exists u now,
       store w' = upsert (msg_messageId m) u now (store w) /\
       up_messageId u = msg_messageId m /\
       (up_status u = delivered \/ up_status u = failed)) /\
    ((exists reason, c = Thrown reason) ->
     is_Some (failed_upsert_fault (oracle w (attempts w))) /\
     store w' = store w).
Proof.
  unfold handle. unfold_delivery. cbn.
  destruct (oracle w (attempts w)) as [sim [f1|] [f2|]]; destruct sim; cbn;
    eexists; eexists; (split; [reflexivity|]);
    (split; [discriminate|]); do 6 (split; [reflexivity|]);
    (split; [first [left; reflexivity
                   | right; eexists; eexists;
                     split; [reflexivity|]; split; [reflexivity|];
                     first [left; reflexivity | right; reflexivity]]|]);
    intros [reason Hr]; first [discriminate Hr | split; [eexists; reflexivity | reflexivity]].
Qed.

End Handler.

(** The registered handlers, with their simulated latencies. *)
Lemma HANDLERS_inv (channelType : string) (handler : Message -> M World Result) :
  HANDLERS channelType = Some handler ->
  exists channel latency says with_subject,
    handler = handle channel latency says with_subject /\
    (latency = 500 \/ latency = 300 \/ latency = 400).
Proof.
  unfold HANDLERS.
  destruct (String.eqb channelType "email");
    [intros [= <-]; do 4 eexists; split; [reflexivity | lia]|].
  destruct (String.eqb channelType "sms");
    [intros [= <-]; do 4 eexists; split; [reflexivity | lia]|].
  destruct (String.eqb channelType "whatsapp");
    [intros [= <-]; do 4 eexists; split; [reflexivity | lia]|].
  discriminate.
Qed.

(** *** The retry loop *)

Lemma deliverWithRetry_fuel_returns (fuel : nat)
  (handler : Message -> M World Result) (m : Message) (rc mx : Z)
  (w w' : World) (r : Result) :
  handler m w = (Normal r, w') ->
  deliverWithRetry_fuel (S fuel) handler m rc mx w = (Normal r, w').
Proof. intros H. cbn. apply try_normal. exact H. Qed.

(** A handler that returns is called once: its result, success or not,
    is the result of [deliverWithRetry]. *)
Lemma deliverWithRetry_returns (handler : Message -> M World Result)
  (m : Message) (rc mx : Z) (w w' : World) (r : Result) :
  handler m w = (Normal r, w') ->
  deliverWithRetry handler m rc mx w = (Normal r, w').
Proof. apply deliverWithRetry_fuel_returns. Qed.

(** A handler that throws when no retry is left: the error
    propagates. *)
Lemma deliverWithRetry_exhausted (handler : Message -> M World Result)
  (m : Message) (rc mx : Z) (w w' : World) (reason : string) :
  handler m w = (Thrown reason, w') ->
  mx <= rc ->
  deliverWithRetry handler m rc mx w = (Thrown reason, w').
Proof.
  intros H Hle. unfold deliverWithRetry. cbn.
  erewrite try_thrown by exact H.
  destruct (Z.ltb_spec rc mx); [lia | reflexivity].
Qed.

(** A handler that throws while retries are left: after the backoff
    delay of this attempt the loop goes on with the next attempt, in the
    same process. *)
Lemma deliverWithRetry_retries (handler : Message -> M World Result)
  (m : Message) (rc mx : Z) (w w' : World) (reason : string) :
  handler m w = (Thrown reason, w') ->
  rc < mx ->
  deliverWithRetry handler m rc mx w =
    deliverWithRetry handler (set_retryCount (rc + 1) m) (rc + 1) mx
      (backed_off rc m w').
Proof.
  intros H Hlt. unfold deliverWithRetry.
  replace (Z.to_nat (mx - rc)) with (S (Z.to_nat (mx - (rc + 1)))) by lia.
  cbn [deliverWithRetry_fuel].
  erewrite try_thrown by exact H.
  destruct (Z.ltb_spec rc mx); [|lia].
  unfold logger, sleep, emit, bind, modify. cbn.
  unfold backed_off, logged, with_inflight, with_clock, with_trace. cbn.
  rewrite <- app_assoc. reflexivity.
Qed.

(** The fuel given by [deliverWithRetry] is enough: the loop ends,
    whatever the handler does. *)
Lemma deliverWithRetry_fuel_enough (handler : Message -> M World Result)
  (Hh : forall m w, fst (handler m w) <> Starved)
  (fuel : nat) (m : Message) (rc mx : Z) (w : World) :
  (Z.to_nat (mx - rc) < fuel)%nat ->
  fst (deliverWithRetry_fuel fuel handler m rc mx w) <> Starved.
Proof.
  revert m rc w. induction fuel as [|fuel IH]; intros m rc w Hf; [lia|].
  cbn. unfold try_catch.
  specialize (Hh m w). destruct (handler m w) as [[r | reason |] w1]; cbn in *.
  - discriminate.
  - destruct (Z.ltb_spec rc mx); [|discriminate].
    unfold logger, sleep, emit, bind, modify. cbn.
    apply IH. lia.
  - contradiction.
Qed.

Lemma deliverWithRetry_total (handler : Message -> M World Result)
  (m : Message) (rc mx : Z) (w : World) :
  (forall m w, fst (handler m w) <> Starved) ->
  fst (deliverWithRetry handler m rc mx w) <> Starved.
Proof.
  intros Hh. apply deliverWithRetry_fuel_enough; [exact Hh | lia].
Qed.

(** *** The consumer *)

Lemma geb_is_not_ltb (a b : Z) : (a >=? b) = negb (a <? b).
Proof. rewrite Z.geb_leb, Z.ltb_antisym, negb_involutive. reflexivity. Qed.

(** [handleDeliveryError] logs the error and rejects the message; it
    asks the broker to requeue it unless the counter read from the
    object has reached [maxRetries]. *)
Lemma handleDeliveryError_run (msg : AmqpMessage) (message : option Message)
  (channelType reason : string) (w : World) :
  let requeue :=
    default 0 (message ≫= msg_retryCount) <? default 3 (message ≫= msg_maxRetries) in
  exists evs,
    handleDeliveryError msg message channelType reason w =
      (Normal tt, nacked msg requeue (logged evs w)) /\
    List.filter is_action evs = [Nack msg false requeue] /\
    Console error "Delivery error" ∈ evs.
Proof.
  cbv zeta. unfold handleDeliveryError.
  rewrite geb_is_not_ltb.
  set (log1 :=
    {| log_service := "delivery"; log_level := error;
       log_message := "Message delivery failed";
       log_traceId := msg_traceId <$> message; log_subtraceId := None;
       log_messageId := msg_messageId <$> message;
       log_channel := channelType; log_queueName := None;
       log_retryCount := Some (default 0 (message ≫= msg_retryCount));
       log_error := Some reason; log_duration := None;
       log_timestamp := clock w |}).
  set (log2 :=
    {| log_service := "delivery"; log_level := error;
       log_message := "Max retries exceeded, moved to DLQ";
       log_traceId := msg_traceId <$> message; log_subtraceId := None;
       log_messageId := msg_messageId <$> message;
       log_channel := channelType; log_queueName := None;
       log_retryCount := None; log_error := None; log_duration := None;
       log_timestamp := clock w |}).
  erewrite bind_normal by reflexivity.
  cbv beta; erewrite bind_normal by reflexivity.
  cbv beta; erewrite bind_normal by apply consumer_sendLog_run.
  cbv beta.
  destruct (_ <? _); cbn [negb].
  - exists ([Console error "Delivery error"] ++ sendLog_events w log1
            ++ [Nack msg false true]).
    split; [|split].
    + unfold channel_nack.
      erewrite bind_normal by reflexivity.
      unfold modify. f_equal. same_world.
    + unfold sendLog_events. destruct (kafka_fault w); reflexivity.
    + apply elem_of_cons. left. reflexivity.
  - exists ([Console error "Delivery error"] ++ sendLog_events w log1
            ++ [Console error "Max retries exceeded, moving to DLQ"]
            ++ sendLog_events w log2 ++ [Nack msg false false]).
    split; [|split].
    + erewrite bind_normal by reflexivity.
      cbv beta; erewrite bind_normal by reflexivity.
      cbv beta; erewrite bind_normal by apply consumer_sendLog_run.
      unfold channel_nack.
      cbv beta; erewrite bind_normal by reflexivity.
      unfold modify. f_equal. same_world.
    + unfold sendLog_events. destruct (kafka_fault w); reflexivity.
    + apply elem_of_cons. left. reflexivity.
Qed.

(** A payload that does not parse goes straight to
    [handleDeliveryError], with [message] still [undefined]. *)
Lemma processMessage_garbled (msg : AmqpMessage) (raw channelType : string)
  (w : World) :
  content msg = Garbled raw ->
  processMessage msg channelType w =
    handleDeliveryError msg None channelType "Unexpected token in JSON"
      (with_inflight None w).
Proof.
  intros Hc. unfold processMessage. rewrite Hc.
  unfold JSON_parse, Date_now. unfold try_catch, bind, gets, modify, throw.
  cbn. reflexivity.
Qed.

(** A payload that parses is logged, and then handed to the handler of
    the queue's channel, if there is one. *)
Lemma processMessage_parsed (msg : AmqpMessage) (m : Message)
  (channelType : string) (w : World) :
  content msg = Json m ->
  exists evs0,
    List.filter is_action evs0 = [] /\
    let w1 := logged evs0 (with_inflight (Some m) w) in
    match HANDLERS channelType with
    | None =>
        processMessage msg channelType w =
          handleDeliveryError msg (Some m) channelType
            ("No handler found for channel: " +:+ channelType) w1
    | Some handler =>
        forall c w2,
          deliverWithRetry handler m (default 0 (msg_retryCount m))
            (default 3 (msg_maxRetries m)) w1 = (c, w2) ->
          match c with
          | Normal r =>
              res_success r = false ->
              processMessage msg channelType w =
                handleDeliveryError msg (inflight w2) channelType
                  (if truthy (res_error r) then default "" (res_error r)
                   else "Delivery failed") w2
          | Thrown reason =>
              processMessage msg channelType w =
                handleDeliveryError msg (inflight w2) channelType reason w2
          | Starved => processMessage msg channelType w = (Starved, w2)
          end
    end.
Proof.
  intros Hc.
  exists ([Console info "Processing message"] ++
          sendLog_events w
            {| log_service := "delivery"; log_level := info;
               log_message := "Started message delivery";
               log_traceId := Some (msg_traceId m);
               log_subtraceId := Some ("subtrace_" +:+ str_of_Z (clock w));
               log_messageId := Some (msg_messageId m);
               log_channel := channelType;
               log_queueName := None;
               log_retryCount := Some (default 0 (msg_retryCount m));
               log_error := None; log_duration := None;
               log_timestamp := clock w |}).
  split.
  { unfold sendLog_events. destruct (kafka_fault w); reflexivity. }
  cbv zeta. unfold processMessage. rewrite Hc.
  erewrite bind_normal by reflexivity.
  cbv beta; erewrite bind_normal by reflexivity.
  unfold try_catch.
  cbv beta; erewrite bind_normal by reflexivity.
  cbv beta; erewrite bind_normal by reflexivity.
  cbv beta zeta; erewrite bind_normal by reflexivity.
  cbv beta zeta; erewrite bind_normal by reflexivity.
  cbv beta zeta; erewrite bind_normal by reflexivity.
  cbv beta zeta; erewrite bind_normal by apply consumer_sendLog_run.
  cbv beta zeta.
  destruct (HANDLERS channelType) as [handler|].
  - intros c w2 Hd.
    destruct c as [r | reason |].
    + intros Hr. erewrite bind_normal.
      2:{ etransitivity; [|exact Hd]. f_equal.
          unfold logged, with_trace, with_inflight. cbn.
          rewrite <- app_assoc. reflexivity. }
      cbv beta. rewrite Hr. cbv iota. unfold throw at 1. cbv beta iota.
      erewrite bind_normal by reflexivity. reflexivity.
    + erewrite bind_thrown.
      2:{ etransitivity; [|exact Hd]. f_equal.
          unfold logged, with_trace, with_inflight. cbn.
          rewrite <- app_assoc. reflexivity. }
      cbv beta iota. erewrite bind_normal by reflexivity. reflexivity.
    + unfold bind at 1.
      replace (deliverWithRetry handler m _ _ _) with (@Starved Result, w2).
      { reflexivity. }
      rewrite <- Hd. f_equal.
      unfold logged, with_trace, with_inflight. cbn.
      rewrite <- app_assoc. reflexivity.
  - unfold throw at 1. cbv beta iota.
    erewrite bind_normal by reflexivity.
    f_equal. unfold logged, with_trace, with_inflight. cbn.
    rewrite <- app_assoc. reflexivity.
Qed.

(** A delivery failure that the handler reports in its result: one call
    of the handler, no backoff, and the message is rejected with the
    counter it came with, [retryCount] of the payload, compared to
    [maxRetries]: below it the message goes back to its queue, otherwise
    to the dead-letter queue. *)
Lemma reported_failure_is_nacked (msg : AmqpMessage) (m : Message)
  (channelType : string) (channel : Channel) (latency : Z) (says : Wording)
  (with_subject : bool) (w : World) :
  content msg = Json m ->
  HANDLERS channelType = Some (handle channel latency says with_subject) ->
  random_below_failureRate (oracle w (attempts w)) = true ->
  failed_upsert_fault (oracle w (attempts w)) = None ->
  let now := clock w + latency in
  let reason := "Simulated " +:+ channel_name channel +:+ " delivery failure" in
  let requeue :=
    default 0 (msg_retryCount m) <? default 3 (msg_maxRetries m) in
  exists evs,
    processMessage msg channelType w =
      (Normal tt,
       nacked msg requeue
         (logged evs
            (with_store
               (upsert (msg_messageId m)
                  (failed_update channel with_subject m reason now) now)
               (with_clock (fun t => t + latency)
                  (with_attempts S (with_inflight (Some m) w)))))) /\
    List.filter is_action evs =
      [Timeout latency; Upserted (msg_messageId m) failed;
       Nack msg false requeue].
Proof.
  intros Hc Hh Hsim Hup now reason requeue.
  destruct (processMessage_parsed msg m channelType w Hc) as (evs0 & Hq0 & Hp).
  cbv zeta in Hp. rewrite Hh in Hp.
  pose proof (handle_reports_failure channel latency says with_subject m
                (logged evs0 (with_inflight (Some m) w)) Hsim Hup) as Hrun.
  cbv zeta in Hrun.
  specialize (Hp _ _ (deliverWithRetry_returns _ _ _ _ _ _ _ Hrun) eq_refl).
  cbn [res_error truthy default] in Hp.
  rewrite Hp. clear Hp Hrun.
  match goal with
  | |- context [handleDeliveryError ?a ?b ?c ?d ?e] =>
      destruct (handleDeliveryError_run a b c d e) as (evs1 & Hr & Hq1 & _);
      rewrite Hr; clear Hr
  end.
  cbv zeta in Hq1. world_simpl in Hq1. world_simpl.
  fold requeue in Hq1 |- *.
  exists (evs0 ++ [Console info (says_start says); Timeout latency;
                   Upserted (msg_messageId m) failed;
                   Console error (says_failed says)] ++ evs1).
  split.
  - f_equal. destruct requeue; same_world.
  - rewrite !List.filter_app, Hq0, Hq1. reflexivity.
Qed.

(** *** Claims about the retry policy *)

(** The loop does what the documentation says when the handler throws:
    with the store down the handler throws at each of the four attempts,
    which are separated by waits of 1s, 2s and 4s, and the message is
    then rejected without requeue. *)
Lemma thrown_failures_follow_the_backoff_schedule :
  let out := consume "email" (idle_world (fun _ => store_down) [hello_msg]) in
  fst out = Normal tt /\
  attempts (snd out) = 4%nat /\
  List.filter is_action (trace (snd out)) =
    [Timeout 500; Timeout 1000; Timeout 500; Timeout 2000; Timeout 500;
     Timeout 4000; Timeout 500; Nack hello_msg false false] /\
  origin_queue (snd out) = [] /\
  dead_letter_queue (snd out) = [hello_msg] /\
  store (snd out) = [].
Proof. vm_compute. repeat split; reflexivity. Qed.

(** C1, the code where it departs from the claim.  The payload parses,
    its channel has a handler, [retryCount] is below [maxRetries], the
    delivery fails and the store accepts the record of the failure.
    Then the handler is called once; the only timer is the simulated
    latency of the channel (300, 400 or 500 ms): there is no backoff
    wait and no second attempt in the process, and the counter of the
    object is not incremented; the message is rejected with
    [requeue = true] and is back on its origin queue. *)
Theorem reported_delivery_failure_skips_the_backoff
  (msg : AmqpMessage) (m : Message) (channelType : string)
  (handler : Message -> M World Result) (w : World) :
  content msg = Json m ->
  HANDLERS channelType = Some handler ->
  default 0 (msg_retryCount m) < default 3 (msg_maxRetries m) ->
  random_below_failureRate (oracle w (attempts w)) = true ->
  failed_upsert_fault (oracle w (attempts w)) = None ->
  let out := processMessage msg channelType w in
  fst out = Normal tt /\
  attempts (snd out) = S (attempts w) /\
  inflight (snd out) = Some m /\
  (exists evs latency,
     trace (snd out) = trace w ++ evs /\
     List.filter is_action evs =
       [Timeout latency; Upserted (msg_messageId m) failed;
        Nack msg false true] /\
     (latency = 500 \/ latency = 300 \/ latency = 400)) /\
  origin_queue (snd out) = msg :: origin_queue w /\
  dead_letter_queue (snd out) = dead_letter_queue w.
Proof.
  intros Hc Hh Hlt Hsim Hup.
  destruct (HANDLERS_inv channelType handler Hh)
    as (c & latency & says & b & -> & Hlat).
  destruct (reported_failure_is_nacked msg m channelType c latency says b w
              Hc Hh Hsim Hup) as (evs & Hrun & Hact).
  cbv zeta in Hrun, Hact.
  destruct (Z.ltb_spec (default 0 (msg_retryCount m))
              (default 3 (msg_maxRetries m))); [|lia].
  cbv zeta. rewrite Hrun. cbn [fst snd]. world_simpl.
  split; [reflexivity|]. split; [reflexivity|]. split; [reflexivity|].
  split; [|split; reflexivity].
  exists evs, latency. split; [reflexivity|]. split; [exact Hact | exact Hlat].
Qed.

Lemma consume_runs_processMessage (msg : AmqpMessage)
  (rest : list AmqpMessage) (channelType : string) (w : World) :
  origin_queue w = msg :: rest ->
  consume channelType w =
    processMessage msg channelType
      (with_broker rest (Some msg) (dead_letter_queue w) w).
Proof.
  intros Hq. unfold consume.
  erewrite bind_normal by reflexivity. rewrite Hq.
  erewrite bind_normal by reflexivity. reflexivity.
Qed.

(** One round of the scenario of C2, from any world in which [hello_msg]
    waits alone on the queue and every delivery fails. *)
Lemma failing_round (w : World) :
  (forall k, oracle w k = delivery_fails) ->
  origin_queue w = [hello_msg] ->
  exists w',
    consume "email" w = (Normal tt, w') /\
    (forall k, oracle w' k = delivery_fails) /\
    origin_queue w' = [hello_msg] /\
    dead_letter_queue w' = dead_letter_queue w /\
    attempts w' = S (attempts w) /\
    inflight w' = Some hello /\
    status_of "msg_uuid1" w' = Some failed /\
    List.filter is_broker_call (trace w') =
      List.filter is_broker_call (trace w) ++ [Nack hello_msg false true].
Proof.
  intros Ho Hq.
  rewrite (consume_runs_processMessage hello_msg [] "email" w Hq).
  edestruct (reported_failure_is_nacked hello_msg hello "email" email 500
               {| says_start := "Delivering email";
                  says_done := "Email delivered successfully";
                  says_failed := "Email delivery failed" |} true
               (with_broker [] (Some hello_msg) (dead_letter_queue w) w))
    as (evs & Hrun & Hact).
  - reflexivity.
  - reflexivity.
  - world_simpl. rewrite Ho. reflexivity.
  - world_simpl. rewrite Ho. reflexivity.
  - cbv zeta in Hrun. rewrite Hrun. clear Hrun.
    change (default 0 (msg_retryCount hello) <? default 3 (msg_maxRetries hello))
      with true in *.
    eexists. split; [reflexivity|].
    world_simpl.
    split; [exact Ho|]. split; [reflexivity|]. split; [reflexivity|].
    split; [reflexivity|]. split; [reflexivity|]. split.
    + unfold status_of. world_simpl.
      edestruct findOne_upsert as (d & Hf & Hst & _); [|rewrite Hf; cbn; rewrite Hst; reflexivity].
      reflexivity.
    + rewrite List.filter_app. f_equal.
      assert (Hsub : forall e, is_broker_call e = true -> is_action e = true).
      { intros [] H; try discriminate H; reflexivity. }
      transitivity (List.filter is_broker_call (List.filter is_action evs)).
      * clear -Hsub. induction evs as [|e evs IH]; [reflexivity|].
        cbn. destruct (is_broker_call e) eqn:E.
        -- rewrite (Hsub e E). cbn. rewrite E. f_equal. exact IH.
        -- destruct (is_action e); cbn; rewrite ?E; exact IH.
      * rewrite Hact. reflexivity.
Qed.

Lemma failing_rounds (n : nat) (w : World) :
  (forall k, oracle w k = delivery_fails) ->
  origin_queue w = [hello_msg] ->
  exists w',
    consume_times n "email" w = (Normal tt, w') /\
    origin_queue w' = [hello_msg] /\
    dead_letter_queue w' = dead_letter_queue w /\
    attempts w' = (attempts w + n)%nat /\
    (n <> 0%nat -> inflight w' = Some hello /\
                   status_of "msg_uuid1" w' = Some failed) /\
    List.filter is_broker_call (trace w') =
      List.filter is_broker_call (trace w)
      ++ repeat (Nack hello_msg false true) n.
Proof.
  revert w. induction n as [|n IH]; intros w Ho Hq.
  - exists w. cbn. rewrite app_nil_r, Nat.add_0_r.
    repeat split; try reflexivity; try exact Hq; contradiction.
  - destruct (failing_round w Ho Hq)
      as (w1 & Hrun & Ho1 & Hq1 & Hd1 & Ha1 & Hi1 & Hs1 & Ht1).
    destruct (IH w1 Ho1 Hq1) as (w' & Hrun' & Hq' & Hd' & Ha' & Hs' & Ht').
    exists w'. cbn [consume_times].
    erewrite bind_normal by exact Hrun.
    split; [exact Hrun'|]. split; [exact Hq'|].
    split; [congruence|]. split; [lia|]. split.
    + intros _. destruct n as [|n]; [|apply Hs'; discriminate].
      cbn in Hrun'. inversion Hrun'; subst w'. split; assumption.
    + rewrite Ht', Ht1, <- app_assoc. reflexivity.
Qed.

(** C2, the code at an input where it departs from the claim.  The
    delivery of [hello] ([maxRetries] 3) fails every time, and the store
    works.  After [n] failed attempts, for [n] = 4 and for every other
    [n], the broker was told [n] times to requeue the message, which is
    on its origin queue with the counter it came with; the dead-letter
    queue is empty. *)
Theorem failing_delivery_is_requeued_forever (n : nat) :
  let out :=
    consume_times (S n) "email"
      (idle_world (fun _ => delivery_fails) [hello_msg]) in
  fst out = Normal tt /\
  attempts (snd out) = S n /\
  List.filter is_broker_call (trace (snd out))
    = repeat (Nack hello_msg false true) (S n) /\
  origin_queue (snd out) = [hello_msg] /\
  retryCount_of (content hello_msg) = 0 /\
  dead_letter_queue (snd out) = [] /\
  inflight (snd out) = Some hello /\
  status_of "msg_uuid1" (snd out) = Some failed.
Proof.
  destruct (failing_rounds (S n) (idle_world (fun _ => delivery_fails) [hello_msg]))
    as (w' & Hrun & Hq & Hd & Ha & Hs & Ht); [reflexivity | reflexivity |].
  cbv zeta. rewrite Hrun. cbn [fst snd].
  destruct Hs as [Hi Hs]; [discriminate|].
  repeat split; assumption || reflexivity.
Qed.

(** *** Claims about messages that cannot be processed *)

(** C5, as amended.  A message whose payload does not parse, or whose
    channel has no handler, is logged as a delivery error and rejected
    at once: no handler is called, no timer is set, the store is not
    touched.  The rejection asks for a requeue as long as the payload's
    [retryCount] (0 if absent or unreadable) is below its [maxRetries]
    (3 if absent or unreadable), so an unparsable payload always goes
    back to its queue; only otherwise does the message go to the
    dead-letter queue. *)
Theorem unprocessable_message_is_rejected_at_once
  (msg : AmqpMessage) (channelType : string) (w : World) :
  (exists raw, content msg = Garbled raw) \/ HANDLERS channelType = None ->
  let requeue :=
    retryCount_of (content msg) <? maxRetries_of (content msg) in
  exists evs,
    processMessage msg channelType w =
      (Normal tt,
       nacked msg requeue
         (logged evs (with_inflight (parsed (content msg)) w))) /\
    List.filter is_action evs = [Nack msg false requeue] /\
    Console error "Delivery error" ∈ evs /\
    ((exists raw, content msg = Garbled raw) -> requeue = true).
Proof.
  intros Hwhy. cbv zeta.
  destruct (content msg) as [raw | m] eqn:Hc.
  - rewrite (processMessage_garbled msg raw channelType w Hc).
    destruct (handleDeliveryError_run msg None channelType
                "Unexpected token in JSON" (with_inflight None w))
      as (evs & Hrun & Hact & Hin).
    exists evs. rewrite Hrun. cbn.
    repeat split; assumption || reflexivity.
  - destruct Hwhy as [[raw Hraw] | Hnone]; [discriminate Hraw|].
    destruct (processMessage_parsed msg m channelType w Hc)
      as (evs0 & Hq0 & Hp).
    cbv zeta in Hp. rewrite Hnone in Hp. rewrite Hp.
    match goal with
    | |- context [handleDeliveryError ?a ?b ?c ?d ?e] =>
        destruct (handleDeliveryError_run a b c d e) as (evs1 & Hrun & Hact & Hin)
    end.
    rewrite Hrun. exists (evs0 ++ evs1). cbn [mbind option_bind] in *.
    split; [|split; [|split]].
    + f_equal. unfold retryCount_of, maxRetries_of.
      destruct (_ <? _); same_world.
    + rewrite List.filter_app, Hq0, Hact. reflexivity.
    + apply elem_of_app. right. exact Hin.
    + intros [raw Hraw]. discriminate Hraw.
Qed.

(** *** Claims about the persisted status *)

(** C3, as amended.  A delivery handler writes no other status than
    delivered and failed; a delivery that succeeds is recorded as
    delivered by a single write (the document never holds queued or
    processing), and a delivery that fails is recorded as failed; each
    of them replaces whatever status the document had, a terminal one
    included. *)
Theorem persisted_status_is_the_latest_outcome
  (channelType : string) (handler : Message -> M World Result)
  (m : Message) (w : World) :
  HANDLERS channelType = Some handler ->
  let out := handler m w in
  let env := oracle w (attempts w) in
  (forall d, d ∈ store (snd out) ->
             d ∈ store w \/ doc_status d = delivered \/ doc_status d = failed) /\
  (random_below_failureRate env = false ->
   delivered_upsert_fault env = None ->
   fst out = Normal {| res_success := true; res_error := None |} /\
   status_of (msg_messageId m) (snd out) = Some delivered /\
   exists evs,
     trace (snd out) = trace w ++ evs /\
     List.filter is_upsert evs = [Upserted (msg_messageId m) delivered]) /\
  (random_below_failureRate env = true ->
   failed_upsert_fault env = None ->
   (exists reason,
      fst out = Normal {| res_success := false; res_error := Some reason |}) /\
   status_of (msg_messageId m) (snd out) = Some failed).
Proof.
  intros Hh.
  destruct (HANDLERS_inv channelType handler Hh) as (c & l & s & b & -> & _).
  cbv zeta. split; [|split].
  - intros d Hd.
    destruct (handle_store c l s b m w)
      as (r & w' & Hrun & _ & _ & _ & _ & _ & _ & _ & Hst & _).
    rewrite Hrun in Hd. cbn [snd] in Hd.
    destruct Hst as [Hsame | (u & now & Hup & _ & Hs)].
    + left. rewrite <- Hsame. exact Hd.
    + rewrite Hup in Hd.
      destruct (upsert_elements _ _ _ _ _ Hd) as [Hin | Hst];
        [left; exact Hin | right].
      rewrite Hst. exact Hs.
  - intros Hsim Hup.
    rewrite (handle_delivers c l s b m w Hsim Hup). cbn [fst snd].
    split; [reflexivity|]. split.
    + unfold status_of. world_simpl.
      edestruct findOne_upsert as (d & Hf & Hst & _);
        [|rewrite Hf; cbn; rewrite Hst; reflexivity].
      reflexivity.
    + eexists. split; [reflexivity | reflexivity].
  - intros Hsim Hup.
    rewrite (handle_reports_failure c l s b m w Hsim Hup). cbn [fst snd].
    split; [eexists; reflexivity|].
    unfold status_of. world_simpl.
    edestruct findOne_upsert as (d & Hf & Hst & _);
      [|rewrite Hf; cbn; rewrite Hst; reflexivity].
    reflexivity.
Qed.

Lemma findOne_upsert_found (id : string) (u : Update) (now : Z)
  (docs : list Doc) (d : Doc) :
  up_messageId u = id ->
  findOne id docs = Some d ->
  findOne id (upsert id u now docs) = Some (apply_set u d).
Proof.
  intros Hid. unfold findOne.
  induction docs as [|d0 rest IH]; cbn; [discriminate|].
  destruct (String.eqb (doc_messageId d0) id) eqn:E; cbn.
  - intros [= ->]. rewrite Hid, String.eqb_refl. reflexivity.
  - rewrite E. exact IH.
Qed.

(** Writing the same outcome a second time, at [t2]: the fields of the
    document are those of the first write, with the new instant in
    [deliveredAt] and [updatedAt]. *)
Lemma delivered_twice (c : Channel) (b : bool) (m : Message) (t1 t2 : Z)
  (docs : list Doc) (d1 : Doc) :
  let id := msg_messageId m in
  findOne id (upsert id (delivered_update c b m t1) t1 docs) = Some d1 ->
  apply_set (delivered_update c b m t2) d1 = delivered_again t2 d1.
Proof.
  cbv zeta. intros Hf.
  destruct (findOne_upsert (msg_messageId m) (delivered_update c b m t1) t1
              docs eq_refl) as (d & Hf' & _ & Hd).
  rewrite Hf in Hf'. injection Hf' as <-.
  destruct Hd as [-> | (d0 & _ & ->)];
    unfold apply_set, insert_doc, delivered_again, delivered_update; cbn;
    destruct b, (msg_subject m), (msg_metadata m); reflexivity.
Qed.

Lemma failed_twice (c : Channel) (b : bool) (m : Message) (reason : string)
  (t1 t2 : Z) (docs : list Doc) (d1 : Doc) :
  let id := msg_messageId m in
  findOne id (upsert id (failed_update c b m reason t1) t1 docs) = Some d1 ->
  apply_set (failed_update c b m reason t2) d1 = failed_again t2 d1.
Proof.
  cbv zeta. intros Hf.
  destruct (findOne_upsert (msg_messageId m) (failed_update c b m reason t1) t1
              docs eq_refl) as (d & Hf' & _ & Hd).
  rewrite Hf in Hf'. injection Hf' as <-.
  destruct Hd as [-> | (d0 & _ & ->)];
    unfold apply_set, insert_doc, failed_again, failed_update; cbn;
    destruct b, (msg_subject m), (msg_metadata m); reflexivity.
Qed.

(** C9, as amended.  The status upsert is keyed by the message id: in a
    collection that holds at most one document of the message, writing a
    terminal outcome once or twice leaves exactly one.  The second write
    changes nothing but the instants: the document after it is the
    document after the first write with [deliveredAt] (or [failedAt])
    and [updatedAt] set to the time of the second write; when both
    writes carry the same instant the collection is the same. *)
Theorem terminal_upsert_keeps_one_record
  (channel : Channel) (with_subject : bool) (m : Message) (reason : string)
  (t1 t2 : Z) (docs : list Doc) :
  (count_id (msg_messageId m) docs <= 1)%nat ->
  let id := msg_messageId m in
  let written (u : Z -> Update) (again : Z -> Doc -> Doc) :=
    let once := upsert id (u t1) t1 docs in
    let twice := upsert id (u t2) t2 once in
    count_id id once = 1%nat /\
    count_id id twice = 1%nat /\
    (exists d, findOne id once = Some d /\
               findOne id twice = Some (again t2 d)) /\
    (t1 = t2 -> twice = once) in
  written (delivered_update channel with_subject m) delivered_again /\
  written (failed_update channel with_subject m reason) failed_again.
Proof.
  intros Hone. cbv zeta.
  split.
  - rewrite !count_id_upsert by reflexivity.
    split; [lia|]. split; [lia|]. split.
    + destruct (findOne_upsert (msg_messageId m)
                  (delivered_update channel with_subject m t1) t1 docs eq_refl)
        as (d & Hf & _).
      exists d. split; [exact Hf|].
      rewrite (findOne_upsert_found (msg_messageId m)
                 (delivered_update channel with_subject m t2) t2 _ d eq_refl Hf).
      f_equal. eapply delivered_twice. exact Hf.
    + intros <-. apply upsert_upsert. reflexivity.
  - rewrite !count_id_upsert by reflexivity.
    split; [lia|]. split; [lia|]. split.
    + destruct (findOne_upsert (msg_messageId m)
                  (failed_update channel with_subject m reason t1) t1 docs eq_refl)
        as (d & Hf & _).
      exists d. split; [exact Hf|].
      rewrite (findOne_upsert_found (msg_messageId m)
                 (failed_update channel with_subject m reason t2) t2 _ d eq_refl Hf).
      f_equal. eapply failed_twice. exact Hf.
    + intros <-. apply upsert_upsert. reflexivity.
Qed.

End DeliveryFacts.

(** *** Runs of the consumer on concrete inputs *)

(** Witness of [reported_delivery_failure_skips_the_backoff]: the
    delivery of [hello], with [retryCount] 0 and [maxRetries] 3, fails
    once. *)
Lemma reported_delivery_failure_witness :
  let w := Delivery.idle_world (fun _ => Delivery.delivery_fails) [] in
  let out := Delivery.processMessage Delivery.hello_msg "email" w in
  (default 0 (msg_retryCount Delivery.hello)
   < default 3 (msg_maxRetries Delivery.hello)) /\
  fst out = Normal tt /\
  Delivery.attempts (snd out) = 1%nat /\
  Delivery.inflight (snd out) = Some Delivery.hello /\
  Delivery.origin_queue (snd out) = [Delivery.hello_msg] /\
  Delivery.dead_letter_queue (snd out) = [].
Proof.
  cbv zeta.
  assert (Hlt : default 0 (msg_retryCount Delivery.hello)
                < default 3 (msg_maxRetries Delivery.hello)) by (cbn; lia).
  destruct (reported_delivery_failure_skips_the_backoff Delivery.hello_msg
              Delivery.hello "email" Delivery.handleEmailDelivery
              (Delivery.idle_world (fun _ => Delivery.delivery_fails) [])
              eq_refl eq_refl Hlt eq_refl eq_refl)
    as (Hn & Ha & Hi & _ & Hq & Hd).
  repeat split; assumption.
Defined.

(** The same run, call by call. *)
Lemma reported_delivery_failure_trace :
  let out :=
    Delivery.consume "email"
      (Delivery.idle_world (fun _ => Delivery.delivery_fails)
         [Delivery.hello_msg]) in
  fst out = Normal tt /\
  List.filter Delivery.is_action (Delivery.trace (snd out)) =
    [Delivery.Timeout 500; Delivery.Upserted "msg_uuid1" failed;
     Delivery.Nack Delivery.hello_msg false true].
Proof. vm_compute. split; reflexivity. Qed.

(** The dead-letter branch is taken when the payload itself carries a
    counter that has reached [maxRetries]: the failure is recorded with
    its instant and reason, and the message is rejected without
    requeue. *)
Lemma spent_payload_is_dead_lettered :
  let out :=
    Delivery.consume "email"
      (Delivery.idle_world (fun _ => Delivery.delivery_fails)
         [Delivery.spent_msg]) in
  fst out = Normal tt /\
  List.filter Delivery.is_action (Delivery.trace (snd out)) =
    [Delivery.Timeout 500; Delivery.Upserted "msg_uuid1" failed;
     Delivery.Nack Delivery.spent_msg false false] /\
  Delivery.origin_queue (snd out) = [] /\
  Delivery.dead_letter_queue (snd out) = [Delivery.spent_msg] /\
  (fun d => (Delivery.doc_status d, Delivery.doc_failedAt d,
             Delivery.doc_errorMessage d, Delivery.doc_retryCount d))
    <$> Delivery.findOne "msg_uuid1" (Delivery.store (snd out))
  = Some (failed, Some 5500, Some "Simulated email delivery failure", 3).
Proof. vm_compute. repeat split; reflexivity. Qed.

(** Witness of [unprocessable_message_is_rejected_at_once]: a payload
    that is not JSON. *)
Lemma unprocessable_message_witness :
  (exists raw, Delivery.content Delivery.garbled_msg = Delivery.Garbled raw) /\
  exists evs,
    Delivery.processMessage Delivery.garbled_msg "email"
      (Delivery.idle_world (fun _ => Delivery.goes_well) []) =
      (Normal tt,
       Delivery.nacked Delivery.garbled_msg true
         (Delivery.logged evs
            (Delivery.with_inflight None
               (Delivery.idle_world (fun _ => Delivery.goes_well) [])))) /\
    List.filter Delivery.is_action evs =
      [Delivery.Nack Delivery.garbled_msg false true].
Proof.
  assert (H : exists raw,
            Delivery.content Delivery.garbled_msg = Delivery.Garbled raw).
  { eexists. reflexivity. }
  split; [exact H|].
  destruct (unprocessable_message_is_rejected_at_once Delivery.garbled_msg
              "email" (Delivery.idle_world (fun _ => Delivery.goes_well) [])
              (or_introl H)) as (evs & Hrun & Hact & _).
  exists evs. split; [exact Hrun | exact Hact].
Defined.

(** C5, counterexample.  A payload that does not parse, and a message
    that arrives on a channel without handler, are rejected with
    [requeue = true]: each is back on its origin queue, and the
    dead-letter queue is empty. *)
Lemma unprocessable_message_is_requeued :
  let unparsable :=
    Delivery.consume "email"
      (Delivery.idle_world (fun _ => Delivery.goes_well) [Delivery.garbled_msg]) in
  let unhandled :=
    Delivery.consume "push"
      (Delivery.idle_world (fun _ => Delivery.goes_well) [Delivery.hello_msg]) in
  Delivery.HANDLERS "push" = None /\
  (fst unparsable = Normal tt /\
   List.filter Delivery.is_action (Delivery.trace (snd unparsable)) =
     [Delivery.Nack Delivery.garbled_msg false true] /\
   Delivery.origin_queue (snd unparsable) = [Delivery.garbled_msg] /\
   Delivery.dead_letter_queue (snd unparsable) = []) /\
  (fst unhandled = Normal tt /\
   List.filter Delivery.is_action (Delivery.trace (snd unhandled)) =
     [Delivery.Nack Delivery.hello_msg false true] /\
   Delivery.origin_queue (snd unhandled) = [Delivery.hello_msg] /\
   Delivery.dead_letter_queue (snd unhandled) = []).
Proof. vm_compute. repeat split; reflexivity. Qed.

(** Witness of [persisted_status_is_the_latest_outcome]: the email
    handler on a delivery that succeeds. *)
Lemma persisted_status_witness :
  Delivery.HANDLERS "email" = Some Delivery.handleEmailDelivery /\
  Delivery.status_of "msg_uuid1"
    (snd (Delivery.handleEmailDelivery Delivery.hello
            (Delivery.idle_world (fun _ => Delivery.goes_well) [])))
  = Some delivered.
Proof.
  split; [reflexivity|].
  exact (proj1 (proj2 (proj1 (proj2
           (persisted_status_is_the_latest_outcome "email"
              Delivery.handleEmailDelivery Delivery.hello
              (Delivery.idle_world (fun _ => Delivery.goes_well) [])
              eq_refl))
           eq_refl eq_refl))).
Defined.

(** C3, counterexample.  A first delivery that succeeds writes
    delivered and nothing before it.  A first delivery that fails
    records the terminal status failed and sends the message back to
    the queue; the next delivery succeeds and the status of the same
    message becomes delivered. *)
Lemma status_changes_after_a_terminal_status :
  let lucky :=
    snd (Delivery.consume "email"
           (Delivery.idle_world (fun _ => Delivery.goes_well)
              [Delivery.hello_msg])) in
  let w0 := Delivery.idle_world Delivery.fails_once [Delivery.hello_msg] in
  let w1 := snd (Delivery.consume "email" w0) in
  let w2 := snd (Delivery.consume "email" w1) in
  List.filter Delivery.is_upsert (Delivery.trace lucky) =
    [Delivery.Upserted "msg_uuid1" delivered] /\
  Delivery.status_of "msg_uuid1" w0 = None /\
  Delivery.status_of "msg_uuid1" w1 = Some failed /\
  is_terminal failed = true /\
  Delivery.status_of "msg_uuid1" w2 = Some delivered /\
  List.filter Delivery.is_upsert (Delivery.trace w2) =
    [Delivery.Upserted "msg_uuid1" failed;
     Delivery.Upserted "msg_uuid1" delivered].
Proof. vm_compute. repeat split; reflexivity. Qed.

(** Witness of [terminal_upsert_keeps_one_record]: an empty
    collection. *)
Lemma terminal_upsert_witness :
  (Delivery.count_id (msg_messageId Delivery.hello) [] <= 1)%nat /\
  Delivery.count_id "msg_uuid1"
    (Delivery.upsert "msg_uuid1"
       (Delivery.delivered_update email true Delivery.hello 6000) 6000
       (Delivery.upsert "msg_uuid1"
          (Delivery.delivered_update email true Delivery.hello 5500) 5500 []))
  = 1%nat.
Proof.
  assert (H : (Delivery.count_id (msg_messageId Delivery.hello) [] <= 1)%nat).
  { cbn. lia. }
  split; [exact H|].
  exact (proj1 (proj2 (proj1
           (terminal_upsert_keeps_one_record email true Delivery.hello
              "Simulated email delivery failure" 5500 6000 [] H)))).
Defined.

(** C9, counterexample.  The email handler delivers [hello] twice, as
    after a redelivery by the broker.  There is one document after each
    run, but it is not the same document: [deliveredAt] and [updatedAt]
    are 5500 after the first write and 6000 after the second. *)
Lemma replayed_outcome_changes_the_record :
  let w1 := snd (Delivery.handleEmailDelivery Delivery.hello
                   (Delivery.idle_world (fun _ => Delivery.goes_well) [])) in
  let w2 := snd (Delivery.handleEmailDelivery Delivery.hello w1) in
  Delivery.count_id "msg_uuid1" (Delivery.store w1) = 1%nat /\
  Delivery.count_id "msg_uuid1" (Delivery.store w2) = 1%nat /\
  Delivery.doc_deliveredAt <$> Delivery.findOne "msg_uuid1" (Delivery.store w1)
    = Some (Some 5500) /\
  Delivery.doc_deliveredAt <$> Delivery.findOne "msg_uuid1" (Delivery.store w2)
    = Some (Some 6000) /\
  Delivery.findOne "msg_uuid1" (Delivery.store w2)
    <> Delivery.findOne "msg_uuid1" (Delivery.store w1).
Proof.
  vm_compute. repeat split; try reflexivity. discriminate.
Qed.

(** ** The matcher and the two recipient formats *)

Section RegexFacts.

Lemma append_cons (c : ascii) (s t : string) :
  String c s +:+ t = String c (s +:+ t).
Proof. reflexivity. Qed.

Lemma append_nil_r (s : string) : s +:+ "" = s.
Proof.
  induction s as [|c s IH]; [reflexivity|].
  rewrite append_cons, IH. reflexivity.
Qed.

Lemma append_assoc (a b c : string) : (a +:+ b) +:+ c = a +:+ (b +:+ c).
Proof.
  induction a as [|x a IH]; [reflexivity|].
  rewrite !append_cons, IH. reflexivity.
Qed.

Lemma append_eq_nil (a b : string) : a +:+ b = "" -> a = "" /\ b = "".
Proof.
  destruct a; [change ("" +:+ b) with b; intros ->; split; reflexivity|].
  rewrite append_cons. discriminate.
Qed.

Lemma length_append (a b : string) :
  String.length (a +:+ b) = (String.length a + String.length b)%nat.
Proof.
  induction a as [|x a IH]; [reflexivity|].
  rewrite append_cons. cbn. rewrite IH. reflexivity.
Qed.

Lemma all_of_append (p : ascii -> bool) (a b : string) :
  all_of p (a +:+ b) = all_of p a && all_of p b.
Proof.
  induction a as [|x a IH]; [reflexivity|].
  rewrite append_cons. cbn. rewrite IH, andb_assoc. reflexivity.
Qed.

Lemma nullable_matches (r : regex) : nullable r = true <-> matches r "".
Proof.
  split.
  - induction r as [| | p | r1 IH1 r2 IH2 | r1 IH1 r2 IH2 | r IH]; cbn;
      try discriminate; intros H.
    + constructor.
    + apply andb_true_iff in H as [H1 H2].
      change "" with ("" +:+ ""). constructor; auto.
    + apply orb_true_iff in H as [H | H];
        [apply matches_alt_l | apply matches_alt_r]; auto.
    + constructor.
  - intros H. remember "" as s eqn:Hs.
    induction H as [| p c Hp | r1 r2 s1 s2 H1 IH1 H2 IH2 | r1 r2 s H IH
                    | r1 r2 s H IH | r | r s1 s2 H1 IH1 H2 IH2]; cbn;
      try reflexivity; try discriminate.
    + apply append_eq_nil in Hs as [-> ->]. rewrite IH1, IH2; reflexivity.
    + rewrite IH by assumption. reflexivity.
    + rewrite IH by assumption. apply orb_true_r.
Qed.

Lemma deriv_sound (c : ascii) (r : regex) (s : string) :
  matches (deriv c r) s -> matches r (String c s).
Proof.
  revert s.
  induction r as [| | p | r1 IH1 r2 IH2 | r1 IH1 r2 IH2 | r IH]; cbn; intros s H.
  - inversion H.
  - inversion H.
  - destruct (p c) eqn:Hp; inversion H; subst. constructor. exact Hp.
  - destruct (nullable r1) eqn:Hn.
    + inversion H as [| | | ? ? ? Hl | ? ? ? Hr | |]; subst.
      * inversion Hl as [| | ? ? s1 s2 Ha Hb | | | |]; subst.
        change (String c (s1 +:+ s2)) with (String c s1 +:+ s2).
        constructor; auto.
      * change (String c s) with ("" +:+ String c s).
        constructor; [apply nullable_matches; exact Hn | auto].
    + inversion H as [| | ? ? s1 s2 Ha Hb | | | |]; subst.
      change (String c (s1 +:+ s2)) with (String c s1 +:+ s2).
      constructor; auto.
  - inversion H; subst; [apply matches_alt_l | apply matches_alt_r]; auto.
  - inversion H as [| | ? ? s1 s2 Ha Hb | | | |]; subst.
    change (String c (s1 +:+ s2)) with (String c s1 +:+ s2).
    constructor; auto.
Qed.

Lemma deriv_complete (c : ascii) (r : regex) (s : string) :
  matches r (String c s) -> matches (deriv c r) s.
Proof.
  intros H. remember (String c s) as s' eqn:Hs. revert s Hs.
  induction H as [| p c' Hp | r1 r2 s1 s2 H1 IH1 H2 IH2 | r1 r2 s' H IH
                  | r1 r2 s' H IH | r | r s1 s2 H1 IH1 H2 IH2];
    intros s Hs; cbn.
  - discriminate.
  - injection Hs as -> <-. rewrite Hp. constructor.
  - destruct s1 as [|x s1];
      [change ("" +:+ s2) with s2 in Hs | rewrite append_cons in Hs].
    + subst s2. apply nullable_matches in H1. rewrite H1.
      apply matches_alt_r. apply IH2. reflexivity.
    + injection Hs as -> <-.
      assert (Hd : matches (Seq (deriv c r1) r2) (s1 +:+ s2)).
      { constructor; [apply IH1; reflexivity | exact H2]. }
      destruct (nullable r1); [apply matches_alt_l|]; exact Hd.
  - apply matches_alt_l. apply IH. exact Hs.
  - apply matches_alt_r. apply IH. exact Hs.
  - discriminate.
  - destruct s1 as [|x s1];
      [change ("" +:+ s2) with s2 in Hs | rewrite append_cons in Hs].
    + apply IH2. exact Hs.
    + injection Hs as -> <-. constructor; [apply IH1; reflexivity | exact H2].
Qed.

(** The matcher decides membership in the language. *)
Lemma test_matches (r : regex) (s : string) :
  test r s = true <-> matches r s.
Proof.
  revert r. induction s as [|c s IH]; intros r; cbn.
  - apply nullable_matches.
  - rewrite IH. split; [apply deriv_sound | apply deriv_complete].
Qed.

Lemma matches_seq_iff (r1 r2 : regex) (s : string) :
  matches (Seq r1 r2) s <->
  exists s1 s2, s = s1 +:+ s2 /\ matches r1 s1 /\ matches r2 s2.
Proof.
  split.
  - intros H. inversion H; subst. eauto.
  - intros (s1 & s2 & -> & H1 & H2). constructor; assumption.
Qed.

Lemma matches_class_iff (p : ascii -> bool) (s : string) :
  matches (Class p) s <-> exists c, s = String c "" /\ p c = true.
Proof.
  split.
  - intros H. inversion H; subst. eauto.
  - intros (c & -> & Hp). constructor. exact Hp.
Qed.

Lemma matches_chr_iff (c : ascii) (s : string) :
  matches (Chr c) s <-> s = String c "".
Proof.
  unfold Chr. rewrite matches_class_iff. split.
  - intros (x & -> & Hx). apply Ascii.eqb_eq in Hx. subst. reflexivity.
  - intros ->. exists c. split; [reflexivity | apply Ascii.eqb_refl].
Qed.

Lemma matches_opt_iff (r : regex) (s : string) :
  matches (Opt r) s <-> s = "" \/ matches r s.
Proof.
  unfold Opt. split.
  - intros H. inversion H as [| | | ? ? ? Hl | ? ? ? Hr | |]; subst.
    + inversion Hl. left. reflexivity.
    + right. assumption.
  - intros [-> | H]; [apply matches_alt_l; constructor | apply matches_alt_r; exact H].
Qed.

Lemma matches_star_class (p : ascii -> bool) (s : string) :
  matches (Star (Class p)) s <-> all_of p s = true.
Proof.
  split.
  - intros H. remember (Star (Class p)) as r eqn:Hr.
    induction H as [| | | | | r' | r' s1 s2 H1 IH1 H2 IH2]; try discriminate.
    + reflexivity.
    + injection Hr as ->. inversion H1; subst.
      rewrite append_cons. change ("" +:+ s2) with s2. cbn.
      rewrite IH2 by reflexivity.
      match goal with H : p _ = true |- _ => rewrite H end. reflexivity.
  - induction s as [|c s IH]; cbn; intros H.
    + constructor.
    + apply andb_true_iff in H as [Hc Hs].
      change (String c s) with (String c "" +:+ s).
      constructor; [constructor; exact Hc | apply IH; exact Hs].
Qed.

Lemma matches_plus_class (p : ascii -> bool) (s : string) :
  matches (Plus (Class p)) s <-> s <> "" /\ all_of p s = true.
Proof.
  unfold Plus. rewrite matches_seq_iff. split.
  - intros (s1 & s2 & -> & H1 & H2).
    apply matches_class_iff in H1 as (c & -> & Hc).
    apply matches_star_class in H2.
    rewrite append_cons. change ("" +:+ s2) with s2. cbn. rewrite Hc, H2.
    split; [discriminate | reflexivity].
  - intros [Hne H]. destruct s as [|c s]; [contradiction|].
    cbn in H. apply andb_true_iff in H as [Hc Hs].
    exists (String c ""), s. split; [reflexivity|].
    split; [constructor; exact Hc | apply matches_star_class; exact Hs].
Qed.

Lemma matches_atmost_class (p : ascii -> bool) (n : nat) (s : string) :
  matches (AtMost n (Class p)) s <->
  all_of p s = true /\ (String.length s <= n)%nat.
Proof.
  revert s. induction n as [|n IH]; intros s; cbn [AtMost].
  - split.
    + intros H. inversion H. split; [reflexivity | cbn; lia].
    + intros [_ Hl]. destruct s; [constructor | cbn in Hl; lia].
  - rewrite matches_opt_iff, matches_seq_iff. split.
    + intros [-> | (s1 & s2 & -> & H1 & H2)].
      * split; [reflexivity | cbn; lia].
      * apply matches_class_iff in H1 as (c & -> & Hc).
        apply IH in H2 as [Ha Hl].
        rewrite append_cons. change ("" +:+ s2) with s2. cbn. rewrite Hc, Ha.
        split; [reflexivity | lia].
    + intros [Ha Hl]. destruct s as [|c s]; [left; reflexivity | right].
      cbn in Ha, Hl. apply andb_true_iff in Ha as [Hc Hs].
      exists (String c ""), s. split; [reflexivity|].
      split; [constructor; exact Hc | apply IH; split; [exact Hs | lia]].
Qed.

(** X1.  The recipients that pass the email check are the strings
    local@domain.tld whose three parts are not empty and contain neither
    whitespace nor "@" (the domain and the tld may themselves contain
    dots). *)
Theorem isValidEmail_shape (s : string) :
  isValidEmail s = true <->
  exists a b c,
    s = a +:+ "@" +:+ b +:+ "." +:+ c /\
    a <> "" /\ b <> "" /\ c <> "" /\
    all_of not_space_at a = true /\
    all_of not_space_at b = true /\
    all_of not_space_at c = true.
Proof.
  unfold isValidEmail. rewrite test_matches. unfold emailRegex.
  rewrite matches_seq_iff. split.
  - intros (a & s1 & -> & Ha & H).
    apply matches_seq_iff in H as (at_ & s2 & -> & Hat & H).
    apply matches_seq_iff in H as (b & s3 & -> & Hb & H).
    apply matches_seq_iff in H as (dot & c & -> & Hdot & Hc).
    apply matches_chr_iff in Hat as ->. apply matches_chr_iff in Hdot as ->.
    apply matches_plus_class in Ha as [? ?].
    apply matches_plus_class in Hb as [? ?].
    apply matches_plus_class in Hc as [? ?].
    exists a, b, c. repeat split; assumption.
  - intros (a & b & c & -> & Ha & Hb & Hc & Pa & Pb & Pc).
    exists a, ("@" +:+ b +:+ "." +:+ c). split; [reflexivity|].
    split; [apply matches_plus_class; split; assumption|].
    apply matches_seq_iff. exists "@", (b +:+ "." +:+ c).
    split; [reflexivity|]. split; [apply matches_chr_iff; reflexivity|].
    apply matches_seq_iff. exists b, ("." +:+ c).
    split; [reflexivity|].
    split; [apply matches_plus_class; split; assumption|].
    apply matches_seq_iff. exists ".", c.
    split; [reflexivity|]. split; [apply matches_chr_iff; reflexivity|].
    apply matches_plus_class; split; assumption.
Qed.

(** X2.  The recipients that pass the phone check are an optional "+", a
    digit from 1 to 9, and 1 to 14 further digits: 2 to 15 digits in
    all, the first of which is not 0. *)
Theorem isValidPhone_shape (s : string) :
  isValidPhone s = true <->
  exists d ds,
    (s = String d ds \/ s = String "+" (String d ds)) /\
    is_digit_1_9 d = true /\
    all_of is_digit ds = true /\
    (1 <= String.length ds <= 14)%nat.
Proof.
  unfold isValidPhone. rewrite test_matches. unfold phoneRegex.
  rewrite matches_seq_iff.
  assert (Hrest : forall t,
    matches (Seq (Class is_digit_1_9) (Repeat 1 13 (Class is_digit))) t <->
    exists d ds, t = String d ds /\ is_digit_1_9 d = true /\
                 all_of is_digit ds = true /\
                 (1 <= String.length ds <= 14)%nat).
  { intros t. rewrite matches_seq_iff. cbn [Repeat]. split.
    - intros (s1 & s2 & -> & H1 & H2).
      apply matches_class_iff in H1 as (d & -> & Hd).
      apply matches_seq_iff in H2 as (s3 & s4 & -> & H3 & H4).
      apply matches_class_iff in H3 as (x & -> & Hx).
      apply matches_atmost_class in H4 as [Ha Hl].
      exists d, (String x s4). cbn. rewrite Hx, Ha.
      repeat split; try assumption; try reflexivity; lia.
    - intros (d & ds & -> & Hd & Ha & Hl1 & Hl2).
      destruct ds as [|x ds]; [cbn in Hl1; lia|].
      cbn in Ha, Hl2. apply andb_true_iff in Ha as [Hx Ha].
      exists (String d ""), (String x ds). split; [reflexivity|].
      split; [constructor; exact Hd|].
      apply matches_seq_iff. exists (String x ""), ds.
      split; [reflexivity|]. split; [constructor; exact Hx|].
      apply matches_atmost_class. split; [exact Ha | lia]. }
  split.
  - intros (s1 & s2 & -> & H1 & H2).
    apply Hrest in H2 as (d & ds & -> & Hd & Ha & Hl).
    apply matches_opt_iff in H1 as [-> | H1].
    + exists d, ds. split; [left; reflexivity | auto].
    + apply matches_chr_iff in H1 as ->.
      exists d, ds. split; [right; reflexivity | auto].
  - intros (d & ds & [-> | ->] & Hd & Ha & Hl).
    + exists "", (String d ds). split; [reflexivity|].
      split; [apply matches_opt_iff; left; reflexivity|].
      apply Hrest. eauto 6.
    + exists "+", (String d ds). split; [reflexivity|].
      split; [apply matches_opt_iff; right; apply matches_chr_iff; reflexivity|].
      apply Hrest. eauto 6.
Qed.

End RegexFacts.

(** ** The router, case by case *)

Section RouterMore.
Import Router RouterSpec.
Variable sha256_hex : string -> string.

Lemma router_world_ext (a b : World) :
  cache a = cache b -> clock a = clock b -> uuids a = uuids b ->
  uuid_next a = uuid_next b -> faults a = faults b -> trace a = trace b ->
  a = b.
Proof. destruct a, b. cbn. intros; subst; reflexivity. Qed.

(** The validation turns away the inputs that violate a field rule, and
    no others. *)
Lemma validation_passes_exactly_the_valid (input : MessageInput) :
  validation_error input = None <-> ~ violates input.
Proof.
  split.
  - intros Hnone Hbad.
    destruct (validation_error_violates sha256_hex input Hbad) as (reason & Hr & _).
    congruence.
  - intros Hok. destruct (validation_error input) as [reason|] eqn:E;
      [|reflexivity].
    exfalso. apply Hok. exact (validation_error_only_violations input reason E).
Qed.

(** The submission, the log record and the completion of
    [routeMessage]. *)
Lemma routeMessage_events (message : Message) (w : World) :
  let o := sendToQueue_outcome (faults w) in
  exists l,
    routeMessage message w =
      (routing_completion o,
       logged ([submission message (clock w)] ++ sendLog_events w l ++
               match o with
               | SendTrue => [Console info "Message sent to queue"]
               | _ => []
               end) w) /\
    log_traceId l = Some (msg_traceId message) /\
    log_service l = "router" /\
    log_level l = match o with SendTrue => info | _ => error end /\
    log_error l = match o with
                  | SendTrue => None
                  | SendFalse => Some "Failed to send message to queue"
                  | SendThrows reason => Some reason
                  end.
Proof.
  cbv zeta.
  set (sub := "subtrace_" +:+ str_of_Z (clock w)).
  set (failure := fun reason : string =>
    {| log_service := "router"; log_level := error;
       log_message := "Failed to route message";
       log_traceId := Some (msg_traceId message); log_subtraceId := Some sub;
       log_messageId := Some (msg_messageId message);
       log_channel := channel_name (msg_channel message);
       log_queueName := None; log_retryCount := None;
       log_error := Some reason; log_duration := None;
       log_timestamp := clock w |}).
  unfold routeMessage, sendToQueue, emit, Date_now, logger, emit.
  unfold try_catch, bind, gets, modify, ret, throw.
  rewrite QUEUES_channel.
  destruct (sendToQueue_outcome (faults w)) as [| | reason] eqn:Ho.
  - exists {| log_service := "router"; log_level := info;
              log_message := "Message routed to queue";
              log_traceId := Some (msg_traceId message);
              log_subtraceId := Some sub;
              log_messageId := Some (msg_messageId message);
              log_channel := channel_name (msg_channel message);
              log_queueName :=
                Some (channel_name (msg_channel message) +:+ "_queue");
              log_retryCount := None; log_error := None;
              log_duration := None; log_timestamp := clock w |}.
    split; [|repeat split].
    cbn. rewrite Ho. cbn. rewrite sendLog_run. cbn.
    f_equal. apply router_world_ext; cbn; try reflexivity.
    unfold sendLog_events. cbn. rewrite <- !app_assoc. reflexivity.
  - exists (failure "Failed to send message to queue").
    split; [|repeat split].
    cbn. rewrite Ho. cbn. rewrite sendLog_run. cbn.
    f_equal. apply router_world_ext; cbn; try reflexivity.
    unfold sendLog_events. cbn. rewrite <- !app_assoc, app_nil_r. reflexivity.
  - exists (failure reason).
    split; [|repeat split].
    cbn. rewrite Ho. cbn. rewrite sendLog_run. cbn.
    f_equal. apply router_world_ext; cbn; try reflexivity.
    unfold sendLog_events. cbn. rewrite <- !app_assoc, app_nil_r. reflexivity.
Qed.

(** A request that passed the validation and the duplicate check: the
    message is drafted with a new id, submitted once, and the answer
    follows the broker. *)
Lemma sendMessage_routed_events (input : MessageInput) (w w2 : World) :
  validation_error input = None ->
  checkDuplicate sha256_hex input
    (logged [Console info "Received message request"] (took_uuid w))
  = (Normal false, w2) ->
  let traceId := "trace_" +:+ uuids w (uuid_next w) in
  let messageId := "msg_" +:+ uuids w2 (uuid_next w2) in
  let o := sendToQueue_outcome (faults w2) in
  exists l,
    sendMessage sha256_hex input w =
      (Normal
         match o with
         | SendTrue =>
             {| resp_success := true; resp_messageId := Some messageId;
                resp_traceId := traceId;
                resp_message := "Message queued successfully" |}
         | SendFalse =>
             {| resp_success := false; resp_messageId := None;
                resp_traceId := traceId;
                resp_message := "Error: Failed to send message to queue" |}
         | SendThrows reason =>
             {| resp_success := false; resp_messageId := None;
                resp_traceId := traceId;
                resp_message := "Error: " +:+ reason |}
         end,
       logged ([submission (drafted input traceId messageId (clock w2))
                  (clock w2)]
               ++ sendLog_events w2 l ++
               match o with
               | SendTrue => [Console info "Message sent to queue";
                              Console info "Message routed successfully"]
               | _ => [Console error "Error processing message"]
               end) (took_uuid w2)) /\
    log_traceId l = Some traceId /\
    log_service l = "router".
Proof.
  intros Hv Hdup. cbv zeta. unfold sendMessage.
  cbv beta iota; erewrite bind_normal by reflexivity.
  cbv beta iota; erewrite bind_normal by reflexivity.
  cbv beta iota; erewrite bind_normal by reflexivity.
  rewrite Hv. unfold try_catch.
  cbv beta iota; erewrite bind_normal by reflexivity.
  cbv beta iota; erewrite bind_normal by exact Hdup.
  cbv beta iota.
  erewrite bind_normal by reflexivity.
  cbv beta iota; erewrite bind_normal by reflexivity.
  match goal with
  | |- context [bind (routeMessage ?m) ?k ?w3] =>
      destruct (routeMessage_events m w3) as (l & Hr & Ht & Hs & _ & _)
  end.
  cbv zeta in Hr. cbn [faults took_uuid clock] in Hr.
  exists l. split; [|split; [exact Ht | exact Hs]].
  destruct (sendToQueue_outcome (faults w2)) eqn:Ho; cbn [routing_completion] in Hr.
  - cbv beta iota; erewrite bind_normal by exact Hr.
    cbv beta iota; erewrite bind_normal by reflexivity.
    unfold ret. f_equal.
    apply router_world_ext; cbn; try reflexivity.
    unfold sendLog_events. cbn. destruct (kafka_fault (faults w2)); cbn;
      rewrite <- ?app_assoc; reflexivity.
  - cbv beta iota; erewrite bind_thrown by exact Hr.
    cbv beta iota; erewrite bind_normal by reflexivity.
    unfold ret. f_equal.
    apply router_world_ext; cbn; try reflexivity.
    unfold sendLog_events. cbn. destruct (kafka_fault (faults w2)); cbn;
      rewrite <- ?app_assoc; reflexivity.
  - cbv beta iota; erewrite bind_thrown by exact Hr.
    cbv beta iota; erewrite bind_normal by reflexivity.
    unfold ret. f_equal.
    apply router_world_ext; cbn; try reflexivity.
    unfold sendLog_events. cbn. destruct (kafka_fault (faults w2)); cbn;
      rewrite <- ?app_assoc; reflexivity.
Qed.

Ltac side :=
  first [ reflexivity
        | cbn; rewrite <- ?app_assoc; reflexivity
        | repeat constructor ].

(** Every request ends in one of the rows of the table [answer]; the
    trace, the cache and the uuid counter that it leaves are those of
    that row. *)
Lemma sendMessage_outcome (input : MessageInput) (w : World) :
  exists evs,
    sendMessage sha256_hex input w =
      (Normal (answer sha256_hex input w),
       {| cache := cache_after sha256_hex input w;
          clock := clock w; uuids := uuids w;
          uuid_next :=
            S (uuid_next w + length (submissions sha256_hex input w));
          faults := faults w;
          trace := trace w ++ evs |}) /\
    List.filter touches_queue evs = submissions sha256_hex input w /\
    Forall (keyed_by ("trace_" +:+ uuids w (uuid_next w))) evs /\
    (length (List.filter is_kafka evs)
     <= length (submissions sha256_hex input w))%nat.
Proof.
  set (w1 := logged [Console info "Received message request"] (took_uuid w)).
  unfold answer, cache_after, submissions, is_duplicate, reserves.
  destruct (validation_error input) as [reason|] eqn:Hv.
  { rewrite (sendMessage_invalid_run sha256_hex input w reason Hv).
    eexists. split; [|split; [|split]].
    - f_equal. apply router_world_ext; cbn; try reflexivity. lia.
    - reflexivity.
    - repeat constructor.
    - cbn. lia. }
  pose proof (checkDuplicate_run sha256_hex input w1) as Hcd.
  cbv zeta in Hcd. cbn [w1 faults cache clock logged took_uuid] in Hcd.
  fold w1 in Hcd.
  assert (Hrouted : forall (w2 : World) (pre : list Event),
    checkDuplicate sha256_hex input w1 = (Normal false, w2) ->
    faults w2 = faults w -> clock w2 = clock w -> uuids w2 = uuids w ->
    uuid_next w2 = S (uuid_next w) ->
    trace w2 = trace w ++ pre ->
    List.filter touches_queue pre = [] ->
    List.filter is_kafka pre = [] ->
    Forall (keyed_by ("trace_" +:+ uuids w (uuid_next w))) pre ->
    exists evs,
      sendMessage sha256_hex input w =
        (Normal
           match sendToQueue_outcome (faults w) with
           | SendTrue =>
               {| resp_success := true;
                  resp_messageId := Some ("msg_" +:+ uuids w (S (uuid_next w)));
                  resp_traceId := "trace_" +:+ uuids w (uuid_next w);
                  resp_message := "Message queued successfully" |}
           | SendFalse =>
               {| resp_success := false; resp_messageId := None;
                  resp_traceId := "trace_" +:+ uuids w (uuid_next w);
                  resp_message := "Error: Failed to send message to queue" |}
           | SendThrows reason =>
               {| resp_success := false; resp_messageId := None;
                  resp_traceId := "trace_" +:+ uuids w (uuid_next w);
                  resp_message := "Error: " +:+ reason |}
           end,
         {| cache := cache w2; clock := clock w; uuids := uuids w;
            uuid_next := S (uuid_next w + 1); faults := faults w;
            trace := trace w ++ evs |}) /\
      List.filter touches_queue evs =
        [submission
           (drafted input ("trace_" +:+ uuids w (uuid_next w))
              ("msg_" +:+ uuids w (S (uuid_next w))) (clock w)) (clock w)] /\
      Forall (keyed_by ("trace_" +:+ uuids w (uuid_next w))) evs /\
      (length (List.filter is_kafka evs) <= 1)%nat).
  { intros w2 pre Hdup Hf Hc Hu Hn Ht Hq Hk Hkey.
    destruct (sendMessage_routed_events input w w2 Hv Hdup)
      as (l & Hrun & Hlt & Hls).
    cbv zeta in Hrun. rewrite Hrun. clear Hrun.
    rewrite Hf, Hc, Hu, Hn.
    eexists (pre ++ [_] ++ sendLog_events w2 l ++ _).
    split; [|split; [|split]].
    - f_equal. apply router_world_ext; cbn; try assumption; try reflexivity.
      + rewrite Hn. lia.
      + rewrite Ht, <- !app_assoc. reflexivity.
    - rewrite !List.filter_app, Hq. unfold sendLog_events. rewrite Hf.
      destruct (kafka_fault (faults w)), (sendToQueue_outcome (faults w));
        reflexivity.
    - apply Forall_app. split; [exact Hkey|].
      unfold sendLog_events. rewrite Hf.
      destruct (kafka_fault (faults w)), (sendToQueue_outcome (faults w));
        repeat constructor; assumption.
    - rewrite !List.filter_app, !length_app, Hk. unfold sendLog_events.
      rewrite Hf.
      destruct (kafka_fault (faults w)), (sendToQueue_outcome (faults w));
        cbn; lia. }
  destruct (redis_get_fault (faults w)) as [e1|] eqn:Hget.
  { destruct (Hrouted _ [Console info "Received message request";
                         RedisGet (dedup_key sha256_hex input);
                         Console error "Error checking duplicate"] Hcd)
      as (evs & Hrun & Hq & Hkey & Hk); [side..|].
    exists evs. rewrite Hrun. cbn [length].
    repeat split; assumption. }
  destruct (truthy (cache_read (cache w) (clock w)
                      (dedup_key sha256_hex input))) eqn:Hres.
  { pose proof (sendMessage_valid_run sha256_hex input w Hv true _ Hcd) as Hrun.
    cbv iota in Hrun. rewrite Hrun.
    eexists. split; [|split; [|split]].
    - f_equal. apply router_world_ext; cbn.
      + destruct (redis_setEx_fault (faults w)); reflexivity.
      + reflexivity.
      + reflexivity.
      + lia.
      + reflexivity.
      + rewrite <- !app_assoc. reflexivity.
    - reflexivity.
    - repeat constructor.
    - cbn. lia. }
  destruct (redis_setEx_fault (faults w)) as [e2|] eqn:Hset.
  - destruct (Hrouted _ [Console info "Received message request";
                         RedisGet (dedup_key sha256_hex input);
                         RedisSetEx (dedup_key sha256_hex input) 86400 "1";
                         Console error "Error checking duplicate"] Hcd)
      as (evs & Hrun & Hq & Hkey & Hk); [side..|].
    exists evs. rewrite Hrun. cbn [length negb].
    repeat split; assumption.
  - destruct (Hrouted _ [Console info "Received message request";
                         RedisGet (dedup_key sha256_hex input);
                         RedisSetEx (dedup_key sha256_hex input) 86400 "1"] Hcd)
      as (evs & Hrun & Hq & Hkey & Hk); [side..|].
    exists evs. rewrite Hrun. cbn [length negb cache].
    repeat split; assumption.
Qed.

(** X3.  The answer of [sendMessage] and the cache that it leaves are given
    by the tables [answer] and [cache_after]: a validation error first;
    then "Duplicate message detected" if the cache read works and finds a
    live reservation; otherwise the message is routed and the answer
    follows the broker, also when the cache read or the reservation write
    failed.  The reservation is written whenever the read found nothing
    and the write works, whatever the broker does next. *)
Theorem sendMessage_answers_by_the_table (input : MessageInput) (w : World) :
  fst (sendMessage sha256_hex input w) = Normal (answer sha256_hex input w) /\
  cache (snd (sendMessage sha256_hex input w)) = cache_after sha256_hex input w.
Proof.
  destruct (sendMessage_outcome input w) as (evs & Hrun & _).
  rewrite Hrun. split; reflexivity.
Qed.

(** X4.  A request submits at most one message: none if the input is invalid
    or a duplicate, one otherwise.  What is submitted goes to the queue
    of the input's channel, persistent, with the fields of the input,
    status queued, [retryCount] 0 and [maxRetries] 3, a message id
    "msg_..." and the trace id of the answer; the headers repeat the
    counter, the trace id and the subtrace id of the body. *)
Theorem sendMessage_submits_at_most_once (input : MessageInput) (w : World) :
  let out := sendMessage sha256_hex input w in
  exists evs,
    trace (snd out) = trace w ++ evs /\
    List.filter touches_queue evs = submissions sha256_hex input w /\
    (length (submissions sha256_hex input w) <= 1)%nat /\
    forall q m p h,
      SendToQueue q m p h ∈ evs ->
      QUEUES (channel_name (in_channel input)) = Some q /\
      p = true /\
      msg_channel m = in_channel input /\
      msg_recipient m = in_recipient input /\
      msg_subject m = in_subject input /\
      msg_body m = in_body input /\
      msg_metadata m = in_metadata input /\
      msg_status m = queued /\
      msg_retryCount m = Some 0 /\
      msg_maxRetries m = Some 3 /\
      msg_messageId m = "msg_" +:+ uuids w (S (uuid_next w)) /\
      (exists r, fst out = Normal r /\ msg_traceId m = resp_traceId r) /\
      x_retry_count h = 0 /\
      x_trace_id h = msg_traceId m /\
      msg_subtraceId m = Some (x_subtrace_id h).
Proof.
  cbv zeta.
  destruct (sendMessage_outcome input w) as (evs & Hrun & Hq & _).
  rewrite Hrun. exists evs. split; [reflexivity|]. split; [exact Hq|].
  split.
  { unfold submissions. destruct (validation_error input);
      [cbn; lia|]. destruct (is_duplicate _ _ _); cbn; lia. }
  intros q m p h Hin.
  assert (Hin' : SendToQueue q m p h ∈ List.filter touches_queue evs).
  { apply list_elem_of_In, List.filter_In. split;
      [apply list_elem_of_In; exact Hin | reflexivity]. }
  rewrite Hq in Hin'. unfold submissions, answer in *.
  destruct (validation_error input); [inversion Hin'|].
  destruct (is_duplicate sha256_hex input w); [inversion Hin'|].
  apply list_elem_of_singleton in Hin'. unfold submission in Hin'.
  injection Hin' as -> -> -> ->. cbn.
  rewrite QUEUES_channel.
  repeat split; try reflexivity.
  eexists. split; [reflexivity|].
  destruct (sendToQueue_outcome (faults w)); reflexivity.
Qed.

(** X5.  Whether Kafka accepts the log records or not changes neither the
    answer to the caller, nor the cache, nor what is submitted to the
    broker. *)
Theorem kafka_failure_changes_nothing_for_the_caller
  (input : MessageInput) (w : World) (k : option string) :
  let w' := with_faults (with_kafka k (faults w)) w in
  fst (sendMessage sha256_hex input w') = fst (sendMessage sha256_hex input w) /\
  cache (snd (sendMessage sha256_hex input w'))
    = cache (snd (sendMessage sha256_hex input w)) /\
  List.filter touches_queue (trace (snd (sendMessage sha256_hex input w')))
    = List.filter touches_queue (trace (snd (sendMessage sha256_hex input w))).
Proof.
  cbv zeta.
  destruct (sendMessage_outcome input w) as (evs & Hrun & Hq & _).
  destruct (sendMessage_outcome input
              (with_faults (with_kafka k (faults w)) w))
    as (evs' & Hrun' & Hq' & _).
  rewrite Hrun, Hrun'. cbn [fst snd cache trace with_faults].
  split; [reflexivity|]. split; [reflexivity|].
  rewrite !List.filter_app, Hq, Hq'. reflexivity.
Qed.

(** X6.  Every record that a request publishes on the log topic is keyed by
    the trace id that the caller receives and carries it in its body;
    there is at most one such record, and none for an input that is
    invalid or a duplicate. *)
Theorem router_logs_carry_the_trace_id (input : MessageInput) (w : World) :
  let out := sendMessage sha256_hex input w in
  exists r evs,
    fst out = Normal r /\
    resp_traceId r = "trace_" +:+ uuids w (uuid_next w) /\
    trace (snd out) = trace w ++ evs /\
    Forall (keyed_by (resp_traceId r)) evs /\
    (length (List.filter is_kafka evs) <= 1)%nat /\
    (resp_messageId r = None ->
     resp_message r = "Duplicate message detected" \/
     validation_error input <> None ->
     List.filter is_kafka evs = []).
Proof.
  cbv zeta.
  destruct (sendMessage_outcome input w) as (evs & Hrun & Hq & Hkey & Hk).
  rewrite Hrun. exists (answer sha256_hex input w), evs. cbn [fst snd trace].
  assert (Ht : resp_traceId (answer sha256_hex input w)
               = "trace_" +:+ uuids w (uuid_next w)).
  { unfold answer. destruct (validation_error input); [reflexivity|].
    destruct (is_duplicate _ _ _); [reflexivity|].
    destruct (sendToQueue_outcome (faults w)); reflexivity. }
  split; [reflexivity|]. split; [exact Ht|]. split; [reflexivity|].
  rewrite Ht. split; [exact Hkey|]. split.
  - etransitivity; [exact Hk|]. unfold submissions.
    destruct (validation_error input); [cbn; lia|].
    destruct (is_duplicate _ _ _); cbn; lia.
  - intros _ Hwhy.
    assert (Hnone : submissions sha256_hex input w = []).
    { unfold submissions, answer in *.
      destruct (validation_error input) as [reason|]; [reflexivity|].
      destruct (is_duplicate sha256_hex input w); [reflexivity|].
      destruct Hwhy as [Hdup | Hbad]; [|contradiction].
      destruct (sendToQueue_outcome (faults w)); cbn in Hdup;
        discriminate Hdup. }
    rewrite Hnone in Hk. cbn in Hk.
    destruct (List.filter is_kafka evs); [reflexivity | cbn in Hk; lia].
Qed.

(** X7.  A reservation lasts exactly one day from the instant it was made:
    during that day the duplicate check answers [true] and leaves the
    cache as it is, so that a duplicate does not prolong the
    reservation; from the end of the day on the input is free again. *)
Theorem reservation_window (input : MessageInput) (w : World) (t1 : Z) :
  redis_get_fault (faults w) = None ->
  redis_setEx_fault (faults w) = None ->
  ~ reserved sha256_hex input w ->
  clock w <= t1 < clock w + day_ms ->
  let w1 := snd (checkDuplicate sha256_hex input w) in
  let again := checkDuplicate sha256_hex input (at_time t1 w1) in
  fst again = Normal true /\
  cache (snd again) = cache w1 /\
  forall t, reserved sha256_hex input (at_time t (snd again))
            <-> t < clock w + day_ms.
Proof.
  intros Hget Hset Hfree Ht1. unfold reserved in Hfree.
  apply not_true_is_false in Hfree. cbv zeta.
  rewrite (checkDuplicate_run sha256_hex input w). cbv zeta.
  rewrite Hget, Hfree, Hset. cbn [snd].
  rewrite checkDuplicate_run. cbv zeta.
  cbn [faults cache clock at_time]. rewrite Hget, cache_read_insert.
  destruct (Z.ltb_spec t1 (clock w + day_ms)) as [_|]; [|lia].
  cbn [truthy String.eqb negb fst snd logged cache].
  split; [reflexivity|]. split; [reflexivity|].
  intros t. unfold reserved. cbn [cache clock at_time logged].
  rewrite cache_read_insert.
  destruct (Z.ltb_spec t (clock w + day_ms)); cbn; split; intros; try lia;
    try reflexivity; discriminate.
Qed.

End RouterMore.

(** Witness of [reservation_window]: [hello_email], checked again after
    one hour. *)
Lemma reservation_window_witness :
  let w := Router.fresh_world Router.all_well in
  let w1 := snd (Router.checkDuplicate Router.plain_digest Router.hello_email w) in
  ~ Router.reserved Router.plain_digest Router.hello_email w /\
  fst (Router.checkDuplicate Router.plain_digest Router.hello_email
         (Router.at_time (1000 + 3600000) w1)) = Normal true.
Proof.
  cbv zeta.
  assert (Hfree : ~ Router.reserved Router.plain_digest Router.hello_email
                      (Router.fresh_world Router.all_well)).
  { vm_compute. discriminate. }
  assert (Ht : Router.clock (Router.fresh_world Router.all_well)
               <= 1000 + 3600000
               < Router.clock (Router.fresh_world Router.all_well)
                 + Router.day_ms).
  { vm_compute. split; [discriminate | reflexivity]. }
  split; [exact Hfree|].
  exact (proj1 (reservation_window Router.plain_digest Router.hello_email
                  (Router.fresh_world Router.all_well) (1000 + 3600000)
                  eq_refl eq_refl Hfree Ht)).
Defined.

(** ** More about the delivery service *)

Section DeliveryMore.
Import Delivery DeliverySpec.

Tactic Notation "fields" :=
  cbn [store clock attempts oracle kafka_fault inflight origin_queue unacked
       dead_letter_queue trace logged with_trace with_store with_clock
       with_attempts with_inflight with_broker nacked backed_off started
       mbind option_bind].
Tactic Notation "fields" "in" hyp(H) :=
  cbn [store clock attempts oracle kafka_fault inflight origin_queue unacked
       dead_letter_queue trace logged with_trace with_store with_clock
       with_attempts with_inflight with_broker nacked backed_off started
       mbind option_bind] in H.

Ltac run_delivery :=
  unfold sendLog, kafka_send, findOneAndUpdate, simulateDelivery, sleep,
    channel_ack, channel_nack, JSON_parse, Date_now, logger, emit;
  unfold try_catch, bind, gets, modify, ret, throw.

Lemma elapsed_app (a b : list Event) : elapsed (a ++ b) = elapsed a + elapsed b.
Proof.
  induction a as [|e a IH]; [reflexivity|].
  destruct e; cbn; rewrite ?IH; lia.
Qed.

Lemma Forall_keyed_app (t : option string) (a b : list Event) :
  Forall (keyed_by t) a -> Forall (keyed_by t) b -> Forall (keyed_by t) (a ++ b).
Proof. intros Ha Hb. apply Forall_app. split; assumption. Qed.

(** *** One call of a handler *)

Section OneHandler.
Variables (channel : Channel) (latency : Z) (says : Wording)
  (with_subject : bool).

Lemma handle_effects (m : Message) (w : World) :
  exists c w' evs,
    handle channel latency says with_subject m w = (c, w') /\
    trace w' = trace w ++ evs /\
    List.filter is_timeout evs = [Timeout latency] /\
    List.filter is_broker_call evs = [] /\
    List.filter is_kafka evs = [] /\
    clock w' = clock w + latency /\
    attempts w' = S (attempts w) /\
    oracle w' = oracle w /\
    kafka_fault w' = kafka_fault w /\
    inflight w' = inflight w /\
    origin_queue w' = origin_queue w /\
    unacked w' = unacked w /\
    dead_letter_queue w' = dead_letter_queue w /\
    match c with
    | Normal r =>
        if res_success r then
          random_below_failureRate (oracle w (attempts w)) = false /\
          delivered_upsert_fault (oracle w (attempts w)) = None /\
          store w' =
            upsert (msg_messageId m)
              (delivered_update channel with_subject m (clock w'))
              (clock w') (store w)
        else
          failed_upsert_fault (oracle w (attempts w)) = None /\
          (random_below_failureRate (oracle w (attempts w)) = true \/
           is_Some (delivered_upsert_fault (oracle w (attempts w)))) /\
          exists reason,
            res_error r = Some reason /\
            store w' =
              upsert (msg_messageId m)
                (failed_update channel with_subject m reason (clock w'))
                (clock w') (store w)
    | Thrown reason =>
        failed_upsert_fault (oracle w (attempts w)) = Some reason /\
        (random_below_failureRate (oracle w (attempts w)) = true \/
         is_Some (delivered_upsert_fault (oracle w (attempts w)))) /\
        store w' = store w
    | Starved => False
    end.
Proof.
  unfold handle. run_delivery. cbn.
  destruct (oracle w (attempts w)) as [sim [f1|] [f2|]]; destruct sim; cbn;
    eexists; eexists; eexists; (split; [reflexivity|]);
    (split; [cbn; rewrite <- ?app_assoc; reflexivity|]);
    do 11 (split; [reflexivity|]); cbn;
    repeat first [ reflexivity
                 | split
                 | eexists
                 | left; reflexivity
                 | right; eexists; reflexivity ].
Qed.

(** *** The retry loop of one call of [processMessage] *)

Lemma deliverWithRetry_fuel_retries (fuel : nat)
  (handler : Message -> M World Result) (m : Message) (rc mx : Z)
  (w w' : World) (reason : string) :
  handler m w = (Thrown reason, w') ->
  rc < mx ->
  deliverWithRetry_fuel (S fuel) handler m rc mx w =
    deliverWithRetry_fuel fuel handler (set_retryCount (rc + 1) m) (rc + 1) mx
      (backed_off rc m w').
Proof.
  intros H Hlt. cbn [deliverWithRetry_fuel].
  erewrite try_thrown by exact H.
  destruct (Z.ltb_spec rc mx); [|lia].
  unfold logger, sleep, emit, bind, modify. cbn.
  unfold backed_off, logged, with_inflight, with_clock, with_trace. cbn.
  rewrite <- app_assoc. reflexivity.
Qed.

Lemma retried_next (rc : Z) (k : nat) (m : Message) :
  retried (rc + 1) k (set_retryCount (rc + 1) m) = retried rc (S k) m.
Proof.
  destruct k as [|k]; unfold retried.
  - replace (rc + Z.of_nat 1) with (rc + 1) by lia. reflexivity.
  - replace (rc + 1 + Z.of_nat (S k)) with (rc + Z.of_nat (S (S k))) by lia.
    reflexivity.
Qed.

Lemma retried_messageId (rc : Z) (k : nat) (m : Message) :
  msg_messageId (retried rc k m) = msg_messageId m.
Proof. destruct k; reflexivity. Qed.

Lemma deliverWithRetry_effects (fuel : nat) :
  forall (m : Message) (rc mx : Z) (w : World),
  (Z.to_nat (mx - rc) < fuel)%nat ->
  exists k c w' evs,
    deliverWithRetry_fuel fuel (handle channel latency says with_subject)
      m rc mx w = (c, w') /\
    (k <= Z.to_nat (mx - rc))%nat /\
    trace w' = trace w ++ evs /\
    List.filter is_timeout evs = retry_timers latency rc k /\
    List.filter is_broker_call evs = [] /\
    List.filter is_kafka evs = [] /\
    clock w' = clock w + elapsed evs /\
    attempts w' = (attempts w + S k)%nat /\
    oracle w' = oracle w /\
    kafka_fault w' = kafka_fault w /\
    inflight w' =
      match k with
      | O => inflight w
      | S _ => Some (retried rc k m)
      end /\
    origin_queue w' = origin_queue w /\
    unacked w' = unacked w /\
    dead_letter_queue w' = dead_letter_queue w /\
    (forall i, (i < k)%nat ->
       is_Some (failed_upsert_fault (oracle w (attempts w + i)%nat)) /\
       (random_below_failureRate (oracle w (attempts w + i)%nat) = true \/
        is_Some (delivered_upsert_fault (oracle w (attempts w + i)%nat)))) /\
    match c with
    | Normal r =>
        if res_success r then
          random_below_failureRate (oracle w (attempts w + k)%nat) = false /\
          delivered_upsert_fault (oracle w (attempts w + k)%nat) = None /\
          store w' =
            upsert (msg_messageId m)
              (delivered_update channel with_subject (retried rc k m) (clock w'))
              (clock w') (store w)
        else
          failed_upsert_fault (oracle w (attempts w + k)%nat) = None /\
          (random_below_failureRate (oracle w (attempts w + k)%nat) = true \/
           is_Some (delivered_upsert_fault (oracle w (attempts w + k)%nat))) /\
          exists reason,
            res_error r = Some reason /\
            store w' =
              upsert (msg_messageId m)
                (failed_update channel with_subject (retried rc k m) reason
                   (clock w'))
                (clock w') (store w)
    | Thrown reason =>
        k = Z.to_nat (mx - rc) /\
        failed_upsert_fault (oracle w (attempts w + k)%nat) = Some reason /\
        (random_below_failureRate (oracle w (attempts w + k)%nat) = true \/
         is_Some (delivered_upsert_fault (oracle w (attempts w + k)%nat))) /\
        store w' = store w
    | Starved => False
    end.
Proof.
  induction fuel as [|fuel IH]; intros m rc mx w Hfuel; [lia|].
  destruct (handle_effects m w)
    as (c1 & w1 & evs1 & Hrun & Htr & Htm & Hbr & Hkf & Hclk & Hatt & Hor & Hkfault
        & Hinf & Hq & Hun & Hdl & Hout).
  assert (Hel : elapsed evs1 = latency).
  { clear - Htm. revert Htm. generalize latency as l.
    induction evs1 as [|e rest IHl]; intros l; cbn; [discriminate|].
    destruct e; cbn; try (intros H; exact (IHl _ H)).
    intros [= -> Hrest].
    assert (elapsed rest = 0); [|lia].
    clear - Hrest. induction rest as [|e rest IHr]; [reflexivity|].
    cbn in Hrest. destruct e; cbn in *; try exact (IHr Hrest); discriminate. }
  destruct c1 as [r | reason |]; [| |contradiction].
  - (* the handler returns *)
    exists 0%nat, (Normal r), w1, evs1.
    split; [cbn [deliverWithRetry_fuel]; apply try_normal; exact Hrun|].
    split; [lia|]. split; [exact Htr|]. split; [exact Htm|].
    split; [exact Hbr|]. split; [exact Hkf|].
    split; [rewrite Hel; exact Hclk|].
    split; [rewrite Hatt; lia|]. split; [exact Hor|]. split; [exact Hkfault|].
    split; [exact Hinf|]. split; [exact Hq|]. split; [exact Hun|].
    split; [exact Hdl|]. split; [intros i Hi; lia|].
    rewrite Nat.add_0_r. exact Hout.
  - destruct (Z.ltb_spec rc mx) as [Hlt | Hge].
    + (* the handler throws and a retry is left *)
      rewrite (deliverWithRetry_fuel_retries fuel _ m rc mx w w1 reason Hrun Hlt).
      destruct (IH (set_retryCount (rc + 1) m) (rc + 1) mx (backed_off rc m w1))
        as (k & c & w' & evs & Hrun' & Hk & Htr' & Htm' & Hbr' & Hkf' & Hclk' & Hatt'
            & Hor' & Hkfault' & Hinf' & Hq' & Hun' & Hdl' & Hpast & Hout');
        [lia|].
      fields in Htr'. fields in Hclk'. fields in Hatt'. fields in Hor'.
      fields in Hkfault'. fields in Hinf'. fields in Hq'. fields in Hun'.
      fields in Hdl'. fields in Hpast. fields in Hout'.
      destruct Hout as (Hf2 & Hsim & Hst).
      exists (S k), c, w',
        (evs1 ++ [Console warn "Delivery failed, retrying...";
                  Timeout (backoff rc)] ++ evs).
      split; [exact Hrun'|].
      split; [lia|].
      split; [rewrite Htr', Htr, <- !app_assoc; reflexivity|].
      split; [rewrite !List.filter_app, Htm, Htm'; reflexivity|].
      split; [rewrite !List.filter_app, Hbr, Hbr'; reflexivity|].
      split; [rewrite !List.filter_app, Hkf, Hkf'; reflexivity|].
      split; [rewrite !elapsed_app, Hel, Hclk', Hclk; cbn [elapsed]; lia|].
      split; [rewrite Hatt', Hatt; lia|].
      split; [rewrite Hor', Hor; reflexivity|].
      split; [rewrite Hkfault', Hkfault; reflexivity|].
      split.
      { rewrite Hinf'. destruct k as [|k']; [|rewrite retried_next; reflexivity].
        unfold retried. replace (rc + Z.of_nat 1) with (rc + 1) by lia.
        reflexivity. }
      split; [rewrite Hq', Hq; reflexivity|].
      split; [rewrite Hun', Hun; reflexivity|].
      split; [rewrite Hdl', Hdl; reflexivity|].
      split.
      { intros i Hi. destruct i as [|j].
        - rewrite Nat.add_0_r. split; [eexists; exact Hf2 | exact Hsim].
        - specialize (Hpast j ltac:(lia)).
          rewrite Hor, Hatt in Hpast.
          replace (attempts w + S j)%nat with (S (attempts w) + j)%nat by lia.
          exact Hpast. }
      rewrite Hor, Hatt, Hst in Hout'.
      replace (attempts w + S k)%nat with (S (attempts w) + k)%nat by lia.
      rewrite retried_next in Hout'.
      destruct c as [r | reason' |]; [| |contradiction].
      * exact Hout'.
      * destruct Hout' as (Hk' & Hrest). split; [lia | exact Hrest].
    + (* the handler throws and no retry is left *)
      exists 0%nat, (Thrown reason), w1, evs1.
      split.
      { cbn [deliverWithRetry_fuel]. erewrite try_thrown by exact Hrun.
        destruct (Z.ltb_spec rc mx); [lia | reflexivity]. }
      split; [lia|]. split; [exact Htr|]. split; [exact Htm|].
      split; [exact Hbr|]. split; [exact Hkf|].
      split; [rewrite Hel; exact Hclk|].
      split; [rewrite Hatt; lia|]. split; [exact Hor|]. split; [exact Hkfault|].
      split; [exact Hinf|]. split; [exact Hq|]. split; [exact Hun|].
      split; [exact Hdl|]. split; [intros i Hi; lia|].
      rewrite Nat.add_0_r. destruct Hout as (Hf2 & Hsim & Hst).
      split; [lia|]. split; [exact Hf2|]. split; [exact Hsim | exact Hst].
Qed.

End OneHandler.

(** *** One call of [processMessage] *)

Lemma delivery_world_ext (a b : World) :
  store a = store b -> clock a = clock b -> attempts a = attempts b ->
  oracle a = oracle b -> kafka_fault a = kafka_fault b ->
  inflight a = inflight b -> origin_queue a = origin_queue b ->
  unacked a = unacked b -> dead_letter_queue a = dead_letter_queue b ->
  trace a = trace b ->
  a = b.
Proof. destruct a, b. cbn. intros; subst; reflexivity. Qed.

Ltac same_fields :=
  apply delivery_world_ext; fields; rewrite <- ?app_assoc; reflexivity.

Lemma sendLog_events_quiet (w : World) (l : LogData) :
  List.filter is_timeout (sendLog_events w l) = [] /\
  List.filter is_broker_call (sendLog_events w l) = [] /\
  List.filter is_upsert (sendLog_events w l) = [] /\
  elapsed (sendLog_events w l) = 0.
Proof. unfold sendLog_events. destruct (kafka_fault w); repeat split. Qed.

Lemma sendLog_events_keyed (w : World) (l : LogData) :
  log_service l = "delivery" ->
  Forall (keyed_by (log_traceId l)) (sendLog_events w l).
Proof.
  intros Hs. unfold sendLog_events.
  destruct (kafka_fault w); repeat constructor. exact Hs.
Qed.

(** [handleDeliveryError] with what it logs. *)
Lemma handleDeliveryError_effects (msg : AmqpMessage) (message : option Message)
  (channelType reason : string) (w : World) :
  let requeue :=
    default 0 (message ≫= msg_retryCount) <? default 3 (message ≫= msg_maxRetries) in
  exists evs,
    handleDeliveryError msg message channelType reason w =
      (Normal tt, nacked msg requeue (logged evs w)) /\
    List.filter is_broker_call evs = [Nack msg false requeue] /\
    List.filter is_timeout evs = [] /\
    elapsed evs = 0 /\
    Forall (keyed_by (msg_traceId <$> message)) evs.
Proof.
  cbv zeta. unfold handleDeliveryError.
  rewrite geb_is_not_ltb.
  set (log1 :=
    {| log_service := "delivery"; log_level := error;
       log_message := "Message delivery failed";
       log_traceId := msg_traceId <$> message; log_subtraceId := None;
       log_messageId := msg_messageId <$> message;
       log_channel := channelType; log_queueName := None;
       log_retryCount := Some (default 0 (message ≫= msg_retryCount));
       log_error := Some reason; log_duration := None;
       log_timestamp := clock w |}).
  set (log2 :=
    {| log_service := "delivery"; log_level := error;
       log_message := "Max retries exceeded, moved to DLQ";
       log_traceId := msg_traceId <$> message; log_subtraceId := None;
       log_messageId := msg_messageId <$> message;
       log_channel := channelType; log_queueName := None;
       log_retryCount := None; log_error := None; log_duration := None;
       log_timestamp := clock w |}).
  pose proof (sendLog_events_keyed w log1 eq_refl) as Hk1.
  pose proof (sendLog_events_keyed w log2 eq_refl) as Hk2.
  cbn [log_traceId log1 log2] in Hk1, Hk2.
  erewrite bind_normal by reflexivity.
  cbv beta; erewrite bind_normal by reflexivity.
  cbv beta; erewrite bind_normal by apply consumer_sendLog_run.
  cbv beta.
  destruct (_ <? _); cbn [negb].
  - exists ([Console error "Delivery error"] ++ sendLog_events w log1
            ++ [Nack msg false true]).
    split; [|split; [|split; [|split]]].
    + unfold channel_nack.
      erewrite bind_normal by reflexivity.
      unfold modify. f_equal. same_fields.
    + unfold sendLog_events. destruct (kafka_fault w); reflexivity.
    + unfold sendLog_events. destruct (kafka_fault w); reflexivity.
    + unfold sendLog_events. destruct (kafka_fault w); reflexivity.
    + apply Forall_keyed_app; [repeat constructor|].
      apply Forall_keyed_app; [exact Hk1 | repeat constructor].
  - exists ([Console error "Delivery error"] ++ sendLog_events w log1
            ++ [Console error "Max retries exceeded, moving to DLQ"]
            ++ sendLog_events w log2 ++ [Nack msg false false]).
    split; [|split; [|split; [|split]]].
    + erewrite bind_normal by reflexivity.
      cbv beta; erewrite bind_normal by reflexivity.
      cbv beta; erewrite bind_normal by apply consumer_sendLog_run.
      unfold channel_nack.
      cbv beta; erewrite bind_normal by reflexivity.
      unfold modify. f_equal. same_fields.
    + unfold sendLog_events. destruct (kafka_fault w); reflexivity.
    + unfold sendLog_events. destruct (kafka_fault w); reflexivity.
    + unfold sendLog_events. destruct (kafka_fault w); reflexivity.
    + apply Forall_keyed_app; [repeat constructor|].
      apply Forall_keyed_app; [exact Hk1|].
      apply Forall_keyed_app; [repeat constructor|].
      apply Forall_keyed_app; [exact Hk2 | repeat constructor].
Qed.

(** [processMessage] for a payload that parses and a channel with a
    handler, in terms of what [deliverWithRetry] does. *)
Lemma processMessage_run (msg : AmqpMessage) (m : Message)
  (channelType : string) (handler : Message -> M World Result)
  (w w2 : World) (c : Completion Result) :
  content msg = Json m ->
  HANDLERS channelType = Some handler ->
  deliverWithRetry handler m (default 0 (msg_retryCount m))
    (default 3 (msg_maxRetries m)) (started channelType m w) = (c, w2) ->
  processMessage msg channelType w =
    match c with
    | Normal r =>
        if res_success r
        then (Normal tt, acknowledged msg channelType m (clock w) w2)
        else handleDeliveryError msg (inflight w2) channelType
               (failure_text r) w2
    | Thrown reason =>
        handleDeliveryError msg (inflight w2) channelType reason w2
    | Starved => (Starved, w2)
    end.
Proof.
  intros Hc Hh Hd.
  assert (Hd' :
    deliverWithRetry handler m (default 0 (msg_retryCount m))
      (default 3 (msg_maxRetries m))
      (logged (sendLog_events (with_trace (fun t => t ++ [Console info "Processing message"]) (with_inflight (Some m) (with_inflight None w)))
                 (start_record channelType m (clock w)))
         (with_trace (fun t => t ++ [Console info "Processing message"])
            (with_inflight (Some m) (with_inflight None w)))) = (c, w2)).
  { etransitivity; [|exact Hd]. f_equal. unfold started. same_fields. }
  clear Hd.
  unfold processMessage. rewrite Hc.
  erewrite bind_normal by reflexivity.
  cbv beta; erewrite bind_normal by reflexivity.
  unfold try_catch.
  cbv beta; erewrite bind_normal by reflexivity.
  cbv beta; erewrite bind_normal by reflexivity.
  cbv beta zeta; erewrite bind_normal by reflexivity.
  cbv beta zeta; erewrite bind_normal by reflexivity.
  cbv beta zeta; erewrite bind_normal by reflexivity.
  cbv beta zeta; erewrite bind_normal by apply consumer_sendLog_run.
  cbv beta zeta. rewrite Hh.
  destruct c as [r | reason |].
  - erewrite bind_normal by exact Hd'.
    cbv beta. destruct (res_success r).
    + unfold channel_ack.
      erewrite bind_normal.
      2:{ erewrite bind_normal by reflexivity. reflexivity. }
      cbv beta; erewrite bind_normal by reflexivity.
      cbv beta zeta; erewrite bind_normal by apply consumer_sendLog_run.
      cbv beta. unfold logger, emit, modify. f_equal.
      unfold acknowledged, success_record. same_fields.
    + unfold throw at 1. cbv beta iota.
      erewrite bind_normal by reflexivity. reflexivity.
  - erewrite bind_thrown by exact Hd'.
    cbv beta iota. erewrite bind_normal by reflexivity. reflexivity.
  - unfold bind at 1.
    replace (deliverWithRetry handler m _ _ _) with (@Starved Result, w2)
      by (symmetry; exact Hd').
    reflexivity.
Qed.

Lemma quiet_keyed (t : option string) (evs : list Event) :
  List.filter is_kafka evs = [] -> Forall (keyed_by t) evs.
Proof.
  induction evs as [|e rest IH]; [constructor|].
  destruct e; cbn; intros H; try discriminate H;
    (constructor; [exact I | exact (IH H)]).
Qed.

Lemma object_after_retries (m : Message) (k : nat) :
  let rc := default 0 (msg_retryCount m) in
  let object :=
    match k with
    | O => Some m
    | S _ => Some (retried rc k m)
    end in
  default 0 (object ≫= msg_retryCount) = rc + Z.of_nat k /\
  default 3 (object ≫= msg_maxRetries) = default 3 (msg_maxRetries m) /\
  msg_traceId <$> object = Some (msg_traceId m).
Proof.
  cbv zeta. destruct k as [|k]; cbn.
  - split; [lia|]. split; reflexivity.
  - split; [reflexivity|]. split; reflexivity.
Qed.

(** Everything that one call of [processMessage] does with a payload
    that parses, on a channel with a handler. *)
Lemma processMessage_outcome (msg : AmqpMessage) (m : Message)
  (channelType : string) (channel : Channel) (latency : Z) (says : Wording)
  (with_subject : bool) (w : World) :
  content msg = Json m ->
  HANDLERS channelType = Some (handle channel latency says with_subject) ->
  let rc := default 0 (msg_retryCount m) in
  let mx := default 3 (msg_maxRetries m) in
  exists k w' evs,
    processMessage msg channelType w = (Normal tt, w') /\
    (k <= Z.to_nat (mx - rc))%nat /\
    trace w' = trace w ++ evs /\
    List.filter is_timeout evs = retry_timers latency rc k /\
    Forall (keyed_by (Some (msg_traceId m))) evs /\
    clock w' = clock w + elapsed evs /\
    attempts w' = (attempts w + S k)%nat /\
    oracle w' = oracle w /\
    kafka_fault w' = kafka_fault w /\
    unacked w' = None /\
    (forall i, (i < k)%nat ->
       is_Some (failed_upsert_fault (oracle w (attempts w + i)%nat)) /\
       (random_below_failureRate (oracle w (attempts w + i)%nat) = true \/
        is_Some (delivered_upsert_fault (oracle w (attempts w + i)%nat)))) /\
    ((List.filter is_broker_call evs = [Ack msg] /\
      origin_queue w' = origin_queue w /\
      dead_letter_queue w' = dead_letter_queue w /\
      random_below_failureRate (oracle w (attempts w + k)%nat) = false /\
      delivered_upsert_fault (oracle w (attempts w + k)%nat) = None /\
      store w' =
        upsert (msg_messageId m)
          (delivered_update channel with_subject (retried rc k m) (clock w'))
          (clock w') (store w))
     \/
     (List.filter is_broker_call evs = [Nack msg false (rc + Z.of_nat k <? mx)] /\
      origin_queue w' =
        (if rc + Z.of_nat k <? mx then msg :: origin_queue w
         else origin_queue w) /\
      dead_letter_queue w' =
        (if rc + Z.of_nat k <? mx then dead_letter_queue w
         else dead_letter_queue w ++ [msg]) /\
      failed_upsert_fault (oracle w (attempts w + k)%nat) = None /\
      (random_below_failureRate (oracle w (attempts w + k)%nat) = true \/
       is_Some (delivered_upsert_fault (oracle w (attempts w + k)%nat))) /\
      exists reason,
        store w' =
          upsert (msg_messageId m)
            (failed_update channel with_subject (retried rc k m) reason
               (clock w'))
            (clock w') (store w))
     \/
     (k = Z.to_nat (mx - rc) /\
      List.filter is_broker_call evs = [Nack msg false false] /\
      origin_queue w' = origin_queue w /\
      dead_letter_queue w' = dead_letter_queue w ++ [msg] /\
      is_Some (failed_upsert_fault (oracle w (attempts w + k)%nat)) /\
      (random_below_failureRate (oracle w (attempts w + k)%nat) = true \/
       is_Some (delivered_upsert_fault (oracle w (attempts w + k)%nat))) /\
      store w' = store w)).
Proof.
  intros Hc Hh rc mx.
  destruct (deliverWithRetry_effects channel latency says with_subject
              (S (Z.to_nat (mx - rc))) m rc mx (started channelType m w))
    as (k & c & w2 & evs & Hrun & Hk & Htr & Htm & Hbr & Hkf & Hclk & Hatt
        & Hor & Hkfault & Hinf & Hq & Hun & Hdl & Hpast & Hout); [lia|].
  pose proof (processMessage_run msg m channelType _ w w2 c Hc Hh Hrun) as Hp.
  fields in Htr. fields in Hclk. fields in Hatt. fields in Hor.
  fields in Hkfault. fields in Hinf. fields in Hq. fields in Hun.
  fields in Hdl. fields in Hpast. fields in Hout.
  set (evs0 := [Console info "Processing message"] ++
               sendLog_events w (start_record channelType m (clock w))) in *.
  assert (Hq0 : List.filter is_timeout evs0 = [] /\
                List.filter is_broker_call evs0 = [] /\
                elapsed evs0 = 0 /\
                Forall (keyed_by (Some (msg_traceId m))) evs0).
  { subst evs0.
    destruct (sendLog_events_quiet w (start_record channelType m (clock w)))
      as (H1 & H2 & _ & H4).
    rewrite !List.filter_app, elapsed_app, H1, H2, H4.
    repeat split. apply Forall_keyed_app; [repeat constructor|].
    exact (sendLog_events_keyed w (start_record channelType m (clock w)) eq_refl). }
  destruct Hq0 as (Ht0 & Hb0 & He0 & Hk0).
  pose proof (object_after_retries m k) as (Hcount & Hmax & Htid).
  fold rc in Hcount, Hmax, Htid. fold mx in Hmax.
  assert (Hobj : inflight w2 =
                 match k with O => Some m | S _ => Some (retried rc k m) end).
  { rewrite Hinf. destruct k; reflexivity. }
  clear Hinf.
  destruct c as [r | reason |]; [| |contradiction].
  - destruct (res_success r).
    + (* delivered *)
      destruct Hout as (Hsim & Hf1 & Hst).
      destruct (sendLog_events_quiet w2
                  (success_record channelType m (clock w) (clock w2)))
        as (H1 & H2 & _ & H4).
      exists k, (acknowledged msg channelType m (clock w) w2),
        (evs0 ++ evs ++ [Ack msg] ++
         sendLog_events w2 (success_record channelType m (clock w) (clock w2))
         ++ [Console info "Message delivered successfully"]).
      split; [exact Hp|]. split; [exact Hk|].
      unfold acknowledged. fields.
      split; [rewrite Htr, <- !app_assoc; reflexivity|].
      split; [rewrite !List.filter_app, Ht0, Htm, H1; cbn;
              rewrite app_nil_r; reflexivity|].
      split.
      { apply Forall_keyed_app; [exact Hk0|].
        apply Forall_keyed_app; [apply quiet_keyed; exact Hkf|].
        apply Forall_keyed_app; [repeat constructor|].
        apply Forall_keyed_app; [|repeat constructor].
        exact (sendLog_events_keyed w2
                 (success_record channelType m (clock w) (clock w2)) eq_refl). }
      split; [rewrite !elapsed_app, He0, H4, Hclk; cbn [elapsed]; lia|].
      split; [exact Hatt|]. split; [exact Hor|]. split; [exact Hkfault|].
      split; [reflexivity|]. split; [exact Hpast|].
      left.
      split; [rewrite !List.filter_app, Hb0, Hbr, H2; reflexivity|].
      split; [exact Hq|]. split; [exact Hdl|].
      split; [exact Hsim|]. split; [exact Hf1 | exact Hst].
    + (* a failure that the handler reports *)
      destruct Hout as (Hf2 & Hsim & reason & Hres & Hst).
      destruct (handleDeliveryError_effects msg (inflight w2) channelType
                  (failure_text r) w2)
        as (evs1 & Hrun1 & Hb1 & Ht1 & He1 & Hk1).
      cbv zeta in Hrun1, Hb1.
      rewrite Hobj, Hcount, Hmax in Hrun1, Hb1. rewrite Hobj, Htid in Hk1.
        exists k, (nacked msg (rc + Z.of_nat k <? mx) (logged evs1 w2)),
        (evs0 ++ evs ++ evs1).
      split; [rewrite Hp, Hobj; exact Hrun1|]. split; [exact Hk|].
      split; [destruct (_ <? _); fields; rewrite Htr, <- !app_assoc; reflexivity|].
      split; [rewrite !List.filter_app, Ht0, Htm, Ht1; cbn;
              rewrite app_nil_r; reflexivity|].
      split.
      { apply Forall_keyed_app; [exact Hk0|].
        apply Forall_keyed_app; [apply quiet_keyed; exact Hkf | exact Hk1]. }
      split; [destruct (_ <? _); fields; rewrite !elapsed_app, He0, He1, Hclk; lia|].
      split; [destruct (_ <? _); fields; exact Hatt|].
      split; [destruct (_ <? _); fields; exact Hor|].
      split; [destruct (_ <? _); fields; exact Hkfault|].
      split; [destruct (_ <? _); fields; reflexivity|].
      split; [exact Hpast|].
      right. left.
      split; [rewrite !List.filter_app, Hb0, Hbr, Hb1; reflexivity|].
      split; [destruct (_ <? _); fields; rewrite ?Hq; reflexivity|].
      split; [destruct (_ <? _); fields; rewrite ?Hdl; reflexivity|].
      split; [exact Hf2|]. split; [exact Hsim|].
      exists reason. destruct (_ <? _); fields; exact Hst.
  - (* a failure that the handler throws *)
    destruct Hout as (Hkmax & Hf2 & Hsim & Hst).
    destruct (handleDeliveryError_effects msg (inflight w2) channelType
                reason w2)
      as (evs1 & Hrun1 & Hb1 & Ht1 & He1 & Hk1).
    cbv zeta in Hrun1, Hb1.
    rewrite Hobj, Hcount, Hmax in Hrun1, Hb1. rewrite Hobj, Htid in Hk1.
    assert (Hno : (rc + Z.of_nat k <? mx) = false).
    { apply Z.ltb_ge. lia. }
    rewrite Hno in Hrun1, Hb1.
    exists k, (nacked msg false (logged evs1 w2)), (evs0 ++ evs ++ evs1).
    split; [rewrite Hp, Hobj; exact Hrun1|]. split; [exact Hk|].
    fields.
    split; [rewrite Htr, <- !app_assoc; reflexivity|].
    split; [rewrite !List.filter_app, Ht0, Htm, Ht1; cbn;
            rewrite app_nil_r; reflexivity|].
    split.
    { apply Forall_keyed_app; [exact Hk0|].
      apply Forall_keyed_app; [apply quiet_keyed; exact Hkf | exact Hk1]. }
    split; [rewrite !elapsed_app, He0, He1, Hclk; lia|].
    split; [exact Hatt|]. split; [exact Hor|]. split; [exact Hkfault|].
    split; [reflexivity|]. split; [exact Hpast|].
    right. right.
    split; [exact Hkmax|].
    split; [rewrite !List.filter_app, Hb0, Hbr, Hb1; reflexivity|].
    split; [exact Hq|]. split; [rewrite Hdl; reflexivity|].
    split; [eexists; exact Hf2|]. split; [exact Hsim | exact Hst].
Qed.

(** The handler table, entry by entry. *)
Lemma HANDLERS_table (channelType : string)
  (handler : Message -> M World Result) :
  HANDLERS channelType = Some handler ->
  exists channel says,
    channelType = channel_name channel /\
    handler = handle channel (latency_of channel) says (records_subject channel).
Proof.
  unfold HANDLERS.
  destruct (String.eqb channelType "email") eqn:E1;
    [apply String.eqb_eq in E1; intros [= <-]; exists email; eexists;
     split; [exact E1 | reflexivity]|].
  destruct (String.eqb channelType "sms") eqn:E2;
    [apply String.eqb_eq in E2; intros [= <-]; exists sms; eexists;
     split; [exact E2 | reflexivity]|].
  destruct (String.eqb channelType "whatsapp") eqn:E3;
    [apply String.eqb_eq in E3; intros [= <-]; exists whatsapp; eexists;
     split; [exact E3 | reflexivity]|].
  discriminate.
Qed.

Lemma processMessage_no_handler (msg : AmqpMessage) (m : Message)
  (channelType : string) (w : World) :
  content msg = Json m ->
  HANDLERS channelType = None ->
  processMessage msg channelType w =
    handleDeliveryError msg (Some m) channelType
      ("No handler found for channel: " +:+ channelType)
      (started channelType m w).
Proof.
  intros Hc Hh.
  unfold processMessage. rewrite Hc.
  erewrite bind_normal by reflexivity.
  cbv beta; erewrite bind_normal by reflexivity.
  unfold try_catch.
  cbv beta; erewrite bind_normal by reflexivity.
  cbv beta; erewrite bind_normal by reflexivity.
  cbv beta zeta; erewrite bind_normal by reflexivity.
  cbv beta zeta; erewrite bind_normal by reflexivity.
  cbv beta zeta; erewrite bind_normal by reflexivity.
  cbv beta zeta; erewrite bind_normal by apply consumer_sendLog_run.
  cbv beta zeta. rewrite Hh.
  unfold throw at 1. cbv beta iota.
  erewrite bind_normal by reflexivity.
  f_equal. unfold started. same_fields.
Qed.

(** What every call of [processMessage] does, whatever the payload and
    the channel. *)
Lemma processMessage_always (msg : AmqpMessage) (channelType : string)
  (w : World) :
  exists w' evs how,
    processMessage msg channelType w = (Normal tt, w') /\
    trace w' = trace w ++ evs /\
    Forall (keyed_by (msg_traceId <$> parsed (content msg))) evs /\
    clock w' = clock w + elapsed evs /\
    oracle w' = oracle w /\
    kafka_fault w' = kafka_fault w /\
    settles msg how evs w w' /\
    (store w' = store w /\ how <> acked \/
     exists m u now,
       content msg = Json m /\
       store w' = upsert (msg_messageId m) u now (store w) /\
       up_messageId u = msg_messageId m /\
       up_traceId u = msg_traceId m /\
       up_recipient u = msg_recipient m /\
       up_body u = msg_body m /\
       channelType = channel_name (up_channel u) /\
       up_updatedAt u = clock w' /\
       match how with
       | acked => up_status u = delivered /\ up_deliveredAt u = Some (clock w')
       | _ => up_status u = failed /\ up_failedAt u = Some (clock w')
       end).
Proof.
  destruct (content msg) as [raw | m] eqn:Hc.
  - (* the payload does not parse *)
    rewrite (processMessage_garbled msg raw channelType w Hc).
    destruct (handleDeliveryError_effects msg None channelType
                "Unexpected token in JSON" (with_inflight None w))
      as (evs & Hrun & Hb & Ht & He & Hk).
    cbv zeta in Hrun, Hb. cbn [mbind option_bind default] in Hrun, Hb.
    change (0 <? 3) with true in Hrun, Hb.
    exists (nacked msg true (logged evs (with_inflight None w))), evs, requeued.
    split; [exact Hrun|]. fields.
    split; [reflexivity|]. split; [exact Hk|]. split; [lia|].
    split; [reflexivity|]. split; [reflexivity|].
    split; [repeat split; exact Hb|].
    left. split; [reflexivity | discriminate].
  - destruct (HANDLERS channelType) as [handler|] eqn:Hh.
    + (* the channel has a handler *)
      destruct (HANDLERS_table channelType handler Hh)
        as (channel & says & Hname & ->).
      destruct (processMessage_outcome msg m channelType channel
                  (latency_of channel) says (records_subject channel) w Hc Hh)
        as (k & w' & evs & Hrun & Hk & Htr & Htm & Hkey & Hclk & Hatt & Hor
            & Hkf & Hun & Hpast & Hout).
      destruct Hout as [Hout | [Hout | Hout]].
      * destruct Hout as (Hb & Hq & Hdl & _ & _ & Hst).
        exists w', evs, acked.
        split; [exact Hrun|]. split; [exact Htr|]. split; [exact Hkey|].
        split; [exact Hclk|]. split; [exact Hor|]. split; [exact Hkf|].
        split; [repeat split; assumption|].
        right. do 3 eexists. split; [reflexivity|]. split; [exact Hst|].
        cbn. rewrite !retried_messageId.
        repeat split; try reflexivity; try exact Hname;
          destruct k; reflexivity.
      * destruct Hout as (Hb & Hq & Hdl & _ & _ & reason & Hst).
        destruct (_ <? _).
        -- exists w', evs, requeued.
           split; [exact Hrun|]. split; [exact Htr|]. split; [exact Hkey|].
           split; [exact Hclk|]. split; [exact Hor|]. split; [exact Hkf|].
           split; [repeat split; assumption|].
           right. do 3 eexists. split; [reflexivity|]. split; [exact Hst|].
           cbn. rewrite !retried_messageId.
           repeat split; try reflexivity; try exact Hname;
             destruct k; reflexivity.
        -- exists w', evs, dead_lettered.
           split; [exact Hrun|]. split; [exact Htr|]. split; [exact Hkey|].
           split; [exact Hclk|]. split; [exact Hor|]. split; [exact Hkf|].
           split; [repeat split; assumption|].
           right. do 3 eexists. split; [reflexivity|]. split; [exact Hst|].
           cbn. rewrite !retried_messageId.
           repeat split; try reflexivity; try exact Hname;
             destruct k; reflexivity.
      * destruct Hout as (_ & Hb & Hq & Hdl & _ & _ & Hst).
        exists w', evs, dead_lettered.
        split; [exact Hrun|]. split; [exact Htr|]. split; [exact Hkey|].
        split; [exact Hclk|]. split; [exact Hor|]. split; [exact Hkf|].
        split; [repeat split; assumption|].
        left. split; [exact Hst | discriminate].
    + (* the channel has no handler *)
      rewrite (processMessage_no_handler msg m channelType w Hc Hh).
      destruct (handleDeliveryError_effects msg (Some m) channelType
                  ("No handler found for channel: " +:+ channelType)
                  (started channelType m w))
        as (evs & Hrun & Hb & Ht & He & Hk).
      cbv zeta in Hrun, Hb. cbn [mbind option_bind] in Hrun, Hb.
      destruct (sendLog_events_quiet w (start_record channelType m (clock w)))
        as (_ & _ & _ & H4).
      pose proof (sendLog_events_keyed w
                    (start_record channelType m (clock w)) eq_refl) as Hk0.
      destruct (_ <? _).
      * exists (nacked msg true (logged evs (started channelType m w))),
          (([Console info "Processing message"] ++
            sendLog_events w (start_record channelType m (clock w))) ++ evs),
          requeued.
        split; [exact Hrun|]. fields.
        split; [rewrite <- !app_assoc; reflexivity|].
        split; [apply Forall_keyed_app; [|exact Hk];
                apply Forall_keyed_app; [repeat constructor | exact Hk0]|].
        split; [rewrite !elapsed_app, H4, He; cbn [elapsed]; lia|].
        split; [reflexivity|]. split; [reflexivity|].
        split.
        { split; [reflexivity|]. rewrite !List.filter_app, Hb.
          destruct (sendLog_events_quiet w
                      (start_record channelType m (clock w)))
            as (_ & -> & _ & _).
          repeat split. }
        left. split; [reflexivity | discriminate].
      * exists (nacked msg false (logged evs (started channelType m w))),
          (([Console info "Processing message"] ++
            sendLog_events w (start_record channelType m (clock w))) ++ evs),
          dead_lettered.
        split; [exact Hrun|]. fields.
        split; [rewrite <- !app_assoc; reflexivity|].
        split; [apply Forall_keyed_app; [|exact Hk];
                apply Forall_keyed_app; [repeat constructor | exact Hk0]|].
        split; [rewrite !elapsed_app, H4, He; cbn [elapsed]; lia|].
        split; [reflexivity|]. split; [reflexivity|].
        split.
        { split; [reflexivity|]. rewrite !List.filter_app, Hb.
          destruct (sendLog_events_quiet w
                      (start_record channelType m (clock w)))
            as (_ & -> & _ & _).
          repeat split. }
        left. split; [reflexivity | discriminate].
Qed.

Lemma findOne_upsert_other (id other : string) (u : Update) (now : Z)
  (docs : list Doc) :
  up_messageId u = id -> id <> other ->
  findOne other (upsert id u now docs) = findOne other docs.
Proof.
  intros Hid Hne. unfold findOne.
  assert (Hneq : String.eqb id other = false) by (apply String.eqb_neq; exact Hne).
  induction docs as [|d0 rest IH]; cbn.
  - rewrite Hid, Hneq. reflexivity.
  - destruct (String.eqb (doc_messageId d0) id) eqn:E; cbn.
    + apply String.eqb_eq in E. rewrite Hid, E, Hneq. reflexivity.
    + rewrite IH. reflexivity.
Qed.

Lemma count_id_upsert_other (id other : string) (u : Update) (now : Z)
  (docs : list Doc) :
  up_messageId u = id -> id <> other ->
  count_id other (upsert id u now docs) = count_id other docs.
Proof.
  intros Hid Hne. unfold count_id.
  assert (Hneq : String.eqb id other = false) by (apply String.eqb_neq; exact Hne).
  induction docs as [|d0 rest IH]; cbn.
  - rewrite Hid, Hneq. reflexivity.
  - destruct (String.eqb (doc_messageId d0) id) eqn:E; cbn.
    + apply String.eqb_eq in E. rewrite Hid, E, Hneq. reflexivity.
    + destruct (String.eqb (doc_messageId d0) other); cbn; rewrite IH;
        reflexivity.
Qed.

Lemma elapsed_timers (evs : list Event) :
  elapsed (List.filter is_timeout evs) = elapsed evs.
Proof.
  induction evs as [|e rest IH]; [reflexivity|].
  destruct e; cbn; rewrite ?IH; reflexivity.
Qed.

Lemma sole_broker_call (e e' : Event) (evs : list Event) :
  List.filter is_broker_call evs = [e'] ->
  is_broker_call e = true ->
  e ∈ evs -> e = e'.
Proof.
  intros Hf He Hin.
  assert (H : e ∈ List.filter is_broker_call evs).
  { apply list_elem_of_In, List.filter_In. split;
      [apply list_elem_of_In; exact Hin | exact He]. }
  rewrite Hf in H. apply list_elem_of_singleton in H. exact H.
Qed.

(** *** Properties of the retry policy *)

(** X8.  The delay before the retry that follows a failure with counter
    [retryCount] is 1000, 2000 and 4000 ms for the counters 0, 1 and 2,
    and 4000 ms for every other counter, negative ones included. *)
Theorem backoff_table (retryCount : Z) :
  backoff retryCount =
    if (0 <=? retryCount) && (retryCount <=? 2) then 1000 * 2 ^ retryCount
    else 4000.
Proof.
  unfold backoff.
  destruct (Z.leb_spec 0 retryCount) as [Hlo | Hlo]; cbn [andb].
  - destruct (Z.leb_spec retryCount 2) as [Hhi | Hhi].
    + assert (H : retryCount = 0 \/ retryCount = 1 \/ retryCount = 2) by lia.
      destruct H as [-> | [-> | ->]]; reflexivity.
    + rewrite (proj2 (lookup_ge_None delays (Z.to_nat retryCount)));
        [reflexivity | cbn; lia].
  - reflexivity.
Qed.



(** X11.  If the environment refuses every delivery and every record of a
    failure, the handler throws at each attempt: the call makes all the
    retries that the counters allow, with the full backoff schedule
    between them, then rejects the message without requeue, which sends
    it to the dead-letter queue; the store is as before. *)
Theorem handler_that_always_throws_dead_letters (msg : AmqpMessage)
  (m : Message) (channelType : string) (handler : Message -> M World Result)
  (w : World) :
  content msg = Json m ->
  HANDLERS channelType = Some handler ->
  always_throws (oracle w) ->
  let retries :=
    Z.to_nat (default 3 (msg_maxRetries m) - default 0 (msg_retryCount m)) in
  exists channel w' evs,
    channelType = channel_name channel /\
    processMessage msg channelType w = (Normal tt, w') /\
    trace w' = trace w ++ evs /\
    attempts w' = (attempts w + S retries)%nat /\
    List.filter is_timeout evs =
      retry_timers (latency_of channel) (default 0 (msg_retryCount m)) retries /\
    settles msg dead_lettered evs w w' /\
    store w' = store w.
Proof.
  intros Hc Hh Henv. cbv zeta.
  destruct (HANDLERS_table channelType handler Hh) as (channel & says & Hname & ->).
  destruct (processMessage_outcome msg m channelType channel
              (latency_of channel) says (records_subject channel) w Hc Hh)
    as (k & w' & evs & Hrun & Hk & Htr & Htm & Hkey & Hclk & Hatt & Hor
        & Hkf & Hun & Hpast & Hout).
  destruct (Henv (attempts w + k)%nat) as ([reason Hf2] & Hsim).
  destruct Hout as [Hout | [Hout | Hout]].
  - destruct Hout as (_ & _ & _ & Hgood & Hf1 & _).
    rewrite Hgood, Hf1 in Hsim.
    destruct Hsim as [Hsim | [x Hsim]]; discriminate Hsim.
  - destruct Hout as (_ & _ & _ & Hnone & _). congruence.
  - destruct Hout as (-> & Hb & Hq & Hdl & _ & _ & Hst).
    exists channel, w', evs.
    split; [exact Hname|]. split; [exact Hrun|]. split; [exact Htr|].
    split; [exact Hatt|]. split; [exact Htm|].
    split; [repeat split; assumption | exact Hst].
Qed.

(** *** Settlement *)

(** X12.  Handing the head of the queue to the consumer always ends normally
    and settles that message exactly once: the broker is told once, by
    [ack] or by [nack], about this message and about no other, nothing
    stays unacknowledged, and the message is dropped, back at the head
    of its queue, or at the end of the dead-letter queue. *)
Theorem consume_settles_the_message_once (channelType : string)
  (msg : AmqpMessage) (rest : list AmqpMessage) (w : World) :
  origin_queue w = msg :: rest ->
  exists w' evs how,
    consume channelType w = (Normal tt, w') /\
    trace w' = trace w ++ evs /\
    unacked w' = None /\
    List.filter is_broker_call evs =
      [match how with
       | acked => Ack msg
       | requeued => Nack msg false true
       | dead_lettered => Nack msg false false
       end] /\
    origin_queue w' =
      match how with
      | requeued => msg :: rest
      | _ => rest
      end /\
    dead_letter_queue w' =
      match how with
      | dead_lettered => dead_letter_queue w ++ [msg]
      | _ => dead_letter_queue w
      end.
Proof.
  intros Hq.
  rewrite (consume_runs_processMessage msg rest channelType w Hq).
  destruct (processMessage_always msg channelType
              (with_broker rest (Some msg) (dead_letter_queue w) w))
    as (w' & evs & how & Hrun & Htr & _ & _ & _ & _ & (Hun & Hset) & _).
  fields in Htr. fields in Hset.
  exists w', evs, how.
  split; [exact Hrun|]. split; [exact Htr|]. split; [exact Hun|].
  destruct how; destruct Hset as (Hb & Ho & Hd);
    (split; [exact Hb|]); (split; [exact Ho | exact Hd]).
Qed.

(** X13.  A message is acknowledged only after its delivery was recorded: if
    [processMessage] acknowledged the message, the store holds a
    document with the payload's id, trace id, recipient and body, the
    channel of the queue, status delivered, and the instant of the
    delivery.  If it rejected the message, the store is as before or
    holds the document with status failed. *)
Theorem acknowledgement_follows_the_record (msg : AmqpMessage)
  (channelType : string) (w : World) :
  exists w' evs,
    processMessage msg channelType w = (Normal tt, w') /\
    trace w' = trace w ++ evs /\
    (Ack msg ∈ evs ->
     exists m d,
       content msg = Json m /\
       findOne (msg_messageId m) (store w') = Some d /\
       doc_status d = delivered /\
       doc_deliveredAt d = Some (clock w') /\
       doc_updatedAt d = clock w' /\
       doc_traceId d = msg_traceId m /\
       doc_recipient d = msg_recipient m /\
       doc_body d = msg_body m /\
       channel_name (doc_channel d) = channelType) /\
    (forall requeue, Nack msg false requeue ∈ evs ->
     store w' = store w \/
     exists m d,
       content msg = Json m /\
       findOne (msg_messageId m) (store w') = Some d /\
       doc_status d = failed /\
       doc_failedAt d = Some (clock w') /\
       doc_traceId d = msg_traceId m).
Proof.
  destruct (processMessage_always msg channelType w)
    as (w' & evs & how & Hrun & Htr & _ & _ & _ & _ & (Hun & Hset) & Hst).
  exists w', evs. split; [exact Hrun|]. split; [exact Htr|].
  split.
  - intros Hack.
    destruct how; destruct Hset as (Hb & _);
      pose proof (sole_broker_call (Ack msg) _ _ Hb eq_refl Hack) as He;
      try discriminate He.
    destruct Hst as [[_ Hno] | (m & u & now & Hc & Hs & Hid & Htid & Hrcp & Hbody
                                & Hch & Hupd & Hstat & Hat)];
      [contradiction|].
    destruct (findOne_upsert (msg_messageId m) u now (store w) Hid)
      as (d & Hf & Hds & Hd).
    exists m, d. rewrite Hs. split; [exact Hc|]. split; [exact Hf|].
    split; [congruence|].
    destruct Hd as [-> | (d0 & _ & ->)]; cbn; rewrite ?Hat;
      repeat split; try assumption; try reflexivity; symmetry; exact Hch.
  - intros requeue Hnack.
    destruct Hst as [[Hsame _] | (m & u & now & Hc & Hs & Hid & Htid & Hrcp & Hbody
                                  & Hch & Hupd & Hhow)];
      [left; exact Hsame|].
    right.
    destruct how; destruct Hset as (Hb & _);
      pose proof (sole_broker_call (Nack msg false requeue) _ _ Hb eq_refl Hnack)
        as He;
      try discriminate He; destruct Hhow as (Hstat & Hat);
      destruct (findOne_upsert (msg_messageId m) u now (store w) Hid)
        as (d & Hf & Hds & Hd);
      exists m, d; rewrite Hs; (split; [exact Hc|]); (split; [exact Hf|]);
      (split; [congruence|]);
      destruct Hd as [-> | (d0 & _ & ->)]; cbn; rewrite ?Hat;
      split; try assumption; reflexivity.
Qed.

(** *** The store *)

(** X14.  One call of [processMessage] leaves every document with another id
    than the payload's as it is, and changes the number of documents
    with none of these ids. *)
Theorem processMessage_leaves_other_documents (msg : AmqpMessage)
  (channelType : string) (w : World) (id : string) :
  (forall m, content msg = Json m -> msg_messageId m <> id) ->
  let w' := snd (processMessage msg channelType w) in
  findOne id (store w') = findOne id (store w) /\
  count_id id (store w') = count_id id (store w).
Proof.
  intros Hother. cbv zeta.
  destruct (processMessage_always msg channelType w)
    as (w' & evs & how & Hrun & _ & _ & _ & _ & _ & _ & Hst).
  rewrite Hrun. cbn [snd].
  destruct Hst as [[-> _] | (m & u & now & Hc & -> & Hid & _)];
    [split; reflexivity|].
  split.
  - apply findOne_upsert_other; [exact Hid | exact (Hother m Hc)].
  - apply count_id_upsert_other; [exact Hid | exact (Hother m Hc)].
Qed.

(** X15.  One call of [processMessage] writes at most one document.  It never
    adds a document with an id that the store already has: the number
    of documents with a given id stays as it is, or goes from 0 to 1.
    Every document that is new or changed has a terminal status. *)
Theorem processMessage_writes_one_terminal_record (msg : AmqpMessage)
  (channelType : string) (w : World) :
  let w' := snd (processMessage msg channelType w) in
  (forall id,
     count_id id (store w') = count_id id (store w) \/
     count_id id (store w) = 0%nat /\ count_id id (store w') = 1%nat) /\
  (length (store w') <= S (length (store w)))%nat /\
  (forall d, d ∈ store w' ->
     d ∈ store w \/ is_terminal (doc_status d) = true).
Proof.
  cbv zeta.
  destruct (processMessage_always msg channelType w)
    as (w' & evs & how & Hrun & _ & _ & _ & _ & _ & _ & Hst).
  rewrite Hrun. cbn [snd].
  destruct Hst as [[-> _] | (m & u & now & Hc & -> & Hid & _ & _ & _ & _ & _ & Hhow)].
  { split; [left; reflexivity|]. split; [lia|]. intros d Hd. left. exact Hd. }
  split; [|split].
  - intros id. destruct (String.eqb_spec (msg_messageId m) id) as [<- | Hne].
    + rewrite (count_id_upsert _ u now (store w) Hid).
      destruct (count_id (msg_messageId m) (store w)); [right | left]; cbn;
        [split; reflexivity | lia].
    + left. apply count_id_upsert_other; assumption.
  - clear. induction (store w) as [|d0 rest IH]; cbn; [lia|].
    destruct (String.eqb _ _); cbn; lia.
  - intros d Hd.
    destruct (upsert_elements _ _ _ _ _ Hd) as [Hin | Hs];
      [left; exact Hin | right].
    rewrite Hs. destruct how; destruct Hhow as [-> _]; reflexivity.
Qed.

(** *** The log topic *)

(** X16.  Every record that a call of [processMessage] publishes on the log
    topic names the service and is keyed by the trace id of the payload,
    which it also carries; for a payload that does not parse both are
    undefined. *)
Theorem delivery_logs_carry_the_trace_id (msg : AmqpMessage)
  (channelType : string) (w : World) :
  exists w' evs,
    processMessage msg channelType w = (Normal tt, w') /\
    trace w' = trace w ++ evs /\
    Forall (keyed_by (msg_traceId <$> parsed (content msg))) evs /\
    kafka_fault w' = kafka_fault w.
Proof.
  destruct (processMessage_always msg channelType w)
    as (w' & evs & how & Hrun & Htr & Hkey & _ & _ & Hkf & _).
  exists w', evs. repeat split; assumption.
Qed.

(** *** The tables of the two services *)

(** X17.  Every channel that the router accepts has a queue, which is
    asserted with the dead-letter queue as its dead-letter target and
    is consumed by the delivery service, with the handler that records
    this channel.  Conversely every consumer serves such a channel, so
    that [processMessage] always finds a handler, and nothing consumes
    the dead-letter queue. *)
Theorem every_routable_channel_has_its_consumer :
  (forall c : Channel,
     exists q says,
       QUEUES (channel_name c) = Some q /\
       (q, Some "dead_letter_queue") ∈ asserted_queues /\
       (channel_name c, q) ∈ consumers /\
       HANDLERS (channel_name c)
         = Some (handle c (latency_of c) says (records_subject c))) /\
  (forall channelType q,
     (channelType, q) ∈ consumers ->
     q <> "dead_letter_queue" /\
     QUEUES channelType = Some q /\
     exists c, channelType = channel_name c /\ is_Some (HANDLERS channelType)).
Proof.
  split.
  - intros c. destruct c; eexists; eexists;
      (split; [reflexivity|]);
      (split; [apply list_elem_of_In; cbn; tauto|]);
      (split; [apply list_elem_of_In; cbn; tauto|]); reflexivity.
  - intros channelType q Hin. apply list_elem_of_In in Hin. cbn in Hin.
    destruct Hin as [[= <- <-] | [[= <- <-] | [[= <- <-] | []]]];
      (split; [discriminate|]); (split; [reflexivity|]).
    + exists email. split; [reflexivity | eexists; reflexivity].
    + exists sms. split; [reflexivity | eexists; reflexivity].
    + exists whatsapp. split; [reflexivity | eexists; reflexivity].
Qed.

End DeliveryMore.



(** Witness of [handler_that_always_throws_dead_letters]: [hello] while
    the store is down. *)
Lemma always_throws_witness :
  DeliverySpec.always_throws (fun _ => Delivery.store_down) /\
  exists w',
    Delivery.processMessage Delivery.hello_msg "email"
      (Delivery.idle_world (fun _ => Delivery.store_down) [])
      = (Normal tt, w') /\
    Delivery.attempts w' = 4%nat /\
    Delivery.dead_letter_queue w' = [Delivery.hello_msg] /\
    Delivery.store w' = [].
Proof.
  assert (Henv : DeliverySpec.always_throws (fun _ => Delivery.store_down)).
  { intros n. split; [eexists; reflexivity | left; reflexivity]. }
  split; [exact Henv|].
  destruct (handler_that_always_throws_dead_letters Delivery.hello_msg
              Delivery.hello "email" Delivery.handleEmailDelivery
              (Delivery.idle_world (fun _ => Delivery.store_down) [])
              eq_refl eq_refl Henv)
    as (channel & w' & evs & _ & Hrun & _ & Ha & _ & (_ & _ & _ & Hd) & Hs).
  exists w'. split; [exact Hrun|]. split; [exact Ha|].
  split; [exact Hd | exact Hs].
Defined.

(** Witness of [consume_settles_the_message_once]: [hello] alone on the
    queue. *)
Lemma consume_settles_witness :
  exists w' evs how,
    Delivery.consume "email"
      (Delivery.idle_world (fun _ => Delivery.goes_well) [Delivery.hello_msg])
      = (Normal tt, w') /\
    Delivery.trace w' = evs /\
    Delivery.unacked w' = None /\
    Delivery.origin_queue w' =
      match how with
      | DeliverySpec.requeued => [Delivery.hello_msg]
      | _ => []
      end.
Proof.
  destruct (consume_settles_the_message_once "email" Delivery.hello_msg []
              (Delivery.idle_world (fun _ => Delivery.goes_well)
                 [Delivery.hello_msg]) eq_refl)
    as (w' & evs & how & Hrun & Htr & Hun & _ & Hq & _).
  exists w', evs, how. split; [exact Hrun|]. split; [exact Htr|].
  split; [exact Hun | exact Hq].
Defined.

(** Witness of [processMessage_leaves_other_documents]: [hello] and
    the id of another message. *)
Lemma other_documents_witness :
  let w := Delivery.idle_world (fun _ => Delivery.goes_well) [] in
  let w' := snd (Delivery.processMessage Delivery.hello_msg "email" w) in
  Delivery.findOne "msg_uuid2" (Delivery.store w') = None /\
  Delivery.count_id "msg_uuid2" (Delivery.store w') = 0%nat.
Proof.
  assert (Hother : forall m,
            Delivery.content Delivery.hello_msg = Delivery.Json m ->
            msg_messageId m <> "msg_uuid2").
  { intros m [= <-]. discriminate. }
  exact (processMessage_leaves_other_documents Delivery.hello_msg "email"
           (Delivery.idle_world (fun _ => Delivery.goes_well) [])
           "msg_uuid2" Hother).
Defined.

(** ** From the request to the record *)

Section EndToEnd.
Import Delivery DeliverySpec.
Variable sha256_hex : string -> string.

Lemma HANDLERS_channel (c : Channel) :
  exists says,
    HANDLERS (channel_name c)
      = Some (handle c (latency_of c) says (records_subject c)).
Proof. destruct c; eexists; reflexivity. Qed.


(** X19.  One trace id links the logs of the two services: the records that
    the router publishes for a request, and the records that the
    delivery service publishes when it processes a message that this
    request submitted, are all keyed by the trace id of the answer. *)
Theorem one_trace_id_across_the_services
  (input : Router.MessageInput) (w : Router.World)
  (r : Router.MessageResponse) (evs : list Router.Event)
  (q : string) (m : Message) (p : bool) (h : Router.Headers)
  (channelType : string) (wd : World) :
  fst (Router.sendMessage sha256_hex input w) = Normal r ->
  Router.trace (snd (Router.sendMessage sha256_hex input w))
    = Router.trace w ++ evs ->
  Router.SendToQueue q m p h ∈ evs ->
  exists wd' evd,
    processMessage {| content := Json m |} channelType wd = (Normal tt, wd') /\
    trace wd' = trace wd ++ evd /\
    Forall (RouterSpec.keyed_by (Router.resp_traceId r)) evs /\
    Forall (keyed_by (Some (Router.resp_traceId r))) evd /\
    Router.x_trace_id h = Router.resp_traceId r.
Proof.
  intros H1 H3 H4.
  destruct (sendMessage_outcome sha256_hex input w)
    as (evs0 & Hrun & Hq & Hkey & _).
  rewrite Hrun in H1, H3. cbn [fst snd Router.trace] in H1, H3.
  apply app_inv_head in H3. subst evs0.
  injection H1 as <-.
  assert (Ht : Router.resp_traceId (RouterSpec.answer sha256_hex input w)
               = "trace_" +:+ Router.uuids w (Router.uuid_next w)).
  { unfold RouterSpec.answer.
    destruct (Router.validation_error input); [reflexivity|].
    destruct (RouterSpec.is_duplicate _ _ _); [reflexivity|].
    destruct (Router.sendToQueue_outcome (Router.faults w)); reflexivity. }
  assert (Hin : Router.SendToQueue q m p h
                ∈ List.filter Router.touches_queue evs).
  { apply list_elem_of_In, List.filter_In. split;
      [apply list_elem_of_In; exact H4 | reflexivity]. }
  rewrite Hq in Hin. unfold RouterSpec.submissions in Hin.
  destruct (Router.validation_error input); [inversion Hin|].
  destruct (RouterSpec.is_duplicate sha256_hex input w); [inversion Hin|].
  apply list_elem_of_singleton in Hin. unfold RouterSpec.submission in Hin.
  injection Hin as -> -> -> ->.
  destruct (processMessage_always
              {| content := Json (RouterSpec.stamped
                   ("subtrace_" +:+ str_of_Z (Router.clock w))
                   (RouterSpec.drafted input
                      ("trace_" +:+ Router.uuids w (Router.uuid_next w))
                      ("msg_" +:+ Router.uuids w (S (Router.uuid_next w)))
                      (Router.clock w))) |} channelType wd)
    as (wd' & evd & how & Hrun' & Htr & Hkey' & _).
  exists wd', evd. rewrite Ht.
  split; [exact Hrun'|]. split; [exact Htr|]. split; [exact Hkey|].
  split; [exact Hkey' | reflexivity].
Qed.

End EndToEnd.

(** Witness of [one_trace_id_across_the_services]: [hello_email],
    routed and then processed. *)
Lemma one_trace_id_witness :
  exists wd' evd,
    Delivery.processMessage Delivery.hello_msg "email"
      (Delivery.idle_world (fun _ => Delivery.goes_well) [])
      = (Normal tt, wd') /\
    Delivery.trace wd' = evd /\
    Forall (DeliverySpec.keyed_by (Some "trace_uuid0")) evd.
Proof.
  pose (w := Router.fresh_world Router.all_well).
  pose (out := Router.sendMessage Router.plain_digest Router.hello_email w).
  assert (H1 : fst out =
               Normal {| Router.resp_success := true;
                         Router.resp_messageId := Some "msg_uuid1";
                         Router.resp_traceId := "trace_uuid0";
                         Router.resp_message := "Message queued successfully" |}).
  { vm_compute. reflexivity. }
  assert (H4 : Router.SendToQueue "email_queue" Delivery.hello true
                 {| Router.x_retry_count := 0;
                    Router.x_trace_id := "trace_uuid0";
                    Router.x_subtrace_id := "subtrace_1000" |}
               ∈ Router.trace (snd out)).
  { apply list_elem_of_In. vm_compute. tauto. }
  destruct (one_trace_id_across_the_services Router.plain_digest
              Router.hello_email w _ (Router.trace (snd out)) _ _ _ _ "email"
              (Delivery.idle_world (fun _ => Delivery.goes_well) [])
              H1 eq_refl H4)
    as (wd' & evd & Hrun & Htr & _ & Hkey & _).
  exists wd', evd. split; [exact Hrun|]. split; [exact Htr | exact Hkey].
Defined.


(** ** The listing of the delivery service *)

Section RestFacts.
Import Delivery Rest.

Lemma length_insert_newest (d : Doc) (l : list Doc) :
  length (insert_newest d l) = S (length l).
Proof.
  induction l as [|d' rest IH]; [reflexivity|].
  cbn. destruct (_ <? _); cbn; [reflexivity | rewrite IH; reflexivity].
Qed.

Lemma length_newest_first (docs : list Doc) :
  length (newest_first docs) = length docs.
Proof.
  induction docs as [|d rest IH]; [reflexivity|].
  change (newest_first (d :: rest)) with (insert_newest d (newest_first rest)).
  rewrite length_insert_newest, IH. reflexivity.
Qed.

Lemma ceil_div_bounds (a b : Z) :
  0 <= a -> 0 < b ->
  0 <= ceil_div a b /\ b * (ceil_div a b - 1) < a <= b * ceil_div a b.
Proof.
  intros Ha Hb. unfold ceil_div.
  pose proof (Z.div_mod (- a) b ltac:(lia)) as Hdm.
  pose proof (Z.mod_pos_bound (- a) b Hb) as Hm.
  nia.
Qed.

(** The chunks of [k] elements of a list, put together. *)
Lemma chunks_take {A} (k : nat) (l : list A) (j : nat) :
  concat (List.map (fun p => take k (drop ((p - 1) * k) l)) (seq 1 j))
  = take (j * k) l.
Proof.
  induction j as [|j IH]; [reflexivity|].
  rewrite seq_S, List.map_app, concat_app, IH. cbn [List.map concat].
  rewrite app_nil_r.
  replace (1 + j - 1)%nat with j by lia.
  rewrite take_take_drop. f_equal. lia.
Qed.

Lemma get_messages_page (query_limit : option Z) (docs : list Doc) (p : nat) :
  0 < or_fallback query_limit 10 ->
  (1 <= p)%nat ->
  let k := Z.to_nat (or_fallback query_limit 10) in
  get_messages None (Some (Z.of_nat p)) query_limit docs =
    Ok {| messages := take k (drop ((p - 1) * k) (newest_first docs));
          pagination :=
            {| page := Z.of_nat p; limit := or_fallback query_limit 10;
               total := Z.of_nat (length docs);
               pages := ceil_div (Z.of_nat (length docs))
                          (or_fallback query_limit 10) |} |}.
Proof.
  intros Hl Hp. cbv zeta. unfold get_messages, find_page.
  assert (Hpage : or_fallback (Some (Z.of_nat p)) 1 = Z.of_nat p).
  { unfold or_fallback. destruct (Z.eqb_spec (Z.of_nat p) 0); [lia | reflexivity]. }
  rewrite Hpage.
  destruct (Z.ltb_spec ((Z.of_nat p - 1) * or_fallback query_limit 10) 0);
    [nia|].
  do 4 f_equal.
  - lia.
  - f_equal. nia.
Qed.


End RestFacts.

